(** * stwefd: the channel automation server (server.js)

    A shallow embedding of the request handlers of [server.js] and of the
    background comment loop, with the remote messaging protocol (the
    [telegram] client library) as an abstract, stateful capability.

    Conventions of the embedding:
    - every [await]ed protocol call goes through one oracle [tg] that
      threads an abstract world [W] and either returns or throws the
      [message] of an [Error];
    - [console.log]/[console.error] are not observable and are left out;
    - timers ([setTimeout]) and protocol calls are recorded, in order, in
      the [trace] of the server state;
    - a handler run is atomic; the background comment loop is a small-step
      machine whose steps are its [await] points: a step completes the
      awaited operation and runs the loop to its next [await];
    - request bodies are JSON of the expected types: identifiers and
      links are strings, subscriber bounds and the interval are integers,
      lists are arrays of strings; a field a handler tests for presence,
      or uses without a test, may be missing. *)

From stdpp Require Import gmap strings list pretty.
From Stdlib Require Import ZArith.

Local Open Scope string_scope.
Local Open Scope list_scope.
Local Open Scope Z_scope.

(** ** JavaScript string and coercion helpers *)

Module Js.

(** [pat] is a prefix of [s]. *)
Fixpoint startsWith (pat s : string) : bool :=
  match pat, s with
  | EmptyString, _ => true
  | String a pat', String b s' => if decide (a = b) then startsWith pat' s' else false
  | String _ _, EmptyString => false
  end.

Fixpoint drop (n : nat) (s : string) : string :=
  match n, s with
  | O, _ => s
  | S n', String _ s' => drop n' s'
  | S _, EmptyString => EmptyString
  end.

(** [String.prototype.includes]. *)
Fixpoint includes (s pat : string) : bool :=
  if startsWith pat s then true
  else match s with
       | EmptyString => false
       | String _ s' => includes s' pat
       end.

(** [String.prototype.replace] with a string pattern: only the first
    occurrence is replaced. *)
Fixpoint replace (s pat rep : string) : string :=
  if startsWith pat s then rep +:+ drop (String.length pat) s
  else match s with
       | EmptyString => EmptyString
       | String a s' => String a (replace s' pat rep)
       end.

(** Truthiness of a possibly missing string field: [undefined] and the
    empty string are falsy. *)
Definition truthy (o : option string) : bool :=
  match o with
  | Some s => negb (bool_decide (s = EmptyString))
  | None => false
  end.

(** A possibly missing field inside a template literal. *)
Definition interp (o : option string) : string := default "undefined" o.

(** [x || d] on a possibly missing string. *)
Definition or_str (o : option string) (d : string) : string :=
  if truthy o then default d o else d.

(** [x || null] on a possibly missing string. *)
Definition or_null (o : option string) : option string :=
  if truthy o then o else None.

(** [x || 0] on a possibly missing number. *)
Definition or_zero (o : option Z) : Z := default 0 o.

(** [BigInteger.toString()]. *)
Definition toString (z : Z) : string := pretty z.

End Js.

(** ** Data exchanged with the protocol library *)

Definition ClientRef := nat.

Record Chat := {
  className : string;
  megagroup : bool;
  chat_id : Z;
  title : string;
  chat_username : option string;
  chat_verified : bool
}.

Record ChatFullFlags := { noComments : bool }.

Record ChatFull := {
  participantsCount : option Z;
  flags : option ChatFullFlags;
  about : option string
}.

Record Message := { msg_id : Z }.

Record Entity := { entity_id : Z }.

(** The [error.message] of a thrown [Error]. *)
Definition Exn := string.

(** The operations of the protocol client that [server.js] awaits, indexed
    by the type of their result. *)
Inductive call : Type -> Type :=
| NewTelegramClient (apiId : option Z) (apiHash : string) : call ClientRef
| Connect (c : ClientRef) : call unit
| SendCode (c : ClientRef) (apiId : option Z) (apiHash phoneNumber : string) : call unit
| SignInUser (c : ClientRef) (apiId : option Z)
    (apiHash phoneNumber phoneCode password : string) : call unit
| ContactsSearch (c : ClientRef) (q : string) (limit : Z) : call (list Chat)
| GetFullChannel (c : ClientRef) (channel : Chat) : call ChatFull
| GetEntity (c : ClientRef) (username : string) : call Entity
| JoinChannel (c : ClientRef) (channel : Entity) : call unit
| GetMessages (c : ClientRef) (channel : Entity) (limit : Z) : call (list Message)
| SendMessage (c : ClientRef) (channel : Entity) (message : string) (replyTo : Z) : call unit
| Disconnect (c : ClientRef) : call unit.

Inductive event :=
| ECall {A : Type} (c : call A)
| ESleep (ms : Z).

Definition is_signIn (e : event) : bool :=
  match e with
  | ECall (SignInUser _ _ _ _ _ _) => true
  | _ => false
  end.

Definition is_sendMessage (e : event) : bool :=
  match e with
  | ECall (SendMessage _ _ _ _) => true
  | _ => false
  end.

Definition is_sleep (e : event) : bool :=
  match e with
  | ESleep _ => true
  | _ => false
  end.

(** ** Responses *)

(** One element of [allChannels]. *)
Record ChannelInfo := {
  ci_id : string;
  ci_name : string;
  ci_username : option string;
  ci_subscribers : Z;
  ci_description : string;
  ci_verified : bool;
  ci_keyword : string;
  ci_hasComments : bool
}.

(** One element of [results] in the subscribe handler; a key the object
    literal does not have is [None]. *)
Record SubscriptionResult := {
  sr_channel : string;
  sr_username : option string;
  sr_success : bool;
  sr_message : option string;
  sr_error : option string
}.

Inductive Body :=
| BError (error : string) (details : option string)
| BNeedsCode (message : string)
| BNeedsPassword (message : string)
| BSession (message session : string)
| BChannels (channels : list ChannelInfo) (total : nat)
| BSubscribed (results : list SubscriptionResult) (joined failed : nat)
| BCommenting (message : string) (interval : Z) (channels : nat)
| BMessage (message : string).

Record Response := { status : Z; body : Body }.

Definition json (b : Body) : Response := {| status := 200; body := b |}.
Definition status_json (code : Z) (b : Body) : Response := {| status := code; body := b |}.

(** [success: true] is a key of every body but the error ones. *)
Definition success (r : Response) : bool :=
  match body r with
  | BError _ _ => false
  | _ => true
  end.

(** ** Request bodies

    A field the handler tests for presence, or interpolates without a
    test, is an [option]; [None] is [undefined]. *)

Record ConnectBody := {
  cb_apiId : option string;
  cb_apiHash : option string;
  cb_phoneNumber : option string;
  cb_code : option string;
  cb_password : option string
}.

Record SearchBody := {
  sb_keywords : option (list string);
  sb_minSubscribers : Z;
  sb_maxSubscribers : Z;
  sb_apiId : option string;
  sb_phoneNumber : option string
}.

Record SubscribeBody := {
  ub_channelLinks : option (list string);
  ub_apiId : option string;
  ub_phoneNumber : option string
}.

Record CommentBody := {
  mb_channelLinks : list string;
  mb_commentText : string;
  mb_interval : Z;
  mb_apiId : option string;
  mb_phoneNumber : option string
}.

Record DisconnectBody := {
  db_apiId : option string;
  db_phoneNumber : option string
}.

(** [`${phoneNumber}_${apiId}`] *)
Definition sessionKey (phoneNumber apiId : option string) : string :=
  Js.interp phoneNumber +:+ "_" +:+ Js.interp apiId.

(** ** The background comment loop *)

(** Where a comment loop is suspended: the operation it awaits. [Spinning]
    is the [while] over an empty channel list, which never reaches an
    [await]; [Finished] is the loop after its [while] test failed. *)
Inductive pc :=
| AtGetEntity (username : string) (rest : list string)
| AtGetMessages (channel : Entity) (rest : list string)
| AtSendMessage (channel : Entity) (replyTo : Z) (rest : list string)
| AtSleep (rest : list string)
| Spinning
| Finished.

(** The variables the loop closes over, and its position. *)
Record Loop := {
  lp_client : ClientRef;
  lp_channelLinks : list string;
  lp_commentText : string;
  lp_interval : Z;
  lp_pc : pc
}.

Definition set_pc (l : Loop) (p : pc) : Loop :=
  {| lp_client := lp_client l; lp_channelLinks := lp_channelLinks l;
     lp_commentText := lp_commentText l; lp_interval := lp_interval l;
     lp_pc := p |}.

Definition is_finished (l : Loop) : bool :=
  match lp_pc l with Finished => true | _ => false end.

Definition is_spinning (l : Loop) : bool :=
  match lp_pc l with Spinning => true | _ => false end.

(** A loop that has been launched and has not left its [while]. *)
Definition running (l : Loop) : bool := negb (is_finished l).

(** [link.replace('https://t.me/', '').replace('@', '')] *)
Definition normalize (link : string) : string :=
  Js.replace (Js.replace link "https://t.me/" EmptyString) "@" EmptyString.

(** ** The protocol capability *)

(** Everything [server.js] takes from outside: the client library and the
    platform behind it, and the builtin [parseInt]. *)
Class Remote := {
  (** The state of the protocol library and of the platform behind it. *)
  W : Type;
  (** Performing one awaited operation: the new world, and either the
      thrown error or the result. *)
  tg : forall A : Type, call A -> W -> W * (Exn + A);
  (** The [connected] property of a client object. *)
  connected : W -> ClientRef -> bool;
  (** [client.session.save()] *)
  session_save : W -> ClientRef -> string;
  (** The builtin [parseInt]; [None] is [NaN]. *)
  parseInt : option string -> option Z
}.

(** ** The server *)

Section Server.

Context {R : Remote}.

(** The module-level variables of [server.js], the suspended comment
    loops, and the effects performed so far. *)
Record State := {
  world : W;
  sessions : gmap string ClientRef;
  commentingActive : bool;
  loops : list Loop;
  trace : list event
}.

Definition set_world (w : W) (s : State) : State :=
  {| world := w; sessions := sessions s; commentingActive := commentingActive s;
     loops := loops s; trace := trace s |}.

Definition set_sessions (m : gmap string ClientRef) (s : State) : State :=
  {| world := world s; sessions := m; commentingActive := commentingActive s;
     loops := loops s; trace := trace s |}.

Definition set_commentingActive (b : bool) (s : State) : State :=
  {| world := world s; sessions := sessions s; commentingActive := b;
     loops := loops s; trace := trace s |}.

Definition set_loops (ls : list Loop) (s : State) : State :=
  {| world := world s; sessions := sessions s; commentingActive := commentingActive s;
     loops := ls; trace := trace s |}.

Definition log_event (e : event) (s : State) : State :=
  {| world := world s; sessions := sessions s; commentingActive := commentingActive s;
     loops := loops s; trace := trace s ++ [e] |}.

(** *** State and exception monad *)

Definition M (A : Type) : Type := State -> State * (Exn + A).

Definition ret {A} (a : A) : M A := fun s => (s, inr a).

Definition bind {A B} (m : M A) (k : A -> M B) : M B :=
  fun s => match m s with
           | (s', inr a) => k a s'
           | (s', inl e) => (s', inl e)
           end.

Definition throw {A} (e : Exn) : M A := fun s => (s, inl e).

(** [try { m } catch (e) { h e }]: the handler runs in the state the
    body left behind. *)
Definition try_catch {A} (m : M A) (h : Exn -> M A) : M A :=
  fun s => match m s with
           | (s', inr a) => (s', inr a)
           | (s', inl e) => h e s'
           end.

Definition gets {A} (f : State -> A) : M A := fun s => (s, inr (f s)).

Definition modify (f : State -> State) : M unit := fun s => (f s, inr tt).

(** [await] of a protocol operation. *)
Definition invoke {A} (c : call A) : M A :=
  fun s => let (w', r) := tg A c (world s) in
           (log_event (ECall c) (set_world w' s), r).

(** [await new Promise(resolve => setTimeout(resolve, ms))] *)
Definition sleep (ms : Z) : M unit := modify (log_event (ESleep ms)).

Definition sessions_get (key : string) : M (option ClientRef) :=
  gets (fun s => sessions s !! key).

Definition sessions_set (key : string) (c : ClientRef) : M unit :=
  modify (fun s => set_sessions (<[key := c]> (sessions s)) s).

Definition sessions_delete (key : string) : M unit :=
  modify (fun s => set_sessions (delete key (sessions s)) s).

Definition client_connected (c : ClientRef) : M bool :=
  gets (fun s => connected (world s) c).

Definition client_session_save (c : ClientRef) : M string :=
  gets (fun s => session_save (world s) c).

Notation "x <- m ;; k" := (bind m (fun x => k))
  (at level 100, m at next level, right associativity).
Notation "m >> k" := (bind m (fun _ => k))
  (at level 100, right associativity).

(** A [for ... of] loop over [l] that updates [b]. *)
Fixpoint for_of {A B} (f : B -> A -> M B) (l : list A) (b : B) : M B :=
  match l with
  | [] => ret b
  | x :: l' => b' <- f b x ;; for_of f l' b'
  end.

(** *** POST /api/connect *)

Definition api_connect (b : ConnectBody) : M Response :=
  let apiId := cb_apiId b in
  let apiHash := cb_apiHash b in
  let phoneNumber := cb_phoneNumber b in
  let code := cb_code b in
  let password := cb_password b in
  try_catch
    (if negb (Js.truthy apiId) || negb (Js.truthy apiHash) || negb (Js.truthy phoneNumber)
     then ret (status_json 400
                 (BError "Missing required fields: apiId, apiHash, phoneNumber" None))
     else
       let key := sessionKey phoneNumber apiId in
       found <- sessions_get key ;;
       match found with
       | None =>
           client <- invoke (NewTelegramClient (parseInt apiId) (Js.interp apiHash)) ;;
           invoke (Connect client) >>
           conn <- client_connected client ;;
           if negb conn then throw "Failed to connect to Telegram"
           else if negb (Js.truthy code) then
             invoke (SendCode client (parseInt apiId) (Js.interp apiHash)
                       (Js.interp phoneNumber)) >>
             sessions_set key client >>
             ret (json (BNeedsCode "Verification code sent to your Telegram app"))
           else
             early <- try_catch
               (invoke (SignInUser client (parseInt apiId) (Js.interp apiHash)
                          (Js.interp phoneNumber) (Js.interp code)
                          (Js.or_str password EmptyString)) >>
                ret None)
               (fun error =>
                  if Js.includes error "PHONE_CODE_INVALID" then
                    ret (Some (status_json 400 (BError "Invalid verification code" None)))
                  else if Js.includes error "SESSION_PASSWORD_NEEDED" then
                    ret (Some (json (BNeedsPassword
                      "Two-factor authentication enabled. Please provide password.")))
                  else throw error) ;;
             match early with
             | Some response => ret response
             | None =>
                 sessionString <- client_session_save client ;;
                 sessions_set key client >>
                 ret (json (BSession "Successfully connected to Telegram" sessionString))
             end
       | Some client =>
           (* Client already exists *)
           conn <- client_connected client ;;
           (if negb conn then invoke (Connect client) else ret tt) >>
           sessionString <- client_session_save client ;;
           ret (json (BSession "Already connected" sessionString))
       end)
    (fun error =>
       ret (status_json 500 (BError error (Some "Make sure your credentials are correct")))).

(** *** POST /api/search-channels *)

(** [!fullChannel.fullChat.flags || !fullChannel.fullChat.flags.noComments] *)
Definition hasDiscussion (fullChat : ChatFull) : bool :=
  match flags fullChat with
  | None => true
  | Some f => negb (noComments f)
  end.

(** [participantsCount >= minSubscribers && participantsCount <= maxSubscribers] *)
Definition meetsCriteria (count minSubscribers maxSubscribers : Z) : bool :=
  ((minSubscribers <=? count) && (count <=? maxSubscribers))%Z.

(** The guard of the chat loop: a broadcast channel not seen in this call. *)
Definition is_candidate (seenIds : gset string) (chat : Chat) : bool :=
  bool_decide (className chat = "Channel")
  && negb (megagroup chat)
  && negb (bool_decide (Js.toString (chat_id chat) ∈ seenIds)).

Definition channelInfo (chat : Chat) (fullChat : ChatFull) (count : Z)
    (keyword : string) : ChannelInfo :=
  {| ci_id := Js.toString (chat_id chat);
     ci_name := title chat;
     ci_username := Js.or_null (chat_username chat);
     ci_subscribers := count;
     ci_description := Js.or_str (about fullChat) EmptyString;
     ci_verified := chat_verified chat;
     ci_keyword := keyword;
     ci_hasComments := true |}.

(** The two local accumulators of the handler: [allChannels], [seenIds]. *)
Definition SearchAcc : Type := list ChannelInfo * gset string.

(** The body of [for (const chat of result.chats)]. The [try] block
    mutates the accumulators only in its last statements, so a throw
    leaves them as they were. *)
Definition process_chat (client : ClientRef) (minSubscribers maxSubscribers : Z)
    (keyword : string) (acc : SearchAcc) (chat : Chat) : M SearchAcc :=
  let '(allChannels, seenIds) := acc in
  if is_candidate seenIds chat then
    acc' <- try_catch
      (fullChat <- invoke (GetFullChannel client chat) ;;
       let count := Js.or_zero (participantsCount fullChat) in
       if meetsCriteria count minSubscribers maxSubscribers then
         if hasDiscussion fullChat then
           ret (allChannels ++ [channelInfo chat fullChat count keyword],
                {[ Js.toString (chat_id chat) ]} ∪ seenIds)
         else ret acc
       else ret acc)
      (fun err => ret acc) ;;
    sleep 100 >>
    ret acc'
  else ret acc.

(** The body of [for (const keyword of keywords)]. *)
Definition search_keyword (client : ClientRef) (minSubscribers maxSubscribers : Z)
    (acc : SearchAcc) (keyword : string) : M SearchAcc :=
  try_catch
    (chats <- invoke (ContactsSearch client keyword 50) ;;
     acc' <- for_of (process_chat client minSubscribers maxSubscribers keyword) chats acc ;;
     sleep 500 >>
     ret acc')
    (fun err => ret acc).

Definition api_search_channels (b : SearchBody) : M Response :=
  try_catch
    (match sb_keywords b with
     | None | Some [] => ret (status_json 400 (BError "Keywords are required" None))
     | Some keywords =>
         found <- sessions_get (sessionKey (sb_phoneNumber b) (sb_apiId b)) ;;
         conn <- match found with
                 | Some client => client_connected client
                 | None => ret false
                 end ;;
         match found, conn with
         | Some client, true =>
             acc <- for_of (search_keyword client (sb_minSubscribers b) (sb_maxSubscribers b))
                      keywords ([], ∅) ;;
             let allChannels := fst acc in
             ret (json (BChannels allChannels (length allChannels)))
         | _, _ =>
             ret (status_json 401
                    (BError "Not connected to Telegram. Please connect first." None))
         end
     end)
    (fun error =>
       ret (status_json 500 (BError error (Some "Error searching for channels")))).

(** *** POST /api/subscribe *)

Definition joined_result (link username : string) : SubscriptionResult :=
  {| sr_channel := link; sr_username := Some username; sr_success := true;
     sr_message := Some "Successfully joined"; sr_error := None |}.

Definition failed_result (link : string) (err : Exn) : SubscriptionResult :=
  {| sr_channel := link; sr_username := None; sr_success := false;
     sr_message := None; sr_error := Some err |}.

(** The body of [for (const link of channelLinks)]. *)
Definition join_link (client : ClientRef) (results : list SubscriptionResult)
    (link : string) : M (list SubscriptionResult) :=
  try_catch
    (let username := normalize link in
     channel <- invoke (GetEntity client username) ;;
     invoke (JoinChannel client channel) >>
     let results' := results ++ [joined_result link username] in
     sleep 2000 >>
     ret results')
    (fun err => ret (results ++ [failed_result link err])).

Definition joined (results : list SubscriptionResult) : nat :=
  length (filter (fun r => sr_success r = true) results).

Definition failed (results : list SubscriptionResult) : nat :=
  length (filter (fun r => negb (sr_success r) = true) results).

Definition api_subscribe (b : SubscribeBody) : M Response :=
  try_catch
    (found <- sessions_get (sessionKey (ub_phoneNumber b) (ub_apiId b)) ;;
     conn <- match found with
             | Some client => client_connected client
             | None => ret false
             end ;;
     match found, conn with
     | Some client, true =>
         match ub_channelLinks b with
         | None => throw "channelLinks is not iterable"
         | Some channelLinks =>
             results <- for_of (join_link client) channelLinks [] ;;
             ret (json (BSubscribed results (joined results) (failed results)))
         end
     | _, _ => ret (status_json 401 (BError "Not connected to Telegram" None))
     end)
    (fun error => ret (status_json 500 (BError error None))).

(** *** POST /api/comment and the loop it launches *)

(** The head of [for (const link of channelLinks)] with [rest] still to
    visit, followed by [if (!commentingActive) break;]. [None]: the
    [for] is left, exhausted or by the [break]. Otherwise the loop
    enters the [try] block and suspends on [client.getEntity]. *)
Definition for_head (active : bool) (rest : list string) : option pc :=
  match rest with
  | [] => None
  | link :: rest' =>
      if negb active then None
      else Some (AtGetEntity (normalize link) rest')
  end.

(** The head of [while (commentingActive)]. No [await] lies between the
    [while] test and the [for], so the flag is the same at both; if the
    [for] is left at once the [while] repeats without ever suspending. *)
Definition while_head (active : bool) (channelLinks : list string) : pc :=
  if active then
    match for_head active channelLinks with
    | Some p => p
    | None => Spinning
    end
  else Finished.

(** After the timer of an iteration: next [for] iteration, or back to
    the [while] test. *)
Definition after_sleep (active : bool) (channelLinks rest : list string) : pc :=
  match for_head active rest with
  | Some p => p
  | None => while_head active channelLinks
  end.

(** [m], with a throw turned into a value. *)
Definition attempt {A} (m : M A) : M (Exn + A) :=
  try_catch (a <- m ;; ret (inr a)) (fun e => ret (inl e)).

(** One resumption of a suspended loop: the awaited operation completes
    and the loop runs to its next [await]. A throw anywhere in the [try]
    block goes to the [catch], which falls through to the timer. *)
Definition resume (l : Loop) : M Loop :=
  match lp_pc l with
  | AtGetEntity username rest =>
      r <- attempt (invoke (GetEntity (lp_client l) username)) ;;
      match r with
      | inr channel => ret (set_pc l (AtGetMessages channel rest))
      | inl _ => ret (set_pc l (AtSleep rest))
      end
  | AtGetMessages channel rest =>
      r <- attempt (invoke (GetMessages (lp_client l) channel 5)) ;;
      match r with
      | inr (latestMessage :: _) =>
          ret (set_pc l (AtSendMessage channel (msg_id latestMessage) rest))
      | inr [] => ret (set_pc l (AtSleep rest))
      | inl _ => ret (set_pc l (AtSleep rest))
      end
  | AtSendMessage channel replyTo rest =>
      attempt (invoke (SendMessage (lp_client l) channel (lp_commentText l) replyTo)) >>
      ret (set_pc l (AtSleep rest))
  | AtSleep rest =>
      sleep (lp_interval l * 1000) >>
      active <- gets commentingActive ;;
      ret (set_pc l (after_sleep active (lp_channelLinks l) rest))
  | Spinning => ret l
  | Finished => ret l
  end.

(** The handler. It has no [await] of its own: the loop it launches runs
    up to its first [await] before the response is written. [None]: the
    loop never suspends, so the handler never gets to respond. *)
Definition api_comment (b : CommentBody) : M (option Response) :=
  try_catch
    (found <- sessions_get (sessionKey (mb_phoneNumber b) (mb_apiId b)) ;;
     conn <- match found with
             | Some client => client_connected client
             | None => ret false
             end ;;
     match found, conn with
     | Some client, true =>
         modify (set_commentingActive true) >>
         active <- gets commentingActive ;;
         let l := {| lp_client := client;
                     lp_channelLinks := mb_channelLinks b;
                     lp_commentText := mb_commentText b;
                     lp_interval := mb_interval b;
                     lp_pc := while_head active (mb_channelLinks b) |} in
         modify (fun s => set_loops (loops s ++ [l]) s) >>
         if is_spinning l then ret None
         else ret (Some (json (BCommenting "Commenting started" (mb_interval b)
                                 (length (mb_channelLinks b)))))
     | _, _ => ret (Some (status_json 401 (BError "Not connected to Telegram" None)))
     end)
    (fun error => ret (Some (status_json 500 (BError error None)))).

(** *** POST /api/stop-commenting *)

Definition api_stop_commenting : M Response :=
  modify (set_commentingActive false) >>
  ret (json (BMessage "Commenting stopped")).

(** *** POST /api/disconnect *)

Definition api_disconnect (b : DisconnectBody) : M Response :=
  try_catch
    (let key := sessionKey (db_phoneNumber b) (db_apiId b) in
     found <- sessions_get key ;;
     match found with
     | Some client => invoke (Disconnect client) >> sessions_delete key
     | None => ret tt
     end >>
     ret (json (BMessage "Disconnected from Telegram")))
    (fun error => ret (status_json 500 (BError error None))).

(** *** The process: requests interleaved with loop resumptions *)

Inductive request :=
| PostConnect (b : ConnectBody)
| PostSearchChannels (b : SearchBody)
| PostSubscribe (b : SubscribeBody)
| PostComment (b : CommentBody)
| PostStopCommenting
| PostDisconnect (b : DisconnectBody).

Inductive label :=
| Request (r : request)
| Resume (i : nat).

Definition is_start (lbl : label) : bool :=
  match lbl with
  | Request (PostComment _) => true
  | _ => false
  end.

Definition handle (r : request) : M (option Response) :=
  match r with
  | PostConnect b => res <- api_connect b ;; ret (Some res)
  | PostSearchChannels b => res <- api_search_channels b ;; ret (Some res)
  | PostSubscribe b => res <- api_subscribe b ;; ret (Some res)
  | PostComment b => api_comment b
  | PostStopCommenting => res <- api_stop_commenting ;; ret (Some res)
  | PostDisconnect b => res <- api_disconnect b ;; ret (Some res)
  end.

(** A spinning loop never yields to the event loop: nothing else runs. *)
Definition hung (s : State) : bool := existsb is_spinning (loops s).

Definition step (lbl : label) (s : State) : option State :=
  if hung s then None
  else match lbl with
       | Request r => Some (fst (handle r s))
       | Resume i =>
           match loops s !! i with
           | Some l =>
               if running l then
                 match resume l s with
                 | (s', inr l') => Some (set_loops (<[i := l']> (loops s')) s')
                 | (_, inl _) => None
                 end
               else None
           | None => None
           end
       end.

Fixpoint run (lbls : list label) (s : State) : option State :=
  match lbls with
  | [] => Some s
  | lbl :: lbls' =>
      match step lbl s with
      | Some s' => run lbls' s'
      | None => None
      end
  end.

(** The process at start-up: [sessions = new Map()],
    [commentingActive = false], no loop launched. *)
Definition init (w : W) : State :=
  {| world := w; sessions := ∅; commentingActive := false; loops := []; trace := [] |}.

Definition reachable (s : State) : Prop :=
  exists w lbls, run lbls (init w) = Some s.

Definition running_loops (s : State) : nat :=
  length (filter (fun l => running l = true) (loops s)).

End Server.

(** ** Outcomes of the join attempts, read off the protocol

    What the protocol answers to the two calls of one join attempt, and the
    world it leaves: [true] when both [getEntity] and [JoinChannel]
    return. Used to count the failed attempts independently of the
    handler's own bookkeeping. *)

Section JoinOutcomes.

Context {R : Remote}.

Definition join_attempt (client : ClientRef) (link : string) (w : W) : W * bool :=
  match tg _ (GetEntity client (normalize link)) w with
  | (w1, inr channel) =>
      match tg _ (JoinChannel client channel) w1 with
      | (w2, inr _) => (w2, true)
      | (w2, inl _) => (w2, false)
      end
  | (w1, inl _) => (w1, false)
  end.

Fixpoint join_attempts (client : ClientRef) (links : list string) (w : W) : list bool :=
  match links with
  | [] => []
  | link :: links' =>
      let (w', ok) := join_attempt client link w in
      ok :: join_attempts client links' w'
  end.

(** [K]: how many of the attempts fail. *)
Definition failures (outcomes : list bool) : nat :=
  length (filter (fun ok => ok = false) outcomes).

End JoinOutcomes.

(** ** A concrete platform

    A small scripted instance of [Remote], used to run the handlers on
    concrete requests. *)

Module Demo.

Record World := { next_client : nat; signed_in : list ClientRef }.

Definition chat (i : Z) (name : string) (group : bool) : Chat :=
  {| className := "Channel"; megagroup := group; chat_id := i; title := name;
     chat_username := Some name; chat_verified := false |}.

Definition full (n : Z) (closed : bool) : ChatFull :=
  {| participantsCount := Some n; flags := Some {| noComments := closed |};
     about := None |}.

Definition search (q : string) : Exn + list Chat :=
  if decide (q = "news") then inr [chat 1 "daily" false; chat 2 "wire" false; chat 9 "chatroom" true]
  else if decide (q = "tech") then inr [chat 2 "wire" false; chat 3 "bits" false; chat 4 "huge" false; chat 5 "mute" false]
  else if decide (q = "down") then inl "FLOOD_WAIT_30"
  else inr [].

Definition full_channel (c : Chat) : Exn + ChatFull :=
  if decide (chat_id c = 1) then inr (full 2500 false)
  else if decide (chat_id c = 2) then inr (full 1000 false)
  else if decide (chat_id c = 3) then inl "CHANNEL_PRIVATE"
  else if decide (chat_id c = 4) then inr (full 5001 false)
  else inr (full 3000 true).

Definition entity (username : string) : Exn + Entity :=
  if decide (username = "bar") then inl "Cannot find any entity corresponding to bar"
  else inr {| entity_id := Z.of_nat (String.length username) |}.

Definition demo_tg (A : Type) (c : call A) (w : World) : World * (Exn + A) :=
  match c in call T return World * (Exn + T) with
  | NewTelegramClient _ _ =>
      ({| next_client := S (next_client w); signed_in := signed_in w |},
       inr (next_client w))
  | Connect _ => (w, inr tt)
  | SendCode _ _ _ _ => (w, inr tt)
  | SignInUser c _ _ _ code _ =>
      if decide (code = "12345")
      then ({| next_client := next_client w; signed_in := c :: signed_in w |}, inr tt)
      else (w, inl "PHONE_CODE_INVALID")
  | ContactsSearch _ q _ => (w, search q)
  | GetFullChannel _ c => (w, full_channel c)
  | GetEntity _ username => (w, entity username)
  | JoinChannel _ _ => (w, inr tt)
  | GetMessages _ _ _ => (w, inr [ {| msg_id := 7 |}; {| msg_id := 6 |} ])
  | SendMessage _ _ _ _ => (w, inr tt)
  | Disconnect _ => (w, inr tt)
  end.

(** The value of the leading decimal digits of [s], if there are any. *)
Fixpoint leading_digits (s : string) (acc : option Z) : option Z :=
  match s with
  | String a s' =>
      match Ascii.is_nat a with
      | Some d => leading_digits s' (Some (10 * default 0 acc + Z.of_nat d))
      | None => acc
      end
  | EmptyString => acc
  end.

Definition remote : Remote :=
  {| W := World;
     tg := demo_tg;
     connected := fun _ _ => true;
     session_save := fun w c => if decide (c ∈ signed_in w) then "1BQANOTEuMTA4" else EmptyString;
     parseInt := fun o => leading_digits (Js.interp o) None |}.

Definition world0 : World := {| next_client := 0; signed_in := [] |}.

Definition connect_no_code : ConnectBody :=
  {| cb_apiId := Some "12345"; cb_apiHash := Some "abcdef";
     cb_phoneNumber := Some "+15550100"; cb_code := None; cb_password := None |}.

Definition connect_with_code : ConnectBody :=
  {| cb_apiId := Some "12345"; cb_apiHash := Some "abcdef";
     cb_phoneNumber := Some "+15550100"; cb_code := Some "12345"; cb_password := None |}.

Definition comment_body : CommentBody :=
  {| mb_channelLinks := ["https://t.me/foo"; "@bar"]; mb_commentText := "hello";
     mb_interval := 60; mb_apiId := Some "12345"; mb_phoneNumber := Some "+15550100" |}.

Definition subscribe_body : SubscribeBody :=
  {| ub_channelLinks := Some ["https://t.me/foo"; "@bar"];
     ub_apiId := Some "12345"; ub_phoneNumber := Some "+15550100" |}.

Definition search_body (keywords : list string) (lo hi : Z) : SearchBody :=
  {| sb_keywords := Some keywords; sb_minSubscribers := lo; sb_maxSubscribers := hi;
     sb_apiId := Some "12345"; sb_phoneNumber := Some "+15550100" |}.

(** The process after the first [POST /api/connect], without a code. *)
Definition registered : @State remote :=
  fst (@api_connect remote connect_no_code (@init remote world0)).

End Demo.

(** * Properties *)

Example normalize_link : normalize "https://t.me/foo" = "foo".
Proof. reflexivity. Qed.

Example normalize_at : normalize "@bar" = "bar".
Proof. reflexivity. Qed.

Example normalize_inner_at : normalize "foo@bar" = "foobar".
Proof. reflexivity. Qed.

Example registered_session :
  sessions Demo.registered !! "+15550100_12345" = Some 0%nat.
Proof. vm_compute. reflexivity. Qed.

Section Discovery.

Context {R : Remote}.

Implicit Types (s : State) (client : ClientRef).

(** *** Loops in the monad *)

(** A [for ... of] whose body never throws and keeps [P] never throws
    and keeps [P]. *)
Lemma for_of_invariant {A B} (f : B -> A -> M B) (P : B -> Prop) :
  (forall b x s, P b -> exists s' b', f b x s = (s', inr b') /\ P b') ->
  forall l b s, P b -> exists s' b', for_of f l b s = (s', inr b') /\ P b'.
Proof.
  intros Hf l. induction l as [|x l IH]; intros b s Hb; simpl.
  - exists s, b. split; [reflexivity | assumption].
  - unfold bind. destruct (Hf b x s Hb) as (s1 & b1 & -> & Hb1).
    apply IH, Hb1.
Qed.

Lemma meetsCriteria_spec (count lo hi : Z) :
  meetsCriteria count lo hi = true <-> lo <= count <= hi.
Proof. unfold meetsCriteria. rewrite andb_true_iff, !Z.leb_le. tauto. Qed.

(** *** The discovery accumulators *)

(** [c] was built from a metadata answer that passed the filter. *)
Definition accepted (lo hi : Z) (c : ChannelInfo) : Prop :=
  exists client chat fullChat keyword w w',
    tg _ (GetFullChannel client chat) w = (w', inr fullChat)
    /\ c = channelInfo chat fullChat (Js.or_zero (participantsCount fullChat)) keyword
    /\ lo <= Js.or_zero (participantsCount fullChat) <= hi
    /\ hasDiscussion fullChat = true.

Definition search_inv (lo hi : Z) (acc : SearchAcc) : Prop :=
  NoDup (map ci_id (fst acc))
  /\ (forall c, c ∈ fst acc -> ci_id c ∈ snd acc)
  /\ (forall c, c ∈ fst acc -> accepted lo hi c).

Lemma search_inv_empty lo hi : search_inv lo hi ([], ∅).
Proof.
  repeat split; simpl.
  - constructor.
  - intros c Hc. inversion Hc.
  - intros c Hc. inversion Hc.
Qed.

Lemma search_inv_push lo hi allChannels (seenIds : gset string) client chat fullChat keyword w w' :
  search_inv lo hi (allChannels, seenIds) ->
  is_candidate seenIds chat = true ->
  tg _ (GetFullChannel client chat) w = (w', inr fullChat) ->
  meetsCriteria (Js.or_zero (participantsCount fullChat)) lo hi = true ->
  hasDiscussion fullChat = true ->
  search_inv lo hi
    (allChannels ++ [channelInfo chat fullChat (Js.or_zero (participantsCount fullChat)) keyword],
     {[ Js.toString (chat_id chat) ]} ∪ seenIds).
Proof.
  intros (Hnd & Hseen & Hacc) Hcand Htg Hcrit Hdisc. simpl in *.
  assert (Hfresh : Js.toString (chat_id chat) ∉ seenIds).
  { unfold is_candidate in Hcand. rewrite !andb_true_iff in Hcand.
    destruct Hcand as [_ Hn]. apply negb_true_iff, bool_decide_eq_false in Hn. exact Hn. }
  repeat split; simpl.
  - rewrite map_app. simpl. apply NoDup_app. split; [exact Hnd|]. split.
    + intros i Hi Hi'. apply list_elem_of_singleton in Hi'. subst i.
      apply list_elem_of_fmap in Hi as (c & Hc & Hin).
      apply Hfresh. rewrite Hc. apply Hseen, Hin.
    + apply NoDup_singleton.
  - intros c Hc. apply elem_of_app in Hc as [Hc|Hc].
    + apply elem_of_union_r, Hseen, Hc.
    + apply list_elem_of_singleton in Hc. subst c. simpl. apply elem_of_union_l, elem_of_singleton. reflexivity.
  - intros c Hc. apply elem_of_app in Hc as [Hc|Hc].
    + apply Hacc, Hc.
    + apply list_elem_of_singleton in Hc. subst c.
      exists client, chat, fullChat, keyword, w, w'.
      repeat split; try assumption; apply meetsCriteria_spec in Hcrit; lia.
Qed.

Lemma process_chat_inv lo hi client keyword acc chat s :
  search_inv lo hi acc ->
  exists s' acc', process_chat client lo hi keyword acc chat s = (s', inr acc')
                  /\ search_inv lo hi acc'.
Proof.
  intros Hinv. destruct acc as [allChannels seenIds]. unfold process_chat.
  destruct (is_candidate seenIds chat) eqn:Hcand; [|by eexists _, _].
  unfold bind, try_catch, invoke, sleep, modify, ret.
  destruct (tg ChatFull (GetFullChannel client chat) (world s)) as [w' [e|fullChat]] eqn:Htg.
  { by eexists _, _. }
  destruct (meetsCriteria _ lo hi) eqn:Hcrit; [|by eexists _, _].
  destruct (hasDiscussion fullChat) eqn:Hdisc; [|by eexists _, _].
  eexists _, _. split; [reflexivity|].
  eapply search_inv_push; eauto.
Qed.

Lemma search_keyword_inv lo hi client acc keyword s :
  search_inv lo hi acc ->
  exists s' acc', search_keyword client lo hi acc keyword s = (s', inr acc')
                  /\ search_inv lo hi acc'.
Proof.
  intros Hinv. unfold search_keyword, try_catch, bind at 1, invoke.
  destruct (tg (list Chat) (ContactsSearch client keyword 50) (world s)) as [w' [e|chats]].
  { by eexists _, _. }
  unfold bind at 1.
  edestruct (for_of_invariant (process_chat client lo hi keyword) (search_inv lo hi))
    as (s1 & acc1 & -> & Hinv1); [|exact Hinv|].
  { intros b x s0 Hb. by apply process_chat_inv. }
  by eexists _, _.
Qed.

(** The three ways [POST /api/search-channels] ends. *)
Lemma api_search_channels_cases (b : SearchBody) s :
  exists s' res, api_search_channels b s = (s', inr res) /\
    ((res = status_json 400 (BError "Keywords are required" None)
      /\ (sb_keywords b = None \/ sb_keywords b = Some []))
     \/ (res = status_json 401 (BError "Not connected to Telegram. Please connect first." None)
         /\ (exists k ks, sb_keywords b = Some (k :: ks))
         /\ ~ (exists client, sessions s !! sessionKey (sb_phoneNumber b) (sb_apiId b) = Some client
                              /\ connected (world s) client = true))
     \/ (exists allChannels seenIds k ks client,
           res = json (BChannels allChannels (length allChannels))
           /\ sb_keywords b = Some (k :: ks)
           /\ sessions s !! sessionKey (sb_phoneNumber b) (sb_apiId b) = Some client
           /\ connected (world s) client = true
           /\ search_inv (sb_minSubscribers b) (sb_maxSubscribers b) (allChannels, seenIds))).
Proof.
  unfold api_search_channels, try_catch.
  destruct (sb_keywords b) as [[|k ks]|] eqn:Hk.
  - eexists _, _. split; [reflexivity|]. left. auto.
  - unfold bind at 1, sessions_get, gets.
    destruct (sessions s !! _) as [client|] eqn:Hs.
    + unfold bind at 1, client_connected, gets.
      destruct (connected (world s) client) eqn:Hc.
      * unfold bind.
        edestruct (for_of_invariant
                     (search_keyword client (sb_minSubscribers b) (sb_maxSubscribers b))
                     (search_inv (sb_minSubscribers b) (sb_maxSubscribers b)))
          as (s1 & [all seen] & Hrun & Hinv1);
          [| apply search_inv_empty |].
        { intros a x s0 Ha. by apply search_keyword_inv. }
        simpl in Hrun. unfold bind in Hrun. rewrite Hrun.
        eexists _, _. split; [reflexivity|]. right. right.
        exists all, seen, k, ks, client. auto.
      * eexists _, _. split; [reflexivity|]. right. left.
        split; [reflexivity|]. split; [eauto|].
        intros (c & Hc1 & Hc2). congruence.
    + unfold bind at 1, ret. eexists _, _. split; [reflexivity|]. right. left.
      split; [reflexivity|]. split; [eauto|].
      intros (c & Hc1 & Hc2). congruence.
  - eexists _, _. split; [reflexivity|]. left. auto.
Qed.

(** The decision taken for one candidate whose metadata arrives: it is
    appended exactly when the count lies within the inclusive bounds and
    comments are enabled; otherwise the accumulators are untouched. *)
Lemma process_chat_decision lo hi client keyword allChannels (seenIds : gset string)
    chat s w' fullChat :
  is_candidate seenIds chat = true ->
  tg _ (GetFullChannel client chat) (world s) = (w', inr fullChat) ->
  let count := Js.or_zero (participantsCount fullChat) in
  exists s' acc',
    process_chat client lo hi keyword (allChannels, seenIds) chat s = (s', inr acc')
    /\ (lo <= count <= hi /\ hasDiscussion fullChat = true ->
        acc' = (allChannels ++ [channelInfo chat fullChat count keyword],
                {[ Js.toString (chat_id chat) ]} ∪ seenIds))
    /\ (~ (lo <= count <= hi /\ hasDiscussion fullChat = true) ->
        acc' = (allChannels, seenIds)).
Proof.
  intros Hcand Htg count. unfold process_chat. rewrite Hcand.
  unfold bind, try_catch, invoke, sleep, modify, ret. rewrite Htg.
  fold count. destruct (meetsCriteria count lo hi) eqn:Hcrit.
  - apply meetsCriteria_spec in Hcrit.
    destruct (hasDiscussion fullChat) eqn:Hdisc; eexists _, _;
      (split; [reflexivity|]); split; intros H; try reflexivity.
    + exfalso. apply H. auto.
    + destruct H as [_ H]. discriminate.
  - eexists _, _. split; [reflexivity|]. split; intros H; [|reflexivity].
    destruct H as [H _]. apply meetsCriteria_spec in H. congruence.
Qed.


(** C5. Discovery deduplication: the channels list returned by one
    POST /api/search-channels call contains no two entries with the same
    channel id, whatever the keywords and whatever the searches return. *)
Theorem search_no_duplicate_ids (b : SearchBody) s s' channels total :
  api_search_channels b s = (s', inr (json (BChannels channels total))) ->
  NoDup (map ci_id channels).
Proof.
  intros Hrun.
  destruct (api_search_channels_cases b s) as (s1 & res & Hrun' & Hcases).
  rewrite Hrun in Hrun'. injection Hrun' as <- <-.
  destruct Hcases as [[Hres _]|[[Hres _]|Hok]]; try discriminate.
  destruct Hok as (all & seen & k & ks & client & Hres & _ & _ & _ & Hinv).
  injection Hres as -> _. apply Hinv.
Qed.

(** C8. Inverted bounds: with min > max, a connected session and a
    non-empty keyword list, POST /api/search-channels answers 200 with an
    empty channels list and total = 0. *)
Theorem search_inverted_bounds (b : SearchBody) s client k ks :
  sb_minSubscribers b > sb_maxSubscribers b ->
  sb_keywords b = Some (k :: ks) ->
  sessions s !! sessionKey (sb_phoneNumber b) (sb_apiId b) = Some client ->
  connected (world s) client = true ->
  exists s', api_search_channels b s = (s', inr (json (BChannels [] 0))).
Proof.
  intros Hinv Hk Hs Hc.
  destruct (api_search_channels_cases b s) as (s1 & res & Hrun & Hcases).
  exists s1. rewrite Hrun. do 2 f_equal.
  destruct Hcases as [[_ [Hn|Hn]]|[(_ & _ & Hn)|Hok]]; try congruence.
  { exfalso. apply Hn. eauto. }
  destruct Hok as (all & seen & _ & _ & _ & -> & _ & _ & _ & _ & _ & Hacc).
  destruct all as [|c all]; [reflexivity|]. exfalso.
  destruct (Hacc c) as (? & ? & ? & ? & ? & ? & _ & _ & Hb & _);
    [simpl; left|lia].
Qed.

(** A candidate whose metadata fetch throws is skipped: after the pacing
    timer the chat loop goes on with the remaining chats and unchanged
    accumulators. *)
Lemma process_chats_skip_failure lo hi client keyword allChannels (seenIds : gset string)
    chat chats s w' err :
  is_candidate seenIds chat = true ->
  tg _ (GetFullChannel client chat) (world s) = (w', inl err) ->
  for_of (process_chat client lo hi keyword) (chat :: chats) (allChannels, seenIds) s
  = for_of (process_chat client lo hi keyword) chats (allChannels, seenIds)
      (log_event (ESleep 100)
         (log_event (ECall (GetFullChannel client chat)) (set_world w' s))).
Proof.
  intros Hcand Htg. simpl. unfold bind at 1. unfold process_chat. rewrite Hcand.
  unfold bind, try_catch, invoke, sleep, modify, ret. rewrite Htg. reflexivity.
Qed.

(** A keyword whose search throws is skipped: the keyword loop goes on
    with the remaining keywords and unchanged accumulators. *)
Lemma search_keywords_skip_failure lo hi client acc keyword keywords s w' err :
  tg _ (ContactsSearch client keyword 50) (world s) = (w', inl err) ->
  for_of (search_keyword client lo hi) (keyword :: keywords) acc s
  = for_of (search_keyword client lo hi) keywords acc
      (log_event (ECall (ContactsSearch client keyword 50)) (set_world w' s)).
Proof.
  intros Htg. simpl. unfold bind at 1. unfold search_keyword.
  unfold bind, try_catch, invoke. rewrite Htg. reflexivity.
Qed.

(** Requests whose [keywords] field is missing or an array. The handler
    always answers, and with 400 exactly when the keyword list is missing
    or empty, with 401 exactly when it is not and the session handle is
    missing or not connected, and with 200 and a channels list otherwise;
    in the two loops a throwing metadata fetch or a throwing keyword search
    is skipped. *)
Theorem search_partial_failure_tolerant (b : SearchBody) s :
  (exists s' res, api_search_channels b s = (s', inr res) /\
     ((status res = 400 /\ success res = false
       /\ (sb_keywords b = None \/ sb_keywords b = Some []))
      \/ (status res = 401 /\ success res = false
          /\ (exists k ks, sb_keywords b = Some (k :: ks))
          /\ ~ (exists client,
                  sessions s !! sessionKey (sb_phoneNumber b) (sb_apiId b) = Some client
                  /\ connected (world s) client = true))
      \/ (status res = 200 /\ success res = true
          /\ (exists k ks, sb_keywords b = Some (k :: ks))
          /\ (exists client,
                sessions s !! sessionKey (sb_phoneNumber b) (sb_apiId b) = Some client
                /\ connected (world s) client = true))))
  /\ (forall client keyword allChannels (seenIds : gset string) chat chats s0 w' err,
        is_candidate seenIds chat = true ->
        tg _ (GetFullChannel client chat) (world s0) = (w', inl err) ->
        for_of (process_chat client (sb_minSubscribers b) (sb_maxSubscribers b) keyword)
          (chat :: chats) (allChannels, seenIds) s0
        = for_of (process_chat client (sb_minSubscribers b) (sb_maxSubscribers b) keyword)
            chats (allChannels, seenIds)
            (log_event (ESleep 100)
               (log_event (ECall (GetFullChannel client chat)) (set_world w' s0))))
  /\ (forall client acc keyword keywords s0 w' err,
        tg _ (ContactsSearch client keyword 50) (world s0) = (w', inl err) ->
        for_of (search_keyword client (sb_minSubscribers b) (sb_maxSubscribers b))
          (keyword :: keywords) acc s0
        = for_of (search_keyword client (sb_minSubscribers b) (sb_maxSubscribers b))
            keywords acc
            (log_event (ECall (ContactsSearch client keyword 50)) (set_world w' s0))).
Proof.
  split; [|split].
  - destruct (api_search_channels_cases b s) as (s1 & res & Hrun & Hcases).
    exists s1, res. split; [exact Hrun|].
    destruct Hcases as [[-> Hk]|[(-> & Hk & Hn)|Hok]].
    + left. auto.
    + right. left. auto.
    + right. right.
      destruct Hok as (all & seen & k & ks & client & -> & Hk & Hs & Hc & _).
      repeat split; eauto.
  - intros. by eapply process_chats_skip_failure.
  - intros. by eapply search_keywords_skip_failure.
Qed.

End Discovery.

(** Discovery on the scripted platform: two keywords whose searches
    overlap, one private channel, one channel above the upper bound and one
    with comments closed. *)

Definition demo_search (keywords : list string) (lo hi : Z) :
    @State Demo.remote * (Exn + Response) :=
  @api_search_channels Demo.remote (Demo.search_body keywords lo hi) Demo.registered.

Definition demo_channels (keywords : list string) (lo hi : Z) : list ChannelInfo :=
  match snd (demo_search keywords lo hi) with
  | inr {| body := BChannels channels _ |} => channels
  | _ => []
  end.

Example demo_search_ids :
  map ci_id (demo_channels ["news"; "tech"] 1000 5000) = ["1"; "2"].
Proof. vm_compute. reflexivity. Qed.

Example demo_search_subscribers :
  map ci_subscribers (demo_channels ["news"; "tech"] 1000 5000) = [2500; 1000].
Proof. vm_compute. reflexivity. Qed.

Example demo_search_scenario :
  map ci_subscribers (demo_channels ["news"] 2500 2500) = [2500].
Proof. vm_compute. reflexivity. Qed.


Lemma search_no_duplicate_ids_witness :
  NoDup (map ci_id (demo_channels ["news"; "tech"] 1000 5000)).
Proof.
  apply (@search_no_duplicate_ids Demo.remote
           (Demo.search_body ["news"; "tech"] 1000 5000) Demo.registered
           (fst (demo_search ["news"; "tech"] 1000 5000))
           (demo_channels ["news"; "tech"] 1000 5000) 2%nat).
  vm_compute. reflexivity.
Defined.

Lemma search_inverted_bounds_witness :
  exists s', demo_search ["news"; "tech"] 5000 1000 = (s', inr (json (BChannels [] 0))).
Proof.
  apply (@search_inverted_bounds Demo.remote
           (Demo.search_body ["news"; "tech"] 5000 1000) Demo.registered 0%nat
           "news" ["tech"]).
  - simpl. lia.
  - reflexivity.
  - vm_compute. reflexivity.
  - reflexivity.
Defined.

Section Subscription.

Context {R : Remote}.

Implicit Types (s : State) (client : ClientRef).

(** What one entry of [results] looks like, given the link it is for: the
    object literal of the [try] block or the one of the [catch] block. *)
Definition entry_for (link : string) (r : SubscriptionResult) : Prop :=
  r = joined_result link (normalize link) \/ exists err, r = failed_result link err.

Lemma joined_failed_length (results : list SubscriptionResult) :
  (joined results + failed results = length results)%nat.
Proof.
  unfold joined, failed. induction results as [|r rs IH]; [reflexivity|].
  rewrite !filter_cons.
  destruct (sr_success r); simpl; repeat case_decide; try congruence; simpl; lia.
Qed.

Lemma failed_failures (results : list SubscriptionResult) :
  failed results = failures (map sr_success results).
Proof.
  unfold failed, failures. induction results as [|r rs IH]; [reflexivity|].
  simpl map. rewrite !filter_cons. destruct (sr_success r); simpl;
    repeat case_decide; try congruence; simpl; congruence.
Qed.

(** One iteration appends exactly one entry, whose flag is the outcome of
    the attempt. *)
Lemma join_link_spec client results link s :
  exists s' r,
    join_link client results link s = (s', inr (results ++ [r]))
    /\ world s' = fst (join_attempt client link (world s))
    /\ sr_channel r = link
    /\ sr_success r = snd (join_attempt client link (world s))
    /\ entry_for link r.
Proof.
  unfold join_link, join_attempt, try_catch, bind, invoke, sleep, modify, ret.
  destruct (tg Entity (GetEntity client (normalize link)) (world s)) as [w1 [e|channel]].
  { eexists _, _. split; [reflexivity|]. repeat split. right. eauto. }
  simpl. destruct (tg unit (JoinChannel client channel) w1) as [w2 [e|[]]].
  { eexists _, _. split; [reflexivity|]. repeat split. right. eauto. }
  eexists _, _. split; [reflexivity|]. repeat split. by left.
Qed.

Lemma join_links_spec client links : forall results s,
  exists s' rs,
    for_of (join_link client) links results s = (s', inr (results ++ rs))
    /\ map sr_channel rs = links
    /\ map sr_success rs = join_attempts client links (world s)
    /\ Forall2 entry_for links rs.
Proof.
  induction links as [|link links IH]; intros results s.
  - exists s, []. simpl. rewrite app_nil_r. repeat split. constructor.
  - simpl. unfold bind.
    destruct (join_link_spec client results link s) as (s1 & r & -> & Hw & Hc & Hok & Hshape).
    destruct (IH (results ++ [r]) s1) as (s2 & rs & -> & Hcs & Hoks & Hshapes).
    exists s2, (r :: rs). rewrite <- app_assoc. split; [reflexivity|].
    destruct (join_attempt client link (world s)) as [w' ok]. simpl in *. subst.
    repeat split; try congruence. by constructor.
Qed.

(** The three ways [POST /api/subscribe] ends. *)
Lemma api_subscribe_cases (b : SubscribeBody) s :
  exists s' res, api_subscribe b s = (s', inr res) /\
    ((res = status_json 401 (BError "Not connected to Telegram" None)
      /\ ~ (exists client, sessions s !! sessionKey (ub_phoneNumber b) (ub_apiId b) = Some client
                           /\ connected (world s) client = true))
     \/ (res = status_json 500 (BError "channelLinks is not iterable" None)
         /\ ub_channelLinks b = None)
     \/ (exists client links results,
           res = json (BSubscribed results (joined results) (failed results))
           /\ sessions s !! sessionKey (ub_phoneNumber b) (ub_apiId b) = Some client
           /\ connected (world s) client = true
           /\ ub_channelLinks b = Some links
           /\ map sr_channel results = links
           /\ map sr_success results = join_attempts client links (world s)
           /\ Forall2 entry_for links results)).
Proof.
  unfold api_subscribe, try_catch.
  unfold bind at 1, sessions_get, gets.
  destruct (sessions s !! _) as [client|] eqn:Hs.
  - unfold bind at 1, client_connected, gets.
    destruct (connected (world s) client) eqn:Hc.
    + destruct (ub_channelLinks b) as [links|] eqn:Hl.
      * unfold bind.
        destruct (join_links_spec client links [] s) as (s1 & rs & -> & Hcs & Hoks & Hsh).
        eexists _, _. split; [reflexivity|]. right. right.
        exists client, links, rs. simpl. auto 10.
      * eexists _, _. split; [reflexivity|]. right. left. auto.
    + eexists _, _. split; [reflexivity|]. left. split; [reflexivity|].
      intros (c & Hc1 & Hc2). congruence.
  - eexists _, _. split; [reflexivity|]. left. split; [reflexivity|].
    intros (c & Hc1 & Hc2). congruence.
Qed.

(** C3. Subscription aggregate: for a connected session and a list of N
    links of which K join attempts fail (K counted on the protocol's
    answers, wherever the failures fall), POST /api/subscribe answers with
    a results list of length N whose links are the input links in order and
    whose flags are the outcomes in order, with joined = N - K and
    failed = K. *)
Theorem subscribe_aggregate (b : SubscribeBody) s client links :
  sessions s !! sessionKey (ub_phoneNumber b) (ub_apiId b) = Some client ->
  connected (world s) client = true ->
  ub_channelLinks b = Some links ->
  let N := length links in
  let K := failures (join_attempts client links (world s)) in
  exists s' results,
    api_subscribe b s = (s', inr (json (BSubscribed results (N - K) K)))
    /\ length results = N
    /\ map sr_channel results = links
    /\ map sr_success results = join_attempts client links (world s)
    /\ (K <= N)%nat.
Proof.
  intros Hs Hc Hl N K.
  destruct (api_subscribe_cases b s) as (s1 & res & Hrun & Hcases).
  destruct Hcases as [[_ Hn]|[[_ Hn]|Hok]]; [exfalso; apply Hn; eauto|congruence|].
  destruct Hok as (client' & links' & results & -> & Hs' & _ & Hl' & Hcs & Hoks & _).
  assert (client' = client) by congruence. assert (links' = links) by congruence. subst.
  assert (Hlen : length results = N).
  { unfold N. rewrite <- (length_map sr_channel results). congruence. }
  assert (HK : failed results = K).
  { unfold K. rewrite failed_failures. congruence. }
  pose proof (joined_failed_length results) as Hsum.
  exists s1, results. rewrite Hrun.
  replace (N - K)%nat with (joined results) by lia. rewrite HK.
  repeat split; try assumption. lia.
Qed.

(** C9, as the code has it. Every entry of the results list of
    POST /api/subscribe carries the original link and a success flag. A
    successful entry also carries the normalized username and the message
    [Successfully joined], and no error; a failed entry carries the error
    message only: it has neither a username nor a message. *)
Theorem subscribe_result_shape (b : SubscribeBody) s s' results j f :
  api_subscribe b s = (s', inr (json (BSubscribed results j f))) ->
  exists links,
    ub_channelLinks b = Some links
    /\ map sr_channel results = links
    /\ forall r, r ∈ results ->
         (sr_success r = true
          /\ sr_username r = Some (normalize (sr_channel r))
          /\ sr_message r = Some "Successfully joined"
          /\ sr_error r = None)
         \/ (sr_success r = false
             /\ sr_username r = None
             /\ sr_message r = None
             /\ is_Some (sr_error r)).
Proof.
  intros Hrun.
  destruct (api_subscribe_cases b s) as (s1 & res & Hrun' & Hcases).
  rewrite Hrun in Hrun'. injection Hrun' as <- <-.
  destruct Hcases as [[Hres _]|[[Hres _]|Hok]]; try discriminate.
  destruct Hok as (client & links & results' & Hres & _ & _ & Hl & Hcs & _ & Hsh).
  injection Hres as -> _ _. exists links. split; [exact Hl|]. split; [exact Hcs|].
  intros r Hr. clear Hcs Hl Hrun.
  induction Hsh as [|link r' links' rs Hent _ IH].
  - inversion Hr.
  - apply elem_of_cons in Hr as [->|Hr]; [|by apply IH].
    destruct Hent as [->|[err ->]]; simpl; [left|right]; eauto 10.
Qed.

End Subscription.

Definition demo_subscribe : @State Demo.remote * (Exn + Response) :=
  @api_subscribe Demo.remote Demo.subscribe_body Demo.registered.

Definition demo_results : list SubscriptionResult :=
  match snd demo_subscribe with
  | inr {| body := BSubscribed results _ _ |} => results
  | _ => []
  end.

Example demo_subscribe_scenario :
  snd demo_subscribe
  = inr (json (BSubscribed
                 [joined_result "https://t.me/foo" "foo";
                  failed_result "@bar" "Cannot find any entity corresponding to bar"]
                 1 1)).
Proof. vm_compute. reflexivity. Qed.

Lemma subscribe_aggregate_witness :
  exists s' results,
    demo_subscribe = (s', inr (json (BSubscribed results (2 - 1) 1)))
    /\ length results = 2%nat
    /\ map sr_channel results = ["https://t.me/foo"; "@bar"]
    /\ map sr_success results = [true; false]
    /\ (1 <= 2)%nat.
Proof.
  apply (@subscribe_aggregate Demo.remote Demo.subscribe_body Demo.registered 0%nat
           ["https://t.me/foo"; "@bar"]).
  - vm_compute. reflexivity.
  - reflexivity.
  - reflexivity.
Defined.

Lemma subscribe_result_shape_witness :
  exists links,
    Some ["https://t.me/foo"; "@bar"] = Some links
    /\ map sr_channel demo_results = links
    /\ forall r, r ∈ demo_results ->
         (sr_success r = true
          /\ sr_username r = Some (normalize (sr_channel r))
          /\ sr_message r = Some "Successfully joined"
          /\ sr_error r = None)
         \/ (sr_success r = false
             /\ sr_username r = None
             /\ sr_message r = None
             /\ is_Some (sr_error r)).
Proof.
  apply (@subscribe_result_shape Demo.remote Demo.subscribe_body Demo.registered
           (fst demo_subscribe) demo_results 1%nat 1%nat).
  vm_compute. reflexivity.
Defined.

(** C9 as stated fails: the entry of the failed join of [@bar] has no
    resolved username. *)
Lemma subscribe_failed_entry_has_no_username :
  ~ (forall (R : Remote) (b : SubscribeBody) (s s' : State) results j f,
       api_subscribe b s = (s', inr (json (BSubscribed results j f))) ->
       forall r, r ∈ results ->
         is_Some (sr_username r)
         /\ (is_Some (sr_message r) \/ is_Some (sr_error r))).
Proof.
  intros H.
  destruct (H Demo.remote Demo.subscribe_body Demo.registered (fst demo_subscribe)
              demo_results 1%nat 1%nat)
    with (r := failed_result "@bar" "Cannot find any entity corresponding to bar")
    as [[u Hu] _].
  - vm_compute. reflexivity.
  - vm_compute. right. left.
  - discriminate Hu.
Qed.

Section Authentication.

Context {R : Remote}.

Implicit Types (s : State) (client : ClientRef).

Definition sign_ins (events : list event) : nat :=
  length (filter (fun e => is_signIn e = true) events).

(** A [needsCode] answer comes from the branch that registers the client
    under the session key. *)
Lemma api_connect_needsCode (b : ConnectBody) s s1 r1 msg :
  api_connect b s = (s1, inr r1) ->
  body r1 = BNeedsCode msg ->
  Js.truthy (cb_apiId b) = true
  /\ Js.truthy (cb_phoneNumber b) = true
  /\ exists client, sessions s1 !! sessionKey (cb_phoneNumber b) (cb_apiId b) = Some client.
Proof.
  unfold api_connect, try_catch.
  destruct (Js.truthy (cb_apiId b)); simpl; [|intros [= <- <-]; discriminate].
  destruct (Js.truthy (cb_apiHash b)); simpl; [|intros [= <- <-]; discriminate].
  destruct (Js.truthy (cb_phoneNumber b)); simpl; [|intros [= <- <-]; discriminate].
  unfold bind at 1, sessions_get, gets.
  destruct (sessions s !! _) as [client|] eqn:Hs.
  - unfold bind, client_connected, client_session_save, gets, invoke, ret.
    destruct (negb (connected (world s) client)); simpl.
    + destruct (tg unit (Connect client) (world s)) as [w' [e|[]]];
        intros [= <- <-]; discriminate.
    + intros [= <- <-]; discriminate.
  - unfold bind at 1, invoke.
    destruct (tg ClientRef (NewTelegramClient _ _) (world s)) as [w1 [e|client]];
      [intros [= <- <-]; discriminate|].
    unfold bind at 1. simpl.
    destruct (tg unit (Connect client) w1) as [w2 [e|[]]];
      [intros [= <- <-]; discriminate|].
    unfold bind at 1, client_connected, gets. simpl.
    destruct (negb (connected w2 client)); [intros [= <- <-]; discriminate|].
    destruct (negb (Js.truthy (cb_code b))).
    + unfold bind, invoke, sessions_set, modify, ret. simpl.
      destruct (tg unit (SendCode _ _ _ _) w2) as [w3 [e|[]]];
        [intros [= <- <-]; discriminate|].
      intros [= <- <-] _. simpl. split; [reflexivity|]. split; [reflexivity|].
      exists client. apply lookup_insert_eq.
    + unfold bind, try_catch, invoke, client_session_save, sessions_set, gets, modify, ret, throw.
      simpl. destruct (tg unit (SignInUser _ _ _ _ _ _) w2) as [w3 [e|[]]].
      * destruct (Js.includes e "PHONE_CODE_INVALID"); [intros [= <- <-]; discriminate|].
        destruct (Js.includes e "SESSION_PASSWORD_NEEDED"); intros [= <- <-]; discriminate.
      * intros [= <- <-]; discriminate.
Qed.

(** A request for a key that is already registered never reaches the
    sign-in: it reconnects if needed and answers [Already connected]. *)
Lemma api_connect_existing (b : ConnectBody) s client :
  Js.truthy (cb_apiId b) = true ->
  Js.truthy (cb_apiHash b) = true ->
  Js.truthy (cb_phoneNumber b) = true ->
  sessions s !! sessionKey (cb_phoneNumber b) (cb_apiId b) = Some client ->
  exists s' res,
    api_connect b s = (s', inr res)
    /\ sessions s' = sessions s
    /\ (trace s' = trace s \/ trace s' = trace s ++ [ECall (Connect client)])
    /\ (res = json (BSession "Already connected" (session_save (world s') client))
        \/ status res = 500).
Proof.
  intros Hid Hhash Hphone Hs. unfold api_connect, try_catch.
  rewrite Hid, Hhash, Hphone. simpl.
  unfold bind at 1, sessions_get, gets. rewrite Hs.
  unfold bind, client_connected, client_session_save, gets, invoke, ret.
  destruct (negb (connected (world s) client)); simpl.
  - destruct (tg unit (Connect client) (world s)) as [w' [e|[]]]; simpl;
      eexists _, _; (split; [reflexivity|]); simpl; auto.
  - eexists _, _. split; [reflexivity|]. auto.
Qed.

Lemma sign_ins_app (l1 l2 : list event) : sign_ins (l1 ++ l2) = (sign_ins l1 + sign_ins l2)%nat.
Proof. unfold sign_ins. by rewrite filter_app, length_app. Qed.

(** C1, where the code departs from it. After a first POST /api/connect
    without a code has registered the handle and answered [needsCode], a
    follow-up POST /api/connect for the same (phoneNumber, apiId) that
    carries the code finds the registered handle and takes the
    [Client already exists] branch: it performs at most a reconnect, submits
    nothing to the sign-in of the protocol, and answers [Already connected]
    with whatever the unauthenticated session serializes to (or 500 if the
    reconnect throws). *)
Theorem connect_followup_never_signs_in (b1 b2 : ConnectBody) s s1 r1 msg :
  api_connect b1 s = (s1, inr r1) ->
  body r1 = BNeedsCode msg ->
  cb_phoneNumber b2 = cb_phoneNumber b1 ->
  cb_apiId b2 = cb_apiId b1 ->
  Js.truthy (cb_apiHash b2) = true ->
  Js.truthy (cb_code b2) = true ->
  exists s2 r2 client,
    api_connect b2 s1 = (s2, inr r2)
    /\ sessions s1 !! sessionKey (cb_phoneNumber b1) (cb_apiId b1) = Some client
    /\ (trace s2 = trace s1 \/ trace s2 = trace s1 ++ [ECall (Connect client)])
    /\ sign_ins (trace s2) = sign_ins (trace s1)
    /\ (r2 = json (BSession "Already connected" (session_save (world s2) client))
        \/ status r2 = 500).
Proof.
  intros Hrun Hneeds Hphone Hid Hhash Hcode.
  destruct (api_connect_needsCode b1 s s1 r1 msg Hrun Hneeds) as (Hid1 & Hphone1 & client & Hs).
  destruct (api_connect_existing b2 s1 client) as (s2 & r2 & Hrun2 & _ & Htr & Hres);
    try congruence.
  exists s2, r2, client. repeat split; try assumption.
  destruct Htr as [->| ->]; [reflexivity|].
  rewrite sign_ins_app.
  assert (Hc : sign_ins [ECall (Connect client)] = 0%nat).
  { reflexivity. }
  rewrite Hc. lia.
Qed.

End Authentication.

(** The handshake on the scripted platform, whose sign-in accepts the code
    [12345] and whose sessions serialize to the empty string until they are
    signed in. *)

Definition demo_followup : @State Demo.remote * (Exn + Response) :=
  @api_connect Demo.remote Demo.connect_with_code Demo.registered.

Example demo_first_connect :
  snd (@api_connect Demo.remote Demo.connect_no_code (@init Demo.remote Demo.world0))
  = inr (json (BNeedsCode "Verification code sent to your Telegram app")).
Proof. vm_compute. reflexivity. Qed.

(** The follow-up with the code: no sign-in, an empty credential. *)
Example demo_followup_response :
  snd demo_followup = inr (json (BSession "Already connected" EmptyString)).
Proof. vm_compute. reflexivity. Qed.

Example demo_followup_trace :
  trace (fst demo_followup)
  = [ECall (NewTelegramClient (Some 12345) "abcdef");
     ECall (Connect 0%nat);
     ECall (SendCode 0%nat (Some 12345) "abcdef" "+15550100")].
Proof. vm_compute. reflexivity. Qed.

(** The sign-in is reached only by a first request that already carries
    the code. *)
Example demo_direct_sign_in :
  snd (@api_connect Demo.remote Demo.connect_with_code (@init Demo.remote Demo.world0))
  = inr (json (BSession "Successfully connected to Telegram" "1BQANOTEuMTA4")).
Proof. vm_compute. reflexivity. Qed.

Lemma connect_followup_never_signs_in_witness :
  exists s2 r2 client,
    demo_followup = (s2, inr r2)
    /\ sessions Demo.registered !! sessionKey (Some "+15550100") (Some "12345") = Some client
    /\ (trace s2 = trace Demo.registered
        \/ trace s2 = trace Demo.registered ++ [ECall (Connect client)])
    /\ sign_ins (trace s2) = sign_ins (trace Demo.registered)
    /\ (r2 = json (BSession "Already connected" (@session_save Demo.remote (world s2) client))
        \/ status r2 = 500).
Proof.
  apply (@connect_followup_never_signs_in Demo.remote Demo.connect_no_code
           Demo.connect_with_code (@init Demo.remote Demo.world0) Demo.registered
           (json (BNeedsCode "Verification code sent to your Telegram app"))
           "Verification code sent to your Telegram app").
  - vm_compute. reflexivity.
  - reflexivity.
  - reflexivity.
  - reflexivity.
  - reflexivity.
  - reflexivity.
Defined.

Section Commenter.

Context {R : Remote}.

Implicit Types (s : State) (client : ClientRef) (l : Loop) (i : nat).

(** *** What the other handlers leave alone *)

(** [m] touches neither the flag nor the loops. *)
Definition keeps {A} (m : M A) : Prop :=
  forall s, loops (fst (m s)) = loops s
            /\ commentingActive (fst (m s)) = commentingActive s.

Lemma keeps_ret {A} (a : A) : keeps (ret a).
Proof. by intros s. Qed.

Lemma keeps_throw {A} (e : Exn) : keeps (@throw R A e).
Proof. by intros s. Qed.

Lemma keeps_gets {A} (f : State -> A) : keeps (gets f).
Proof. by intros s. Qed.

Lemma keeps_invoke {A} (c : call A) : keeps (invoke c).
Proof. intros s. unfold invoke. by destruct (tg A c (world s)). Qed.

Lemma keeps_sleep ms : keeps (sleep ms).
Proof. by intros s. Qed.

Lemma keeps_sessions_get key : keeps (sessions_get key).
Proof. by intros s. Qed.

Lemma keeps_sessions_set key client : keeps (sessions_set key client).
Proof. by intros s. Qed.

Lemma keeps_sessions_delete key : keeps (sessions_delete key).
Proof. by intros s. Qed.

Lemma keeps_client_connected client : keeps (client_connected client).
Proof. by intros s. Qed.

Lemma keeps_client_session_save client : keeps (client_session_save client).
Proof. by intros s. Qed.

Lemma keeps_bind {A B} (m : M A) (k : A -> M B) :
  keeps m -> (forall a, keeps (k a)) -> keeps (bind m k).
Proof.
  intros Hm Hk s. unfold bind. specialize (Hm s).
  destruct (m s) as [s1 [e|a]]; simpl in *; [exact Hm|].
  destruct Hm as [H3 H4]. destruct (Hk a s1) as [H1 H2]. split; congruence.
Qed.

Lemma keeps_try_catch {A} (m : M A) (h : Exn -> M A) :
  keeps m -> (forall e, keeps (h e)) -> keeps (try_catch m h).
Proof.
  intros Hm Hh s. unfold try_catch. specialize (Hm s).
  destruct (m s) as [s1 [e|a]]; simpl in *; [|exact Hm].
  destruct Hm as [H3 H4]. destruct (Hh e s1) as [H1 H2]. split; congruence.
Qed.

Lemma keeps_for_of {A B} (f : B -> A -> M B) (xs : list A) :
  (forall b x, keeps (f b x)) -> forall b, keeps (for_of f xs b).
Proof.
  intros Hf. induction xs as [|x xs IH]; intros b; simpl.
  - apply keeps_ret.
  - apply keeps_bind; [apply Hf | apply IH].
Qed.

Create HintDb keeps.

Hint Resolve keeps_ret keeps_throw keeps_gets keeps_invoke keeps_sleep keeps_sessions_get
  keeps_sessions_set keeps_sessions_delete keeps_client_connected
  keeps_client_session_save : keeps.

(** Structural descent through binds, handlers, loops and branches. *)
Ltac keeps_step :=
  match goal with
  | |- keeps (bind _ _) => apply keeps_bind
  | |- keeps (try_catch _ _) => apply keeps_try_catch
  | |- keeps (for_of _ _ _) => apply keeps_for_of
  | |- keeps (if ?c then _ else _) => destruct c
  | |- keeps (match ?x with _ => _ end) => destruct x
  | |- forall _, _ => intro
  | |- keeps _ => solve [auto with keeps]
  end.

Ltac keeps_auto := repeat keeps_step.

Lemma keeps_api_connect (b : ConnectBody) : keeps (api_connect b).
Proof. unfold api_connect. keeps_auto. Qed.

Lemma keeps_process_chat client lo hi keyword acc chat :
  keeps (process_chat client lo hi keyword acc chat).
Proof. unfold process_chat. keeps_auto. Qed.

Lemma keeps_search_keyword client lo hi acc keyword :
  keeps (search_keyword client lo hi acc keyword).
Proof. unfold search_keyword. keeps_auto. apply keeps_process_chat. Qed.

Lemma keeps_api_search_channels (b : SearchBody) : keeps (api_search_channels b).
Proof. unfold api_search_channels. keeps_auto; apply keeps_search_keyword. Qed.

Lemma keeps_join_link client results link : keeps (join_link client results link).
Proof. unfold join_link. keeps_auto. Qed.

Lemma keeps_api_subscribe (b : SubscribeBody) : keeps (api_subscribe b).
Proof. unfold api_subscribe. keeps_auto; apply keeps_join_link. Qed.

Lemma keeps_api_disconnect (b : DisconnectBody) : keeps (api_disconnect b).
Proof. unfold api_disconnect. keeps_auto. Qed.

Lemma keeps_attempt {A} (m : M A) : keeps m -> keeps (attempt m).
Proof. intros Hm. unfold attempt. keeps_auto. Qed.

Lemma keeps_resume l : keeps (resume l).
Proof.
  unfold resume. destruct (lp_pc l); keeps_auto; try apply keeps_attempt; keeps_auto.
Qed.

(** *** Counting *)

(** The [POST /api/comment] requests among the labels of a run. *)
Definition starts (lbls : list label) : nat :=
  length (filter (fun lbl => is_start lbl = true) lbls).

Definition is_resume (i : nat) (lbl : label) : bool :=
  match lbl with
  | Resume j => bool_decide (i = j)
  | Request _ => false
  end.

(** The resumptions of loop [i] among the labels of a run. *)
Definition resumes (i : nat) (lbls : list label) : nat :=
  length (filter (fun lbl => is_resume i lbl = true) lbls).

Definition sends (events : list event) : nat :=
  length (filter (fun e => is_sendMessage e = true) events).

Definition sleeps (events : list event) : nat :=
  length (filter (fun e => is_sleep e = true) events).

(** The resumptions a loop has left once the flag is cleared: the rest of
    the iteration it is in, up to and including its timer. *)
Definition work_left (p : pc) : nat :=
  match p with
  | AtGetEntity _ _ => 4
  | AtGetMessages _ _ => 3
  | AtSendMessage _ _ _ => 2
  | AtSleep _ => 1
  | Spinning => 0
  | Finished => 0
  end.

(** The resumptions up to the timer of the current iteration. *)
Definition to_sleep (p : pc) : nat :=
  match p with
  | AtGetEntity _ _ => 3
  | AtGetMessages _ _ => 2
  | AtSendMessage _ _ _ => 1
  | _ => 0
  end.

Definition running_count (ls : list Loop) : nat :=
  length (filter (fun l => running l = true) ls).

Lemma running_count_app (ls1 ls2 : list Loop) :
  running_count (ls1 ++ ls2) = (running_count ls1 + running_count ls2)%nat.
Proof. unfold running_count. by rewrite filter_app, length_app. Qed.

Lemma running_count_insert (ls : list Loop) i l l' :
  ls !! i = Some l -> running l = true ->
  (running_count (<[i := l']> ls) <= running_count ls)%nat.
Proof.
  unfold running_count. revert i. induction ls as [|x ls IH]; intros i Hi Hrun; [by destruct i|].
  destruct i as [|i]; simpl in Hi; simpl insert.
  - injection Hi as ->. rewrite !filter_cons. rewrite (decide_True _ _ Hrun).
    case_decide; simpl; lia.
  - specialize (IH i Hi Hrun). rewrite !filter_cons. case_decide; simpl; lia.
Qed.

(** *** Steps *)

(** [POST /api/comment] never looks at the loops already launched: it
    either refuses (401) or appends one more. *)
Lemma api_comment_loops (b : CommentBody) s :
  exists s' res,
    api_comment b s = (s', inr res)
    /\ ((loops s' = loops s /\ commentingActive s' = commentingActive s)
        \/ exists l, loops s' = loops s ++ [l]
                     /\ commentingActive s' = true
                     /\ lp_pc l = while_head true (mb_channelLinks b)).
Proof.
  unfold api_comment, try_catch. unfold bind at 1, sessions_get, gets.
  destruct (sessions s !! _) as [client|]; [|eexists _, _; split; [reflexivity|by left]].
  unfold bind at 1, client_connected, gets.
  destruct (connected (world s) client); [|eexists _, _; split; [reflexivity|by left]].
  unfold bind, modify, gets. simpl.
  destruct (is_spinning _); simpl; eexists _, _; (split; [reflexivity|]); right;
    eexists; repeat split; reflexivity.
Qed.

Lemma handle_frame (r : request) s :
  is_start (Request r) = false ->
  loops (fst (handle r s)) = loops s
  /\ (commentingActive s = false -> commentingActive (fst (handle r s)) = false).
Proof.
  intros Hr.
  assert (Hk : forall (m : M Response),
             keeps m ->
             loops (fst (bind m (fun res => ret (Some res)) s)) = loops s
             /\ (commentingActive s = false ->
                 commentingActive (fst (bind m (fun res => ret (Some res)) s)) = false)).
  { intros m Hm.
    destruct (keeps_bind m (fun res => ret (Some res)) Hm (fun a => keeps_ret _) s) as [H1 H2].
    split; [exact H1|]. intros H. by rewrite H2. }
  destruct r as [b|b|b|b| |b]; simpl in *; try discriminate.
  - apply Hk, keeps_api_connect.
  - apply Hk, keeps_api_search_channels.
  - apply Hk, keeps_api_subscribe.
  - by split.
  - apply Hk, keeps_api_disconnect.
Qed.

(** One step adds at most one running loop, and only if it is a start. *)
Lemma step_running_loops (lbl : label) s s' :
  step lbl s = Some s' ->
  (running_loops s' <= running_loops s + (if is_start lbl then 1 else 0))%nat.
Proof.
  unfold step, running_loops. destruct (hung s); [discriminate|].
  destruct lbl as [r|i].
  - intros [= <-]. destruct (is_start (Request r)) eqn:Hst.
    + destruct r; try discriminate. simpl.
      destruct (api_comment_loops b s) as (s1 & res & Heq & Hcases).
      rewrite Heq. simpl. destruct Hcases as [[-> _] | (l & -> & _)]; [lia|].
      fold (running_count (loops s ++ [l])). rewrite running_count_app.
      unfold running_count at 2. rewrite filter_cons. simpl.
      fold (running_count (loops s)). case_decide; simpl; lia.
    + destruct (handle_frame r s Hst) as [-> _]. lia.
  - destruct (loops s !! i) as [l|] eqn:Hl; [|discriminate].
    destruct (running l) eqn:Hrun; [|discriminate].
    pose proof (keeps_resume l s) as [Hloops _].
    destruct (resume l s) as [s1 [e|l']]; [discriminate|].
    intros [= <-]. simpl in *. rewrite Hloops.
    pose proof (running_count_insert (loops s) i l l' Hl Hrun) as H.
    unfold running_count in H. lia.
Qed.

Lemma starts_cons (lbl : label) (lbls : list label) :
  starts (lbl :: lbls) = ((if is_start lbl then 1 else 0) + starts lbls)%nat.
Proof.
  unfold starts. rewrite filter_cons.
  destruct (is_start lbl); case_decide; try congruence; reflexivity.
Qed.

Lemma run_running_loops (lbls : list label) : forall s s',
  run lbls s = Some s' ->
  (running_loops s' <= running_loops s + starts lbls)%nat.
Proof.
  induction lbls as [|lbl lbls IH]; intros s s' Hrun; simpl in Hrun.
  - injection Hrun as <-. lia.
  - destruct (step lbl s) as [s1|] eqn:Hstep; [|discriminate].
    apply step_running_loops in Hstep. apply IH in Hrun.
    rewrite starts_cons. lia.
Qed.

(** C2, as the code has it. The active flag is a single process-wide
    boolean, but nothing makes the commenter single-flight: at every
    reachable state the number of running comment loops is bounded by the
    number of POST /api/comment requests processed so far, not by one. A
    start that is accepted sets the flag and launches one more loop next to
    the ones already running. *)
Theorem running_loops_bounded_by_starts (w : W) (lbls : list label) s :
  run lbls (init w) = Some s ->
  (running_loops s <= starts lbls)%nat.
Proof.
  intros Hrun. apply run_running_loops in Hrun.
  unfold running_loops in Hrun at 2. simpl in Hrun. exact Hrun.
Qed.

(** C10. POST /api/stop-commenting is total and idempotent: in every state
    it clears the flag, changes nothing else and answers
    [{success: true, message}]; a second stop, or a stop when the flag is
    already clear, leaves the state as it is and answers the same. *)
Theorem stop_commenting_total_idempotent s :
  api_stop_commenting s
  = (set_commentingActive false s, inr (json (BMessage "Commenting stopped")))
  /\ commentingActive (fst (api_stop_commenting s)) = false
  /\ success (json (BMessage "Commenting stopped")) = true
  /\ api_stop_commenting (fst (api_stop_commenting s)) = api_stop_commenting s
  /\ (commentingActive s = false -> fst (api_stop_commenting s) = s).
Proof.
  repeat split.
  destruct s as [w m a ls t]. simpl. intros ->. reflexivity.
Qed.

(** *** The loop after a stop *)

(** The links still to visit in the current pass, for a loop inside an
    iteration. *)
Definition rest_of (p : pc) : option (list string) :=
  match p with
  | AtGetEntity _ rest | AtGetMessages _ rest | AtSendMessage _ _ rest | AtSleep rest =>
      Some rest
  | Spinning | Finished => None
  end.

(** The comment-send calls the current iteration can still make. *)
Definition sends_left (p : pc) : nat :=
  match p with
  | AtGetEntity _ _ | AtGetMessages _ _ | AtSendMessage _ _ _ => 1
  | _ => 0
  end.

Lemma after_sleep_inactive (channelLinks rest : list string) :
  after_sleep false channelLinks rest = Finished.
Proof. by destruct rest. Qed.

(** A resumption inside the [try] block: one protocol call, and the loop
    moves on within the same iteration, to the timer at the latest. *)
Lemma resume_body l s rest :
  rest_of (lp_pc l) = Some rest ->
  (0 < to_sleep (lp_pc l))%nat ->
  exists s1 p' ev,
    resume l s = (s1, inr (set_pc l p'))
    /\ trace s1 = trace s ++ [ev]
    /\ is_sleep ev = false
    /\ rest_of p' = Some rest
    /\ (to_sleep p' < to_sleep (lp_pc l))%nat
    /\ (sends [ev] + sends_left p' <= sends_left (lp_pc l))%nat.
Proof.
  intros Hrest Hpos. unfold resume.
  destruct (lp_pc l) as [username r|channel r|channel replyTo r|r| |] eqn:Hpc;
    simpl in *; try lia; injection Hrest as ->.
  - unfold bind, attempt, try_catch, bind, invoke, ret.
    destruct (tg Entity (GetEntity (lp_client l) username) (world s)) as [w' [e|channel]];
      eexists _, _, _; (split; [reflexivity|]); simpl; repeat split;
        first [reflexivity | lia | (unfold sends; simpl; lia)].
  - unfold bind, attempt, try_catch, bind, invoke, ret.
    destruct (tg (list Message) (GetMessages (lp_client l) channel 5) (world s))
      as [w' [e|[|latestMessage messages]]];
      eexists _, _, _; (split; [reflexivity|]); simpl; repeat split;
        first [reflexivity | lia | (unfold sends; simpl; lia)].
  - unfold bind, attempt, try_catch, bind, invoke, ret.
    destruct (tg unit (SendMessage (lp_client l) channel (lp_commentText l) replyTo) (world s))
      as [w' [e|[]]];
      eexists _, _, _; (split; [reflexivity|]); simpl; repeat split;
        first [reflexivity | lia | (unfold sends; simpl; lia)].
Qed.

(** The resumption after the timer: the flag is read, and the loop goes to
    the next channel, the next pass, or out. *)
Lemma resume_timer l s rest :
  lp_pc l = AtSleep rest ->
  resume l s
  = (log_event (ESleep (lp_interval l * 1000)) s,
     inr (set_pc l (after_sleep (commentingActive s) (lp_channelLinks l) rest))).
Proof. intros Hpc. unfold resume. rewrite Hpc. reflexivity. Qed.

Lemma hung_insert (ls : list Loop) i l' :
  existsb is_spinning ls = false -> is_spinning l' = false ->
  existsb is_spinning (<[i := l']> ls) = false.
Proof.
  revert i. induction ls as [|x ls IH]; intros i Hls Hl'; [done|].
  simpl in Hls. apply orb_false_iff in Hls as [Hx Hls].
  destruct i as [|i]; simpl.
  - by rewrite Hl', Hls.
  - by rewrite Hx, IH.
Qed.

Lemma not_hung_lookup s i l :
  hung s = false -> loops s !! i = Some l -> is_spinning l = false.
Proof.
  unfold hung. intros Hh Hl. apply not_true_is_false. intros Hsp.
  assert (existsb is_spinning (loops s) = true); [|congruence].
  apply existsb_exists. exists l. split; [|exact Hsp].
  apply list_elem_of_In, list_elem_of_lookup. eauto.
Qed.

(** The step of the process that resumes loop [i]. *)
Lemma step_resume s i l s1 l' :
  hung s = false -> loops s !! i = Some l -> running l = true ->
  resume l s = (s1, inr l') ->
  step (Resume i) s = Some (set_loops (<[i := l']> (loops s)) s1).
Proof.
  intros Hh Hl Hrun Hres. unfold step. rewrite Hh, Hl, Hrun, Hres.
  pose proof (keeps_resume l s) as [Hloops _]. rewrite Hres in Hloops. simpl in Hloops.
  by rewrite Hloops.
Qed.

Lemma running_of_rest l rest : rest_of (lp_pc l) = Some rest -> running l = true.
Proof. unfold running, is_finished. by destruct (lp_pc l). Qed.

(** Whatever the protocol answers, a loop inside an iteration reaches the
    timer of that iteration, with no timer and at most one comment-send on
    the way. *)
Lemma reaches_timer (n : nat) : forall s i l rest,
  (to_sleep (lp_pc l) <= n)%nat ->
  rest_of (lp_pc l) = Some rest ->
  hung s = false ->
  loops s !! i = Some l ->
  exists k s1 evs,
    (k <= to_sleep (lp_pc l))%nat
    /\ run (replicate k (Resume i)) s = Some s1
    /\ loops s1 !! i = Some (set_pc l (AtSleep rest))
    /\ hung s1 = false
    /\ commentingActive s1 = commentingActive s
    /\ trace s1 = trace s ++ evs
    /\ sleeps evs = 0%nat
    /\ (sends evs <= sends_left (lp_pc l))%nat.
Proof.
  induction n as [|n IH]; intros s i l rest Hn Hrest Hh Hl.
  - exists 0%nat, s, []. simpl.
    assert (Hpc : lp_pc l = AtSleep rest).
    { destruct (lp_pc l); simpl in *; try lia; congruence. }
    rewrite Hpc. simpl. rewrite app_nil_r. repeat split; try lia; try done.
    rewrite Hl. f_equal. destruct l; simpl in *. by subst.
  - destruct (decide (to_sleep (lp_pc l) = 0%nat)) as [Hz|Hnz].
    { apply (IH s i l rest); [lia|done..]. }
    destruct (resume_body l s rest Hrest) as (s1 & p' & ev & Hres & Htr & Hev & Hrest' & Hlt & Hsends);
      [lia|].
    pose proof (step_resume s i l s1 _ Hh Hl (running_of_rest l rest Hrest) Hres) as Hstep.
    pose proof (keeps_resume l s) as [Hloops Hflag]. rewrite Hres in Hloops, Hflag.
    simpl in Hloops, Hflag.
    set (s2 := set_loops (<[i := set_pc l p']> (loops s)) s1) in *.
    assert (Hl2 : loops s2 !! i = Some (set_pc l p')).
    { simpl. apply list_lookup_insert_eq. by eapply lookup_lt_Some. }
    assert (Hh2 : hung s2 = false).
    { unfold hung. simpl. apply hung_insert; [exact Hh|].
      unfold is_spinning. simpl. by destruct p'. }
    destruct (IH s2 i (set_pc l p') rest) as (k & s3 & evs & Hk & Hrun & Hl3 & Hh3 & Hf3 & Htr3 & Hsl & Hse);
      [simpl; lia|exact Hrest'|exact Hh2|exact Hl2|].
    exists (S k), s3, (ev :: evs). simpl in *. rewrite Hstep.
    repeat split; try done; try lia.
    + congruence.
    + rewrite Htr3, Htr, <- app_assoc. reflexivity.
    + unfold sleeps in *. rewrite filter_cons. rewrite decide_False by congruence. exact Hsl.
    + unfold sends in *. rewrite filter_cons. rewrite filter_cons in Hsends.
      case_decide; simpl in *; lia.
Qed.

Lemma work_left_rest (p : pc) rest : rest_of p = Some rest -> work_left p = S (to_sleep p).
Proof. by destruct p. Qed.

Lemma work_left_le (p : pc) : (work_left p <= 4)%nat.
Proof. destruct p; simpl; lia. Qed.

Lemma rest_of_running l :
  running l = true -> is_spinning l = false -> exists rest, rest_of (lp_pc l) = Some rest.
Proof. unfold running, is_finished, is_spinning. destruct (lp_pc l); intros; try done; eauto. Qed.

(** With the flag cleared every resumption brings the loop strictly
    closer to its exit. *)
Lemma resume_decreases l s :
  commentingActive s = false -> running l = true -> is_spinning l = false ->
  exists s1 l',
    resume l s = (s1, inr l')
    /\ (work_left (lp_pc l') < work_left (lp_pc l))%nat
    /\ is_spinning l' = false.
Proof.
  intros Hflag Hrun Hsp. destruct (rest_of_running l Hrun Hsp) as [rest Hrest].
  rewrite (work_left_rest _ _ Hrest).
  destruct (decide (to_sleep (lp_pc l) = 0%nat)) as [Hz|Hnz].
  - assert (Hpc : lp_pc l = AtSleep rest).
    { destruct (lp_pc l); simpl in *; try lia; congruence. }
    eexists _, _. split; [by apply resume_timer|].
    rewrite Hflag, after_sleep_inactive. simpl. split; [lia|reflexivity].
  - destruct (resume_body l s rest Hrest) as (s1 & p' & ev & Hres & _ & _ & Hrest' & Hlt & _);
      [lia|].
    exists s1, (set_pc l p'). split; [exact Hres|]. simpl.
    rewrite (work_left_rest _ _ Hrest'). split; [lia|].
    unfold is_spinning. simpl. by destruct p'.
Qed.

Lemma resumes_cons (i : nat) (lbl : label) (lbls : list label) :
  resumes i (lbl :: lbls) = ((if is_resume i lbl then 1 else 0) + resumes i lbls)%nat.
Proof.
  unfold resumes. rewrite filter_cons.
  destruct (is_resume i lbl); case_decide; try congruence; reflexivity.
Qed.

(** After a stop and without a new start, however requests and the other
    loops are interleaved, loop [i] is resumed at most as many times as its
    current iteration has operations left. *)
Lemma bounded_resumes (lbls : list label) : forall s s' i l,
  starts lbls = 0%nat ->
  commentingActive s = false ->
  loops s !! i = Some l ->
  run lbls s = Some s' ->
  exists l',
    loops s' !! i = Some l'
    /\ commentingActive s' = false
    /\ (resumes i lbls + work_left (lp_pc l') <= work_left (lp_pc l))%nat.
Proof.
  induction lbls as [|lbl lbls IH]; intros s s' i l Hst Hflag Hl Hrun; simpl in Hrun.
  - injection Hrun as <-. exists l. repeat split; first [done | simpl; lia].
  - rewrite starts_cons in Hst. rewrite resumes_cons.
    destruct (is_start lbl) eqn:Hlbl; [lia|]. simpl in Hst.
    destruct (step lbl s) as [s1|] eqn:Hstep; [|discriminate].
    unfold step in Hstep. destruct (hung s) eqn:Hh; [discriminate|].
    destruct lbl as [r|j].
    + injection Hstep as <-. destruct (handle_frame r s Hlbl) as [Hloops Hf].
      destruct (IH (fst (handle r s)) s' i l) as (l' & ? & ? & ?); try done.
      { by apply Hf. } { by rewrite Hloops. }
      exists l'. simpl. auto.
    + destruct (loops s !! j) as [lj|] eqn:Hlj; [|discriminate].
      destruct (running lj) eqn:Hrunj; [|discriminate].
      pose proof (keeps_resume lj s) as [Hloops Hkeep].
      destruct (resume lj s) as [s1' [e|lj']] eqn:Hres; [discriminate|].
      injection Hstep as <-. simpl in Hloops, Hkeep.
      destruct (decide (i = j)) as [->|Hij].
      * assert (lj = l) by congruence. subst lj.
        destruct (resume_decreases l s Hflag Hrunj (not_hung_lookup s j l Hh Hl))
          as (s1'' & l'' & Hres' & Hlt & _).
        rewrite Hres in Hres'. injection Hres' as <- <-.
        destruct (IH (set_loops (<[j := lj']> (loops s1')) s1') s' j lj')
          as (l' & ? & ? & ?); try done.
        { simpl. congruence. }
        { simpl. rewrite Hloops. apply list_lookup_insert_eq. by eapply lookup_lt_Some. }
        exists l'. simpl. rewrite bool_decide_eq_true_2 by done. repeat split; try done. lia.
      * destruct (IH (set_loops (<[j := lj']> (loops s1')) s1') s' i l)
          as (l' & ? & ? & ?); try done.
        { simpl. congruence. }
        { simpl. rewrite Hloops. by rewrite list_lookup_insert_ne. }
        exists l'. simpl. rewrite bool_decide_eq_false_2 by done. auto.
Qed.

(** The wind-down of one loop, run on its own. For a loop [i] of a process
    that is not hung:
    - the flag is re-checked after the timer, before the next channel: with
      the flag cleared the loop leaves at once, whatever is left to visit;
    - after a stop (flag cleared) the loop can be run to its end in at most
      4 resumptions, the rest of the iteration the stop fell into; these
      perform at most one comment-send and at most one timer, the timer is
      the last thing the loop does, and the finished loop cannot be resumed
      again; and however requests and other loops are interleaved, as long
      as no new start comes in, loop [i] is resumed at most 4 times and the
      flag stays cleared;
    - whatever the protocol answers, a loop inside an iteration reaches the
      timer of that iteration within 3 resumptions, and its next
      resumption is the timer of [interval * 1000] ms. *)
Theorem comment_loop_stops_promptly s i l :
  hung s = false ->
  loops s !! i = Some l ->
  (forall rest, after_sleep false (lp_channelLinks l) rest = Finished)
  /\ (commentingActive s = false ->
      (exists k s' l' evs,
         (k <= 4)%nat
         /\ run (replicate k (Resume i)) s = Some s'
         /\ loops s' !! i = Some l'
         /\ lp_pc l' = Finished
         /\ step (Resume i) s' = None
         /\ trace s' = trace s ++ evs
         /\ (sends evs <= 1)%nat
         /\ (sleeps evs <= 1)%nat
         /\ (evs = [] \/ last evs = Some (ESleep (lp_interval l * 1000))))
      /\ (forall lbls s',
            starts lbls = 0%nat -> run lbls s = Some s' ->
            (resumes i lbls <= 4)%nat /\ commentingActive s' = false))
  /\ (forall rest, rest_of (lp_pc l) = Some rest ->
      exists k s1 s2 evs,
        (k <= 3)%nat
        /\ run (replicate k (Resume i)) s = Some s1
        /\ loops s1 !! i = Some (set_pc l (AtSleep rest))
        /\ trace s1 = trace s ++ evs
        /\ sleeps evs = 0%nat
        /\ step (Resume i) s1 = Some s2
        /\ trace s2 = trace s1 ++ [ESleep (lp_interval l * 1000)]).
Proof.
  intros Hh Hl.
  assert (Htimer : forall rest, rest_of (lp_pc l) = Some rest ->
    exists k s1 s2 evs,
      (k <= to_sleep (lp_pc l))%nat
      /\ run (replicate k (Resume i)) s = Some s1
      /\ loops s1 !! i = Some (set_pc l (AtSleep rest))
      /\ commentingActive s1 = commentingActive s
      /\ trace s1 = trace s ++ evs
      /\ sleeps evs = 0%nat
      /\ (sends evs <= 1)%nat
      /\ step (Resume i) s1 = Some s2
      /\ loops s2 !! i
         = Some (set_pc l (after_sleep (commentingActive s1) (lp_channelLinks l) rest))
      /\ trace s2 = trace s1 ++ [ESleep (lp_interval l * 1000)]).
  { intros rest Hrest.
    destruct (reaches_timer (to_sleep (lp_pc l)) s i l rest)
      as (k & s1 & evs & Hk & Hrun & Hl1 & Hh1 & Hf1 & Htr1 & Hsl & Hse); try done.
    pose proof (resume_timer (set_pc l (AtSleep rest)) s1 rest eq_refl) as Hres.
    pose proof (step_resume s1 i _ _ _ Hh1 Hl1 eq_refl Hres) as Hstep.
    eexists k, s1, _, evs. repeat split; try done.
    - pose proof (sends_left (lp_pc l)). destruct (lp_pc l); simpl in *; lia.
    - simpl. apply list_lookup_insert_eq. by eapply lookup_lt_Some. }
  split; [intros rest; apply after_sleep_inactive|]. split.
  - intros Hflag. split.
    + destruct (running l) eqn:Hrun.
      * destruct (rest_of_running l Hrun (not_hung_lookup s i l Hh Hl)) as [rest Hrest].
        destruct (Htimer rest Hrest)
          as (k & s1 & s2 & evs & Hk & Hrun1 & Hl1 & Hf1 & Htr1 & Hsl & Hse & Hstep & Hl2 & Htr2).
        rewrite Hf1, Hflag, after_sleep_inactive in Hl2.
        exists (S k), s2, (set_pc l Finished), (evs ++ [ESleep (lp_interval l * 1000)]).
        pose proof (work_left_le (lp_pc l)). rewrite (work_left_rest _ _ Hrest) in *.
        repeat split; try done; try lia.
        -- replace (S k) with (k + 1)%nat by lia. rewrite replicate_add.
           clear - Hrun1 Hstep. revert s Hrun1.
           induction k as [|k IH]; intros s Hrun1; simpl in *.
           ++ injection Hrun1 as ->. by rewrite Hstep.
           ++ destruct (step (Resume i) s); [|discriminate]. by apply IH.
        -- unfold step. destruct (hung s2); [done|]. by rewrite Hl2.
        -- rewrite Htr2, Htr1, <- app_assoc. reflexivity.
        -- unfold sends in *. rewrite filter_app, length_app. simpl. lia.
        -- unfold sleeps in *. rewrite filter_app, length_app, Hsl. simpl. lia.
        -- right. apply last_snoc.
      * exists 0%nat, s, l, []. simpl. rewrite app_nil_r.
        assert (Hpc : lp_pc l = Finished).
        { unfold running, is_finished in Hrun. by destruct (lp_pc l). }
        repeat split; try done; try lia; auto.
        unfold step. rewrite Hh, Hl, Hrun. reflexivity.
    + intros lbls s' Hst Hrun.
      destruct (bounded_resumes lbls s s' i l Hst Hflag Hl Hrun) as (l' & _ & Hf & Hle).
      pose proof (work_left_le (lp_pc l)). split; [lia|exact Hf].
  - intros rest Hrest.
    destruct (Htimer rest Hrest)
      as (k & s1 & s2 & evs & Hk & Hrun1 & Hl1 & _ & Htr1 & Hsl & _ & Hstep & _ & Htr2).
    exists k, s1, s2, evs. repeat split; try done.
    destruct (lp_pc l); simpl in *; lia.
Qed.

End Commenter.

(** Two starts on the scripted platform: the first connect registers a
    connected client, which is all [POST /api/comment] asks for. *)

Definition demo_two_starts : list label :=
  [Request (PostConnect Demo.connect_no_code);
   Request (PostComment Demo.comment_body);
   Request (PostComment Demo.comment_body)].

Example demo_two_starts_loops :
  (fun s => (map lp_pc (loops s), commentingActive s))
    <$> @run Demo.remote demo_two_starts (@init Demo.remote Demo.world0)
  = Some ([AtGetEntity "foo" ["@bar"]; AtGetEntity "foo" ["@bar"]], true).
Proof. vm_compute. reflexivity. Qed.

(** C2 as stated fails: after two accepted starts two loops are running. *)
Lemma single_flight_fails :
  ~ (forall (R : Remote) (s : State), reachable s -> (running_loops s <= 1)%nat).
Proof.
  intros H.
  assert (Hr : exists s, @reachable Demo.remote s /\ running_loops s = 2%nat).
  { eexists. split.
    - exists Demo.world0, demo_two_starts. vm_compute. reflexivity.
    - vm_compute. reflexivity. }
  destruct Hr as (s & Hs & Hn). specialize (H Demo.remote s Hs). lia.
Qed.

Definition demo_two_starts_state : @State Demo.remote :=
  default (@init Demo.remote Demo.world0)
    (@run Demo.remote demo_two_starts (@init Demo.remote Demo.world0)).

Lemma running_loops_bounded_by_starts_witness :
  (running_loops demo_two_starts_state <= starts demo_two_starts)%nat.
Proof.
  apply (@running_loops_bounded_by_starts Demo.remote Demo.world0 demo_two_starts
           demo_two_starts_state).
  vm_compute. reflexivity.
Defined.

Lemma stop_commenting_total_idempotent_witness :
  fst (@api_stop_commenting Demo.remote (@init Demo.remote Demo.world0))
  = @init Demo.remote Demo.world0.
Proof.
  apply (@stop_commenting_total_idempotent Demo.remote (@init Demo.remote Demo.world0)).
  reflexivity.
Defined.

(** A start followed at once by a stop, on the scripted platform. The loop
    is suspended on [getEntity] of the first channel when the stop comes. *)

Definition demo_start_stop : list label :=
  [Request (PostConnect Demo.connect_no_code);
   Request (PostComment Demo.comment_body);
   Request PostStopCommenting].

Definition demo_stopped : @State Demo.remote :=
  default (@init Demo.remote Demo.world0)
    (@run Demo.remote demo_start_stop (@init Demo.remote Demo.world0)).

Definition demo_loop : Loop :=
  {| lp_client := 0%nat;
     lp_channelLinks := ["https://t.me/foo"; "@bar"];
     lp_commentText := "hello";
     lp_interval := 60;
     lp_pc := AtGetEntity "foo" ["@bar"] |}.

Example demo_stopped_loops :
  (loops demo_stopped, commentingActive demo_stopped) = ([demo_loop], false).
Proof. vm_compute. reflexivity. Qed.

(** The iteration the stop fell into is completed, comment included; the
    second channel is never touched. *)
Example demo_wind_down :
  (fun s => (map lp_pc (loops s), drop 3 (trace s)))
    <$> @run Demo.remote (replicate 4 (Resume 0%nat)) demo_stopped
  = Some ([Finished],
          [ECall (GetEntity 0%nat "foo");
           ECall (GetMessages 0%nat {| entity_id := 3 |} 5);
           ECall (SendMessage 0%nat {| entity_id := 3 |} "hello" 7);
           ESleep 60000]).
Proof. vm_compute. reflexivity. Qed.

Lemma comment_loop_stops_promptly_witness :
  (exists k s' l' evs,
     (k <= 4)%nat
     /\ @run Demo.remote (replicate k (Resume 0%nat)) demo_stopped = Some s'
     /\ loops s' !! 0%nat = Some l'
     /\ lp_pc l' = Finished
     /\ step (Resume 0%nat) s' = None
     /\ trace s' = trace demo_stopped ++ evs
     /\ (sends evs <= 1)%nat
     /\ (sleeps evs <= 1)%nat
     /\ (evs = [] \/ last evs = Some (ESleep (60 * 1000))))
  /\ (exists k s1 s2 evs,
        (k <= 3)%nat
        /\ @run Demo.remote (replicate k (Resume 0%nat)) demo_stopped = Some s1
        /\ loops s1 !! 0%nat = Some (set_pc demo_loop (AtSleep ["@bar"]))
        /\ trace s1 = trace demo_stopped ++ evs
        /\ sleeps evs = 0%nat
        /\ step (Resume 0%nat) s1 = Some s2
        /\ trace s2 = trace s1 ++ [ESleep (60 * 1000)]).
Proof.
  assert (Hh : hung demo_stopped = false) by (vm_compute; reflexivity).
  assert (Hl : loops demo_stopped !! 0%nat = Some demo_loop) by (vm_compute; reflexivity).
  pose proof (@comment_loop_stops_promptly Demo.remote demo_stopped 0%nat demo_loop Hh Hl)
    as (_ & Hstop & Htimer).
  split.
  - apply Hstop. vm_compute. reflexivity.
  - apply (Htimer ["@bar"]). reflexivity.
Defined.

(** Discovery with a keyword whose search is throttled and a channel whose
    metadata is private. *)

Example demo_search_tolerant :
  map ci_id (demo_channels ["down"; "tech"; "news"] 1000 5000) = ["2"; "1"].
Proof. vm_compute. reflexivity. Qed.

Lemma search_partial_failure_tolerant_witness :
  @for_of Demo.remote _ _ (search_keyword 0%nat 1000 5000) ("down" :: ["tech"])
    ([], ∅) Demo.registered
  = @for_of Demo.remote _ _ (search_keyword 0%nat 1000 5000) ["tech"] ([], ∅)
      (log_event (ECall (ContactsSearch 0%nat "down" 50))
         (set_world (world Demo.registered) Demo.registered))
  /\ @for_of Demo.remote _ _ (process_chat 0%nat 1000 5000 "tech")
       (Demo.chat 3 "bits" false :: [Demo.chat 4 "huge" false]) ([], ∅) Demo.registered
     = @for_of Demo.remote _ _ (process_chat 0%nat 1000 5000 "tech")
         [Demo.chat 4 "huge" false] ([], ∅)
         (log_event (ESleep 100)
            (log_event (ECall (GetFullChannel 0%nat (Demo.chat 3 "bits" false)))
               (set_world (world Demo.registered) Demo.registered))).
Proof.
  pose proof (@search_partial_failure_tolerant Demo.remote
                (Demo.search_body ["down"; "tech"] 1000 5000) Demo.registered)
    as (_ & Hchat & Hkeyword).
  split.
  - apply (Hkeyword 0%nat ([], ∅) "down" ["tech"] Demo.registered
             (world Demo.registered) "FLOOD_WAIT_30").
    reflexivity.
  - apply (Hchat 0%nat "tech" [] ∅ (Demo.chat 3 "bits" false) [Demo.chat 4 "huge" false]
             Demo.registered (world Demo.registered) "CHANNEL_PRIVATE").
    + reflexivity.
    + reflexivity.
Defined.

(** * Further properties of the handlers *)

(** ** Link normalization and session keys *)

Lemma startsWith_app (pat s : string) : Js.startsWith pat (pat +:+ s) = true.
Proof. induction pat as [|a pat IH]; simpl; [reflexivity|]. by rewrite decide_True. Qed.

Lemma drop_length_app (pat s : string) : Js.drop (String.length pat) (pat +:+ s) = s.
Proof. induction pat as [|a pat IH]; simpl; [by destruct s|exact IH]. Qed.

Lemma replace_unfold (s pat rep : string) :
  Js.replace s pat rep
  = if Js.startsWith pat s then rep +:+ Js.drop (String.length pat) s
    else match s with
         | EmptyString => EmptyString
         | String a s' => String a (Js.replace s' pat rep)
         end.
Proof. by destruct s. Qed.

Lemma includes_unfold (s pat : string) :
  Js.includes s pat
  = if Js.startsWith pat s then true
    else match s with
         | EmptyString => false
         | String _ s' => Js.includes s' pat
         end.
Proof. by destruct s. Qed.

(** [replace] leaves a string without an occurrence of the pattern as it
    is. *)
Lemma replace_absent (s pat rep : string) :
  Js.includes s pat = false -> Js.replace s pat rep = s.
Proof.
  induction s as [|a s IH]; intros Hinc; rewrite replace_unfold;
    rewrite includes_unfold in Hinc; destruct (Js.startsWith pat _); try discriminate.
  - reflexivity.
  - by rewrite IH.
Qed.

(** [replace] of a leading occurrence. *)
Lemma replace_prefix (pat rep s : string) :
  Js.replace (pat +:+ s) pat rep = rep +:+ s.
Proof. by rewrite replace_unfold, startsWith_app, drop_length_app. Qed.

(** X1. Link normalization on the three intended spellings: for a channel
    name that contains neither [@] nor the URL prefix, the bare name, the
    name behind [@] and the name behind [https://t.me/] all normalize to
    the name. *)
Theorem normalize_spellings (name : string) :
  Js.includes name "@" = false ->
  Js.includes name "https://t.me/" = false ->
  normalize name = name
  /\ normalize ("@" +:+ name) = name
  /\ normalize ("https://t.me/" +:+ name) = name.
Proof.
  intros Hat Hurl. unfold normalize. repeat split.
  - by rewrite (replace_absent name "https://t.me/"), replace_absent.
  - rewrite (replace_absent ("@" +:+ name) "https://t.me/").
    + apply (replace_prefix "@" EmptyString name).
    + rewrite includes_unfold. simpl. exact Hurl.
  - rewrite (replace_prefix "https://t.me/" EmptyString name). simpl.
    by apply replace_absent.
Qed.

Lemma normalize_spellings_witness :
  normalize "durov" = "durov"
  /\ normalize ("@" +:+ "durov") = "durov"
  /\ normalize ("https://t.me/" +:+ "durov") = "durov".
Proof. apply (normalize_spellings "durov"); reflexivity. Defined.

(** Only the first [@] goes, wherever it is: the replacement is not
    anchored at the start of the link. *)
Lemma replace_first_char (a b rep : string) (c : Stdlib.Strings.Ascii.ascii) :
  Js.includes a (String c EmptyString) = false ->
  Js.replace (a +:+ String c b) (String c EmptyString) rep = a +:+ rep +:+ b.
Proof.
  induction a as [|x a IH]; intros Hinc.
  - apply (replace_prefix (String c EmptyString) rep b).
  - rewrite includes_unfold in Hinc. simpl in Hinc. simpl.
    destruct (decide (c = x)) as [->|Hne]; [discriminate|].
    by rewrite IH.
Qed.

(** X3. The [@] that normalization removes is the first one, wherever it
    stands: a link [a@b] without the URL prefix, whose part [a] has no [@],
    normalizes to [ab]. *)
Theorem normalize_inner_at_sign (a b : string) :
  Js.includes a "@" = false ->
  Js.includes (a +:+ "@" +:+ b) "https://t.me/" = false ->
  normalize (a +:+ "@" +:+ b) = a +:+ b.
Proof.
  intros Hat Hurl. unfold normalize. rewrite (replace_absent _ "https://t.me/") by exact Hurl.
  apply (replace_first_char a b EmptyString). exact Hat.
Qed.

Lemma normalize_inner_at_sign_witness :
  normalize ("news" +:+ "@" +:+ "desk@hq") = "news" +:+ "desk@hq".
Proof. apply (normalize_inner_at_sign "news" "desk@hq"); reflexivity. Defined.

Lemma includes_cons (c x : Stdlib.Strings.Ascii.ascii) (s : string) :
  Js.includes (String x s) (String c EmptyString) = false ->
  c <> x /\ Js.includes s (String c EmptyString) = false.
Proof.
  rewrite includes_unfold. simpl. destruct (decide (c = x)); [discriminate|]. done.
Qed.

Lemma key_split (p1 p2 a1 a2 : string) :
  Js.includes p1 "_" = false ->
  Js.includes p2 "_" = false ->
  p1 +:+ "_" +:+ a1 = p2 +:+ "_" +:+ a2 ->
  p1 = p2 /\ a1 = a2.
Proof.
  revert p2. induction p1 as [|x p1 IH]; intros [|y p2] H1 H2 Heq; cbn in Heq.
  - injection Heq as Heq. simpl in Heq. by subst.
  - injection Heq as <- _. by apply includes_cons in H2 as [? _].
  - injection Heq as -> _. by apply includes_cons in H1 as [? _].
  - injection Heq as -> Heq.
    apply includes_cons in H1 as [_ H1]. apply includes_cons in H2 as [_ H2].
    destruct (IH p2 H1 H2 Heq) as [-> ->]. done.
Qed.

(** X2. Session keys: two requests whose phone numbers contain no
    underscore get the same session key only if they agree on both the
    phone number and the application id. *)
Theorem sessionKey_injective (phone1 phone2 apiId1 apiId2 : string) :
  Js.includes phone1 "_" = false ->
  Js.includes phone2 "_" = false ->
  sessionKey (Some phone1) (Some apiId1) = sessionKey (Some phone2) (Some apiId2) ->
  phone1 = phone2 /\ apiId1 = apiId2.
Proof. unfold sessionKey. simpl. apply key_split. Qed.

Lemma sessionKey_injective_witness :
  "+15550100" = "+15550100" /\ "12345" = "12345".
Proof.
  apply (sessionKey_injective "+15550100" "+15550100" "12345" "12345"); reflexivity.
Defined.

(** Without that proviso the key does not determine the pair. *)
Example sessionKey_collision :
  sessionKey (Some "a_b") (Some "c") = sessionKey (Some "a") (Some "b_c").
Proof. reflexivity. Qed.

(** ** The session registry: connect and disconnect *)

Section Registry.

Context {R : Remote}.

Implicit Types (s : State) (client : ClientRef).

(** The test every workflow handler starts with:
    [client && client.connected]. *)
Definition has_connected (s : State) (key : string) : bool :=
  match sessions s !! key with
  | Some client => connected (world s) client
  | None => false
  end.

(** X4. A connect request that lacks [apiId], [apiHash] or [phoneNumber]
    (missing or empty) is answered 400 and has no effect at all: nothing is
    registered and the protocol is not touched. *)
Theorem connect_missing_fields (b : ConnectBody) s :
  Js.truthy (cb_apiId b) && Js.truthy (cb_apiHash b) && Js.truthy (cb_phoneNumber b) = false ->
  api_connect b s
  = (s, inr (status_json 400
               (BError "Missing required fields: apiId, apiHash, phoneNumber" None))).
Proof.
  intros H. unfold api_connect, try_catch.
  destruct (Js.truthy (cb_apiId b)), (Js.truthy (cb_apiHash b)),
    (Js.truthy (cb_phoneNumber b)); try discriminate; reflexivity.
Qed.

(** X5. Reconnecting is idempotent: for a key whose registered client is
    connected, a connect request, whatever code or password it carries,
    answers [Already connected] with the serialized session and leaves the
    whole state, trace included, as it was; so does any repetition. *)
Theorem connect_already_connected (b : ConnectBody) s client :
  Js.truthy (cb_apiId b) = true ->
  Js.truthy (cb_apiHash b) = true ->
  Js.truthy (cb_phoneNumber b) = true ->
  sessions s !! sessionKey (cb_phoneNumber b) (cb_apiId b) = Some client ->
  connected (world s) client = true ->
  api_connect b s
  = (s, inr (json (BSession "Already connected" (session_save (world s) client))))
  /\ api_connect b (fst (api_connect b s)) = api_connect b s.
Proof.
  intros Hid Hhash Hphone Hs Hc.
  assert (H : api_connect b s
              = (s, inr (json (BSession "Already connected" (session_save (world s) client))))).
  { unfold api_connect, try_catch. rewrite Hid, Hhash, Hphone. simpl.
    unfold bind at 1, sessions_get, gets. rewrite Hs.
    unfold bind, client_connected, client_session_save, gets, ret. rewrite Hc. reflexivity. }
  split; [exact H|]. rewrite H. simpl. exact H.
Qed.

(** How a connect request can leave the registry. *)
Definition registry_effect (b : ConnectBody) s (s' : State) (res : Response) : Prop :=
  sessions s' = sessions s
  \/ exists client,
       sessions s !! sessionKey (cb_phoneNumber b) (cb_apiId b) = None
       /\ sessions s' = <[sessionKey (cb_phoneNumber b) (cb_apiId b) := client]> (sessions s)
       /\ status res = 200
       /\ (res = json (BNeedsCode "Verification code sent to your Telegram app")
           \/ res = json (BSession "Successfully connected to Telegram"
                            (session_save (world s') client))).

Lemma api_connect_effect (b : ConnectBody) s :
  exists s' res, api_connect b s = (s', inr res) /\ registry_effect b s s' res
                 /\ (status res = 200 \/ status res = 400 \/ status res = 500).
Proof.
  unfold api_connect, try_catch, registry_effect.
  destruct (Js.truthy (cb_apiId b)); simpl; [|eexists _, _; split; [reflexivity|]; auto].
  destruct (Js.truthy (cb_apiHash b)); simpl; [|eexists _, _; split; [reflexivity|]; auto].
  destruct (Js.truthy (cb_phoneNumber b)); simpl; [|eexists _, _; split; [reflexivity|]; auto].
  unfold bind at 1, sessions_get, gets.
  destruct (sessions s !! _) as [client|] eqn:Hs.
  - unfold bind, client_connected, client_session_save, gets, invoke, ret.
    destruct (negb (connected (world s) client)); simpl.
    + destruct (tg unit (Connect client) (world s)) as [w' [e|[]]];
        eexists _, _; (split; [reflexivity|]); simpl; auto.
    + eexists _, _; (split; [reflexivity|]); simpl; auto.
  - unfold bind at 1, invoke.
    destruct (tg ClientRef (NewTelegramClient _ _) (world s)) as [w1 [e|client]];
      [eexists _, _; split; [reflexivity|]; simpl; auto|].
    unfold bind at 1. simpl.
    destruct (tg unit (Connect client) w1) as [w2 [e|[]]];
      [eexists _, _; split; [reflexivity|]; simpl; auto|].
    unfold bind at 1, client_connected, gets. simpl.
    destruct (negb (connected w2 client));
      [eexists _, _; split; [reflexivity|]; simpl; auto|].
    destruct (negb (Js.truthy (cb_code b))).
    + unfold bind, invoke, sessions_set, modify, ret. simpl.
      destruct (tg unit (SendCode _ _ _ _) w2) as [w3 [e|[]]];
        [eexists _, _; split; [reflexivity|]; simpl; auto|].
      eexists _, _. split; [reflexivity|]. simpl. split; [|auto].
      right. exists client. auto.
    + unfold bind, try_catch, invoke, client_session_save, sessions_set, gets, modify, ret, throw.
      simpl. destruct (tg unit (SignInUser _ _ _ _ _ _) w2) as [w3 [e|[]]].
      * destruct (Js.includes e "PHONE_CODE_INVALID");
          [eexists _, _; split; [reflexivity|]; simpl; auto|].
        destruct (Js.includes e "SESSION_PASSWORD_NEEDED");
          eexists _, _; (split; [reflexivity|]); simpl; auto.
      * eexists _, _. split; [reflexivity|]. simpl. split; [|auto].
        right. exists client. auto.
Qed.

(** X6. What a connect request does to the registry, when the handler
    runs from its first statement to its answer with no other request
    handled in between. It always answers, with 200, 400 or 500. It either
    leaves the registry as it is or registers one client under its session
    key, which was free when the handler looked it up, and it registers
    only together with a [needsCode] answer or a [Successfully connected]
    answer. In particular a 400, a 500 and a [needsPassword] answer
    register nothing. *)
Theorem connect_registers_only_on_progress (b : ConnectBody) s :
  exists s' res,
    api_connect b s = (s', inr res)
    /\ (status res = 200 \/ status res = 400 \/ status res = 500)
    /\ registry_effect b s s' res
    /\ (status res <> 200 \/ (exists msg, body res = BNeedsPassword msg) ->
        sessions s' = sessions s).
Proof.
  destruct (api_connect_effect b s) as (s' & res & Hrun & Heff & Hst).
  exists s', res. repeat split; try assumption.
  intros Hno. destruct Heff as [Hsame|(client & _ & _ & H200 & Hbody)]; [exact Hsame|].
  exfalso. destruct Hno as [Hno|[msg Hmsg]]; [congruence|].
  destruct Hbody as [->| ->]; discriminate.
Qed.

(** X7. The outcome of a failed sign-in. When a first request with a code
    reaches the sign-in and the sign-in throws, the answer is 400
    [Invalid verification code] if the message contains
    [PHONE_CODE_INVALID]; otherwise [needsPassword] if it contains
    [SESSION_PASSWORD_NEEDED]; otherwise 500 with that message. The
    password handed to the sign-in is the empty string when the request has
    none. In all three cases the client is dropped: the registry is
    unchanged. *)
Theorem connect_sign_in_failure (b : ConnectBody) s client w1 w2 w3 err :
  Js.truthy (cb_apiId b) = true ->
  Js.truthy (cb_apiHash b) = true ->
  Js.truthy (cb_phoneNumber b) = true ->
  Js.truthy (cb_code b) = true ->
  sessions s !! sessionKey (cb_phoneNumber b) (cb_apiId b) = None ->
  tg _ (NewTelegramClient (parseInt (cb_apiId b)) (Js.interp (cb_apiHash b))) (world s)
  = (w1, inr client) ->
  tg _ (Connect client) w1 = (w2, inr tt) ->
  connected w2 client = true ->
  tg _ (SignInUser client (parseInt (cb_apiId b)) (Js.interp (cb_apiHash b))
          (Js.interp (cb_phoneNumber b)) (Js.interp (cb_code b))
          (Js.or_str (cb_password b) EmptyString)) w2
  = (w3, inl err) ->
  exists s',
    api_connect b s
    = (s', inr (if Js.includes err "PHONE_CODE_INVALID"
                then status_json 400 (BError "Invalid verification code" None)
                else if Js.includes err "SESSION_PASSWORD_NEEDED"
                then json (BNeedsPassword
                             "Two-factor authentication enabled. Please provide password.")
                else status_json 500
                       (BError err (Some "Make sure your credentials are correct"))))
    /\ sessions s' = sessions s
    /\ world s' = w3.
Proof.
  intros Hid Hhash Hphone Hcode Hs Hnew Hconn Hc Hsign.
  unfold api_connect, try_catch. rewrite Hid, Hhash, Hphone. simpl.
  unfold bind at 1, sessions_get, gets. rewrite Hs.
  unfold bind at 1, invoke. rewrite Hnew.
  unfold bind at 1. simpl. rewrite Hconn.
  unfold bind at 1, client_connected, gets. simpl. rewrite Hc, Hcode. simpl.
  unfold bind, try_catch, invoke, ret, throw. simpl. rewrite Hsign.
  destruct (Js.includes err "PHONE_CODE_INVALID"); [by eexists|].
  destruct (Js.includes err "SESSION_PASSWORD_NEEDED"); by eexists.
Qed.

(** X8. The successful sign-in. When a first request with a code reaches
    the sign-in and the sign-in returns, the client is registered under the
    session key and the answer carries the session serialized after the
    sign-in; the handler has made exactly three protocol calls: create,
    connect, sign in. *)
Theorem connect_sign_in_success (b : ConnectBody) s client w1 w2 w3 :
  Js.truthy (cb_apiId b) = true ->
  Js.truthy (cb_apiHash b) = true ->
  Js.truthy (cb_phoneNumber b) = true ->
  Js.truthy (cb_code b) = true ->
  sessions s !! sessionKey (cb_phoneNumber b) (cb_apiId b) = None ->
  tg _ (NewTelegramClient (parseInt (cb_apiId b)) (Js.interp (cb_apiHash b))) (world s)
  = (w1, inr client) ->
  tg _ (Connect client) w1 = (w2, inr tt) ->
  connected w2 client = true ->
  tg _ (SignInUser client (parseInt (cb_apiId b)) (Js.interp (cb_apiHash b))
          (Js.interp (cb_phoneNumber b)) (Js.interp (cb_code b))
          (Js.or_str (cb_password b) EmptyString)) w2
  = (w3, inr tt) ->
  exists s',
    api_connect b s
    = (s', inr (json (BSession "Successfully connected to Telegram" (session_save w3 client))))
    /\ sessions s' !! sessionKey (cb_phoneNumber b) (cb_apiId b) = Some client
    /\ world s' = w3
    /\ trace s'
       = trace s
         ++ [ECall (NewTelegramClient (parseInt (cb_apiId b)) (Js.interp (cb_apiHash b)));
             ECall (Connect client);
             ECall (SignInUser client (parseInt (cb_apiId b)) (Js.interp (cb_apiHash b))
                      (Js.interp (cb_phoneNumber b)) (Js.interp (cb_code b))
                      (Js.or_str (cb_password b) EmptyString))].
Proof.
  intros Hid Hhash Hphone Hcode Hs Hnew Hconn Hc Hsign.
  unfold api_connect, try_catch. rewrite Hid, Hhash, Hphone. simpl.
  unfold bind at 1, sessions_get, gets. rewrite Hs.
  unfold bind at 1, invoke. rewrite Hnew.
  unfold bind at 1. simpl. rewrite Hconn.
  unfold bind at 1, client_connected, gets. simpl. rewrite Hc, Hcode. simpl.
  unfold bind, try_catch, invoke, client_session_save, sessions_set, gets, modify, ret.
  simpl. rewrite Hsign. eexists. split; [reflexivity|]. simpl.
  split; [apply lookup_insert_eq|]. split; [reflexivity|].
  by rewrite <- !app_assoc.
Qed.

End Registry.

Section Disconnection.

Context {R : Remote}.

Implicit Types (s : State) (client : ClientRef).

(** Disconnecting a key that is not registered is a successful no-op. *)
Lemma disconnect_absent_noop (b : DisconnectBody) s :
  sessions s !! sessionKey (db_phoneNumber b) (db_apiId b) = None ->
  api_disconnect b s = (s, inr (json (BMessage "Disconnected from Telegram"))).
Proof.
  intros Hs. unfold api_disconnect, try_catch, bind, sessions_get, gets, ret.
  rewrite Hs. reflexivity.
Qed.

Lemma api_disconnect_present (b : DisconnectBody) s client :
  sessions s !! sessionKey (db_phoneNumber b) (db_apiId b) = Some client ->
  exists s' res,
    api_disconnect b s = (s', inr res)
    /\ trace s' = trace s ++ [ECall (Disconnect client)]
    /\ commentingActive s' = commentingActive s
    /\ loops s' = loops s
    /\ ((res = json (BMessage "Disconnected from Telegram")
         /\ sessions s' = delete (sessionKey (db_phoneNumber b) (db_apiId b)) (sessions s))
        \/ (exists err, res = status_json 500 (BError err None) /\ sessions s' = sessions s)).
Proof.
  intros Hs. unfold api_disconnect, try_catch.
  unfold bind at 1. unfold bind at 1, sessions_get, gets. rewrite Hs.
  unfold bind, invoke, sessions_delete, modify, ret.
  destruct (tg unit (Disconnect client) (world s)) as [w' [e|[]]];
    eexists _, _; (split; [reflexivity|]); simpl; repeat split; eauto.
Qed.


(** X9. Disconnect is idempotent. Once a disconnect request has been
    answered with success, whether the key was registered or not, repeating
    it is a no-op: it makes no protocol call, leaves the state as it is and
    answers success again. *)
Theorem disconnect_idempotent (b : DisconnectBody) s s' res :
  api_disconnect b s = (s', inr res) ->
  success res = true ->
  api_disconnect b s' = (s', inr (json (BMessage "Disconnected from Telegram"))).
Proof.
  intros Hrun Hok.
  destruct (sessions s !! sessionKey (db_phoneNumber b) (db_apiId b)) as [client|] eqn:Hs.
  - destruct (api_disconnect_present b s client Hs)
      as (s1 & res1 & Hrun1 & _ & _ & _ & Hcases).
    rewrite Hrun in Hrun1. injection Hrun1 as <- <-.
    destruct Hcases as [[_ Hdel]|(err & -> & _)]; [|discriminate].
    apply disconnect_absent_noop. by rewrite Hdel, lookup_delete_eq.
  - rewrite (disconnect_absent_noop b s Hs) in Hrun. injection Hrun as <- _.
    by apply disconnect_absent_noop.
Qed.

(** The workflow handlers without a connected client under the request's
    key. *)
Lemma search_unconnected (b : SearchBody) s k ks :
  sb_keywords b = Some (k :: ks) ->
  has_connected s (sessionKey (sb_phoneNumber b) (sb_apiId b)) = false ->
  api_search_channels b s
  = (s, inr (status_json 401
               (BError "Not connected to Telegram. Please connect first." None))).
Proof.
  unfold has_connected. intros Hk Hc. unfold api_search_channels, try_catch. rewrite Hk.
  unfold bind at 1, sessions_get, gets.
  destruct (sessions s !! _) as [client|]; [|reflexivity].
  unfold bind, client_connected, gets, ret. by rewrite Hc.
Qed.

Lemma subscribe_unconnected (b : SubscribeBody) s :
  has_connected s (sessionKey (ub_phoneNumber b) (ub_apiId b)) = false ->
  api_subscribe b s = (s, inr (status_json 401 (BError "Not connected to Telegram" None))).
Proof.
  unfold has_connected. intros Hc. unfold api_subscribe, try_catch.
  unfold bind at 1, sessions_get, gets.
  destruct (sessions s !! _) as [client|]; [|reflexivity].
  unfold bind, client_connected, gets, ret. by rewrite Hc.
Qed.

Lemma comment_unconnected (b : CommentBody) s :
  has_connected s (sessionKey (mb_phoneNumber b) (mb_apiId b)) = false ->
  api_comment b s
  = (s, inr (Some (status_json 401 (BError "Not connected to Telegram" None)))).
Proof.
  unfold has_connected. intros Hc. unfold api_comment, try_catch.
  unfold bind at 1, sessions_get, gets.
  destruct (sessions s !! _) as [client|]; [|reflexivity].
  unfold bind, client_connected, gets, ret. by rewrite Hc.
Qed.

(** X11. A workflow request without a connected client under its key is
    refused with 401 and has no effect: search (with keywords), subscribe
    and comment leave the state, trace included, as it was; in particular a
    refused comment request does not set the commenting flag. *)
Theorem unconnected_requests_have_no_effect s (phoneNumber apiId : option string)
    (keywords links : list string) (k text : string) (lo hi interval : Z) :
  has_connected s (sessionKey phoneNumber apiId) = false ->
  api_search_channels
    {| sb_keywords := Some (k :: keywords); sb_minSubscribers := lo; sb_maxSubscribers := hi;
       sb_apiId := apiId; sb_phoneNumber := phoneNumber |} s
  = (s, inr (status_json 401
               (BError "Not connected to Telegram. Please connect first." None)))
  /\ api_subscribe
       {| ub_channelLinks := Some links; ub_apiId := apiId; ub_phoneNumber := phoneNumber |} s
     = (s, inr (status_json 401 (BError "Not connected to Telegram" None)))
  /\ api_comment
       {| mb_channelLinks := links; mb_commentText := text; mb_interval := interval;
          mb_apiId := apiId; mb_phoneNumber := phoneNumber |} s
     = (s, inr (Some (status_json 401 (BError "Not connected to Telegram" None)))).
Proof.
  intros Hc. split; [|split].
  - by eapply search_unconnected.
  - by apply subscribe_unconnected.
  - by apply comment_unconnected.
Qed.

(** X12. Disconnect revokes access: after a successful disconnect of a
    registered key, search, subscribe and comment requests for that key are
    refused with 401, and the refused comment request starts nothing. *)
Theorem disconnect_revokes_access (b : DisconnectBody) s client s' res
    (keywords links : list string) (k text : string) (lo hi interval : Z) :
  sessions s !! sessionKey (db_phoneNumber b) (db_apiId b) = Some client ->
  api_disconnect b s = (s', inr res) ->
  success res = true ->
  api_search_channels
    {| sb_keywords := Some (k :: keywords); sb_minSubscribers := lo; sb_maxSubscribers := hi;
       sb_apiId := db_apiId b; sb_phoneNumber := db_phoneNumber b |} s'
  = (s', inr (status_json 401
                (BError "Not connected to Telegram. Please connect first." None)))
  /\ api_subscribe
       {| ub_channelLinks := Some links; ub_apiId := db_apiId b;
          ub_phoneNumber := db_phoneNumber b |} s'
     = (s', inr (status_json 401 (BError "Not connected to Telegram" None)))
  /\ api_comment
       {| mb_channelLinks := links; mb_commentText := text; mb_interval := interval;
          mb_apiId := db_apiId b; mb_phoneNumber := db_phoneNumber b |} s'
     = (s', inr (Some (status_json 401 (BError "Not connected to Telegram" None)))).
Proof.
  intros Hs Hrun Hok.
  destruct (api_disconnect_present b s client Hs)
    as (s1 & res1 & Hrun1 & _ & _ & _ & Hcases).
  rewrite Hrun in Hrun1. injection Hrun1 as <- <-.
  destruct Hcases as [[_ Hdel]|(err & -> & _)]; [|discriminate].
  assert (Hc : has_connected s' (sessionKey (db_phoneNumber b) (db_apiId b)) = false).
  { unfold has_connected. by rewrite Hdel, lookup_delete_eq. }
  split; [|split].
  - by eapply search_unconnected.
  - by apply subscribe_unconnected.
  - by apply comment_unconnected.
Qed.

End Disconnection.

(** Connect and disconnect on the scripted platform. *)

Definition demo_init : @State Demo.remote := @init Demo.remote Demo.world0.

Definition demo_connect_no_apiId : ConnectBody :=
  {| cb_apiId := None; cb_apiHash := Some "abcdef";
     cb_phoneNumber := Some "+15550100"; cb_code := None; cb_password := None |}.

Definition demo_connect_bad_code : ConnectBody :=
  {| cb_apiId := Some "12345"; cb_apiHash := Some "abcdef";
     cb_phoneNumber := Some "+15550100"; cb_code := Some "00000"; cb_password := None |}.

Definition demo_disconnect_body : DisconnectBody :=
  {| db_apiId := Some "12345"; db_phoneNumber := Some "+15550100" |}.

Definition demo_world1 : Demo.World := {| Demo.next_client := 1; Demo.signed_in := [] |}.

Definition demo_world_signed_in : Demo.World :=
  {| Demo.next_client := 1; Demo.signed_in := [0%nat] |}.

Lemma connect_missing_fields_witness :
  @api_connect Demo.remote demo_connect_no_apiId demo_init
  = (demo_init,
     inr (status_json 400
            (BError "Missing required fields: apiId, apiHash, phoneNumber" None))).
Proof. apply (@connect_missing_fields Demo.remote). reflexivity. Defined.

Lemma connect_already_connected_witness :
  @api_connect Demo.remote Demo.connect_with_code Demo.registered
  = (Demo.registered,
     inr (json (BSession "Already connected"
                  (@session_save Demo.remote (world Demo.registered) 0%nat))))
  /\ @api_connect Demo.remote Demo.connect_with_code
       (fst (@api_connect Demo.remote Demo.connect_with_code Demo.registered))
     = @api_connect Demo.remote Demo.connect_with_code Demo.registered.
Proof.
  apply (@connect_already_connected Demo.remote Demo.connect_with_code Demo.registered 0%nat).
  - reflexivity.
  - reflexivity.
  - reflexivity.
  - vm_compute. reflexivity.
  - reflexivity.
Defined.

Lemma connect_registers_only_on_progress_witness :
  exists s' res,
    @api_connect Demo.remote demo_connect_bad_code demo_init = (s', inr res)
    /\ (status res = 200 \/ status res = 400 \/ status res = 500)
    /\ registry_effect demo_connect_bad_code demo_init s' res
    /\ (status res <> 200 \/ (exists msg, body res = BNeedsPassword msg) ->
        sessions s' = sessions demo_init).
Proof.
  apply (@connect_registers_only_on_progress Demo.remote demo_connect_bad_code demo_init).
Defined.

Lemma connect_sign_in_failure_witness :
  exists s',
    @api_connect Demo.remote demo_connect_bad_code demo_init
    = (s', inr (status_json 400 (BError "Invalid verification code" None)))
    /\ sessions s' = sessions demo_init
    /\ world s' = demo_world1.
Proof.
  apply (@connect_sign_in_failure Demo.remote demo_connect_bad_code demo_init 0%nat
           demo_world1 demo_world1 demo_world1 "PHONE_CODE_INVALID");
    reflexivity.
Defined.

Lemma connect_sign_in_success_witness :
  exists s',
    @api_connect Demo.remote Demo.connect_with_code demo_init
    = (s', inr (json (BSession "Successfully connected to Telegram" "1BQANOTEuMTA4")))
    /\ sessions s' !! "+15550100_12345" = Some 0%nat
    /\ world s' = demo_world_signed_in
    /\ trace s'
       = trace demo_init
         ++ [ECall (NewTelegramClient (Some 12345) "abcdef");
             ECall (Connect 0%nat);
             ECall (SignInUser 0%nat (Some 12345) "abcdef" "+15550100" "12345" EmptyString)].
Proof.
  apply (@connect_sign_in_success Demo.remote Demo.connect_with_code demo_init 0%nat
           demo_world1 demo_world1 demo_world_signed_in);
    reflexivity.
Defined.

Lemma disconnect_idempotent_witness :
  @api_disconnect Demo.remote demo_disconnect_body
    (fst (@api_disconnect Demo.remote demo_disconnect_body Demo.registered))
  = (fst (@api_disconnect Demo.remote demo_disconnect_body Demo.registered),
     inr (json (BMessage "Disconnected from Telegram"))).
Proof.
  apply (@disconnect_idempotent Demo.remote demo_disconnect_body Demo.registered
           (fst (@api_disconnect Demo.remote demo_disconnect_body Demo.registered))
           (json (BMessage "Disconnected from Telegram"))).
  - vm_compute. reflexivity.
  - reflexivity.
Defined.


Lemma unconnected_requests_have_no_effect_witness :
  @api_search_channels Demo.remote (Demo.search_body ["news"] 1000 5000) demo_init
  = (demo_init,
     inr (status_json 401 (BError "Not connected to Telegram. Please connect first." None)))
  /\ @api_subscribe Demo.remote Demo.subscribe_body demo_init
     = (demo_init, inr (status_json 401 (BError "Not connected to Telegram" None)))
  /\ @api_comment Demo.remote Demo.comment_body demo_init
     = (demo_init, inr (Some (status_json 401 (BError "Not connected to Telegram" None)))).
Proof.
  apply (@unconnected_requests_have_no_effect Demo.remote demo_init (Some "+15550100")
           (Some "12345") [] ["https://t.me/foo"; "@bar"] "news" "hello" 1000 5000 60).
  reflexivity.
Defined.

Definition demo_disconnected : @State Demo.remote :=
  fst (@api_disconnect Demo.remote demo_disconnect_body Demo.registered).

Lemma disconnect_revokes_access_witness :
  @api_search_channels Demo.remote (Demo.search_body ["news"] 1000 5000) demo_disconnected
  = (demo_disconnected,
     inr (status_json 401 (BError "Not connected to Telegram. Please connect first." None)))
  /\ @api_subscribe Demo.remote Demo.subscribe_body demo_disconnected
     = (demo_disconnected, inr (status_json 401 (BError "Not connected to Telegram" None)))
  /\ @api_comment Demo.remote Demo.comment_body demo_disconnected
     = (demo_disconnected,
        inr (Some (status_json 401 (BError "Not connected to Telegram" None)))).
Proof.
  apply (@disconnect_revokes_access Demo.remote demo_disconnect_body Demo.registered 0%nat
           demo_disconnected (json (BMessage "Disconnected from Telegram"))
           [] ["https://t.me/foo"; "@bar"] "news" "hello" 1000 5000 60).
  - vm_compute. reflexivity.
  - vm_compute. reflexivity.
  - reflexivity.
Defined.

(** ** What discovery and subscription do on the wire *)

Definition is_search (e : event) : bool :=
  match e with
  | ECall (ContactsSearch _ _ _) => true
  | _ => false
  end.

Definition is_fullChannel (e : event) : bool :=
  match e with
  | ECall (GetFullChannel _ _) => true
  | _ => false
  end.

Definition is_getEntity (e : event) : bool :=
  match e with
  | ECall (GetEntity _ _) => true
  | _ => false
  end.

Definition is_join (e : event) : bool :=
  match e with
  | ECall (JoinChannel _ _) => true
  | _ => false
  end.

Definition is_disconnect (e : event) : bool :=
  match e with
  | ECall (Disconnect _) => true
  | _ => false
  end.

(** A timer of exactly [ms] milliseconds. *)
Definition is_pause (ms : Z) (e : event) : bool :=
  match e with
  | ESleep ms' => bool_decide (ms' = ms)
  | _ => false
  end.

Definition count (p : event -> bool) (events : list event) : nat :=
  length (filter (fun e => p e = true) events).

Lemma count_app (p : event -> bool) (l1 l2 : list event) :
  count p (l1 ++ l2) = (count p l1 + count p l2)%nat.
Proof. unfold count. by rewrite filter_app, length_app. Qed.

Lemma count_cons (p : event -> bool) (e : event) (l : list event) :
  count p (e :: l) = ((if p e then 1 else 0) + count p l)%nat.
Proof.
  unfold count. rewrite filter_cons.
  destruct (p e); case_decide; try congruence; reflexivity.
Qed.

Lemma count_nil (p : event -> bool) : count p [] = 0%nat.
Proof. reflexivity. Qed.

(** The only things discovery does: searches, metadata fetches and its two
    timers. *)
Definition search_event (e : event) : bool :=
  is_search e || is_fullChannel e || is_pause 100 e || is_pause 500 e.

(** The only things subscription does: entity lookups, joins and its timer. *)
Definition subscribe_event (e : event) : bool :=
  is_getEntity e || is_join e || is_pause 2000 e.

(** The wire footprint of discovery over [n] keywords. *)
Definition search_footprint (n : nat) (events : list event) : Prop :=
  count is_search events = n
  /\ count is_fullChannel events = count (is_pause 100) events
  /\ (count (is_pause 500) events <= n)%nat
  /\ Forall (fun e => search_event e = true) events.

(** The wire footprint of the chat loop of one keyword. *)
Definition chats_footprint (n : nat) (events : list event) : Prop :=
  count is_search events = 0%nat
  /\ count is_fullChannel events = count (is_pause 100) events
  /\ count (is_pause 500) events = 0%nat
  /\ Forall (fun e => search_event e = true) events.

Section Wire.

Context {R : Remote}.

Implicit Types (s : State) (client : ClientRef).

(** A [for ... of] whose iterations never throw, seen on the trace: the
    footprints of the iterations add up. *)
Lemma for_of_trace {A B} (f : B -> A -> M B) (P : nat -> list event -> Prop) :
  P 0%nat [] ->
  (forall n m a b, P n a -> P m b -> P (n + m)%nat (a ++ b)) ->
  (forall b x s, exists s' b' evs,
      f b x s = (s', inr b') /\ trace s' = trace s ++ evs /\ P 1%nat evs) ->
  forall l b s, exists s' b' evs,
    for_of f l b s = (s', inr b') /\ trace s' = trace s ++ evs /\ P (length l) evs.
Proof.
  intros H0 Happ Hf l. induction l as [|x l IH]; intros b s; simpl.
  - exists s, b, []. rewrite app_nil_r. auto.
  - unfold bind. destruct (Hf b x s) as (s1 & b1 & evs1 & -> & Htr1 & HP1).
    destruct (IH b1 s1) as (s2 & b2 & evs2 & -> & Htr2 & HP2).
    exists s2, b2, (evs1 ++ evs2). split; [reflexivity|].
    split; [by rewrite Htr2, Htr1, app_assoc|].
    apply (Happ 1%nat (length l)); assumption.
Qed.

Lemma chats_footprint_nil : chats_footprint 0 [].
Proof. repeat split. constructor. Qed.

Lemma chats_footprint_app n m a b :
  chats_footprint n a -> chats_footprint m b -> chats_footprint (n + m) (a ++ b).
Proof.
  intros (H1 & H2 & H3 & H4) (H1' & H2' & H3' & H4'). unfold chats_footprint.
  rewrite !count_app. repeat split; try lia. by apply Forall_app.
Qed.

Lemma search_footprint_nil : search_footprint 0 [].
Proof. repeat split; [|constructor]. rewrite count_nil. lia. Qed.

Lemma search_footprint_app n m a b :
  search_footprint n a -> search_footprint m b -> search_footprint (n + m) (a ++ b).
Proof.
  intros (H1 & H2 & H3 & H4) (H1' & H2' & H3' & H4'). unfold search_footprint.
  rewrite !count_app. repeat split; try lia. by apply Forall_app.
Qed.

Lemma process_chat_trace client lo hi keyword acc chat s :
  exists s' acc' evs,
    process_chat client lo hi keyword acc chat s = (s', inr acc')
    /\ trace s' = trace s ++ evs
    /\ chats_footprint 1 evs.
Proof.
  destruct acc as [allChannels seenIds]. unfold process_chat.
  destruct (is_candidate seenIds chat).
  - unfold bind, try_catch, invoke, sleep, modify, ret.
    destruct (tg ChatFull (GetFullChannel client chat) (world s)) as [w' [e|fullChat]];
      [|destruct (meetsCriteria _ lo hi); [destruct (hasDiscussion fullChat)|]];
      eexists _, _, [ECall (GetFullChannel client chat); ESleep 100];
      (split; [reflexivity|]); simpl; (split; [by rewrite <- app_assoc|]);
      repeat split; repeat constructor.
  - exists s, (allChannels, seenIds), []. rewrite app_nil_r.
    repeat split. constructor.
Qed.

Lemma search_keyword_trace client lo hi acc keyword s :
  exists s' acc' evs,
    search_keyword client lo hi acc keyword s = (s', inr acc')
    /\ trace s' = trace s ++ evs
    /\ search_footprint 1 evs.
Proof.
  unfold search_keyword, try_catch, bind at 1, invoke.
  destruct (tg (list Chat) (ContactsSearch client keyword 50) (world s)) as [w' [e|chats]].
  { eexists _, _, [ECall (ContactsSearch client keyword 50)].
    split; [reflexivity|]. split; [reflexivity|].
    repeat split; try (rewrite ?count_cons, ?count_nil; simpl; lia). repeat constructor. }
  unfold bind at 1.
  destruct (for_of_trace (process_chat client lo hi keyword) chats_footprint
              chats_footprint_nil chats_footprint_app
              (fun b x s0 => process_chat_trace client lo hi keyword b x s0)
              chats acc
              (log_event (ECall (ContactsSearch client keyword 50)) (set_world w' s)))
    as (s1 & acc1 & evs & -> & Htr & H1 & H2 & H3 & H4).
  unfold bind, sleep, modify, ret.
  eexists _, _, (ECall (ContactsSearch client keyword 50) :: evs ++ [ESleep 500]).
  split; [reflexivity|]. simpl in *. split.
  { rewrite Htr, <- !app_assoc. reflexivity. }
  unfold search_footprint. rewrite !count_cons, !count_app, !count_cons, !count_nil. simpl.
  repeat split; try lia.
  constructor; [reflexivity|]. apply Forall_app. split; [exact H4|]. repeat constructor.
Qed.

(** The handler on a connected client is its keyword loop. *)
Lemma api_search_run (b : SearchBody) s client k ks s' acc :
  sb_keywords b = Some (k :: ks) ->
  sessions s !! sessionKey (sb_phoneNumber b) (sb_apiId b) = Some client ->
  connected (world s) client = true ->
  for_of (search_keyword client (sb_minSubscribers b) (sb_maxSubscribers b)) (k :: ks)
    ([], ∅) s = (s', inr acc) ->
  api_search_channels b s = (s', inr (json (BChannels (fst acc) (length (fst acc))))).
Proof.
  intros Hk Hs Hc Hrun. unfold api_search_channels, try_catch. rewrite Hk.
  unfold bind at 1, sessions_get, gets. rewrite Hs.
  unfold bind at 1, client_connected, gets. rewrite Hc.
  unfold bind at 1. rewrite Hrun. reflexivity.
Qed.

(** Counts on the wire of a discovery call: one search call per keyword,
    as many 100 ms timers as metadata fetches, at most one 500 ms timer per
    keyword, and nothing else. *)
Lemma search_wire_footprint (b : SearchBody) s s' channels total :
  api_search_channels b s = (s', inr (json (BChannels channels total))) ->
  exists keywords evs,
    sb_keywords b = Some keywords
    /\ trace s' = trace s ++ evs
    /\ count is_search evs = length keywords
    /\ count is_fullChannel evs = count (is_pause 100) evs
    /\ (count (is_pause 500) evs <= length keywords)%nat
    /\ Forall (fun e => search_event e = true) evs.
Proof.
  intros Hrun.
  destruct (api_search_channels_cases b s) as (s1 & res & Hrun' & Hcases).
  rewrite Hrun in Hrun'. injection Hrun' as <- <-.
  destruct Hcases as [[Hres _]|[[Hres _]|Hok]]; try discriminate.
  destruct Hok as (all & seen & k & ks & client & _ & Hk & Hs & Hc & _).
  destruct (for_of_trace
              (search_keyword client (sb_minSubscribers b) (sb_maxSubscribers b))
              search_footprint search_footprint_nil search_footprint_app
              (fun a x s0 => search_keyword_trace client _ _ a x s0)
              (k :: ks) ([], ∅) s)
    as (s2 & acc & evs & Hfor & Htr & H1 & H2 & H3 & H4).
  rewrite (api_search_run b s client k ks s2 acc Hk Hs Hc Hfor) in Hrun.
  injection Hrun as <- _ _.
  exists (k :: ks), evs. auto 10.
Qed.

End Wire.

Section SubscriptionWire.

Context {R : Remote}.

Implicit Types (s : State) (client : ClientRef).

Lemma joined_app (l1 l2 : list SubscriptionResult) :
  joined (l1 ++ l2) = (joined l1 + joined l2)%nat.
Proof. unfold joined. by rewrite filter_app, length_app. Qed.

Lemma joined_cons (r : SubscriptionResult) (rs : list SubscriptionResult) :
  joined (r :: rs) = ((if sr_success r then 1 else 0) + joined rs)%nat.
Proof.
  unfold joined. rewrite filter_cons.
  destruct (sr_success r); case_decide; try congruence; reflexivity.
Qed.

(** One join attempt on the wire: one entity lookup, a join only if the
    lookup returned, the 2 s timer only if the join returned. *)
Lemma join_link_trace client results link s :
  exists s' r evs,
    join_link client results link s = (s', inr (results ++ [r]))
    /\ trace s' = trace s ++ evs
    /\ count is_getEntity evs = 1%nat
    /\ count (is_pause 2000) evs = (if sr_success r then 1 else 0)%nat
    /\ (count (is_pause 2000) evs <= count is_join evs <= 1)%nat
    /\ Forall (fun e => subscribe_event e = true) evs.
Proof.
  unfold join_link, try_catch, bind, invoke, sleep, modify, ret.
  destruct (tg Entity (GetEntity client (normalize link)) (world s)) as [w1 [e|channel]].
  { eexists _, _, [_]. split; [reflexivity|]. split; [reflexivity|].
    rewrite !count_cons, !count_nil. simpl. repeat split; try lia. repeat constructor. }
  simpl. destruct (tg unit (JoinChannel client channel) w1) as [w2 [e|[]]].
  { eexists _, _, [_; _]. split; [reflexivity|]. simpl.
    split; [by rewrite <- app_assoc|].
    rewrite !count_cons, !count_nil. simpl. repeat split; try lia. repeat constructor. }
  eexists _, _, [_; _; _]. split; [reflexivity|]. simpl.
  split; [by rewrite <- !app_assoc|].
  rewrite !count_cons, !count_nil. simpl. repeat split; try lia. repeat constructor.
Qed.

Lemma join_links_trace client links : forall results s,
  exists s' rs evs,
    for_of (join_link client) links results s = (s', inr (results ++ rs))
    /\ trace s' = trace s ++ evs
    /\ count is_getEntity evs = length links
    /\ count (is_pause 2000) evs = joined rs
    /\ (joined rs <= count is_join evs <= length links)%nat
    /\ Forall (fun e => subscribe_event e = true) evs.
Proof.
  induction links as [|link links IH]; intros results s.
  - exists s, [], []. simpl. rewrite !app_nil_r. repeat split; try (cbv; lia). constructor.
  - simpl. unfold bind.
    destruct (join_link_trace client results link s)
      as (s1 & r & evs1 & -> & Htr1 & Hg1 & Hp1 & Hj1 & Hall1).
    destruct (IH (results ++ [r]) s1) as (s2 & rs & evs2 & -> & Htr2 & Hg2 & Hp2 & Hj2 & Hall2).
    exists s2, (r :: rs), (evs1 ++ evs2). rewrite <- app_assoc. split; [reflexivity|].
    split; [by rewrite Htr2, Htr1, app_assoc|].
    rewrite !count_app, joined_cons.
    destruct (sr_success r); repeat split; try lia; by apply Forall_app.
Qed.

(** The handler on a connected client is its link loop. *)
Lemma api_subscribe_run (b : SubscribeBody) s client links s' results :
  sessions s !! sessionKey (ub_phoneNumber b) (ub_apiId b) = Some client ->
  connected (world s) client = true ->
  ub_channelLinks b = Some links ->
  for_of (join_link client) links [] s = (s', inr results) ->
  api_subscribe b s = (s', inr (json (BSubscribed results (joined results) (failed results)))).
Proof.
  intros Hs Hc Hl Hrun. unfold api_subscribe, try_catch.
  unfold bind at 1, sessions_get, gets. rewrite Hs.
  unfold bind at 1, client_connected, gets. rewrite Hc, Hl.
  unfold bind. rewrite Hrun. reflexivity.
Qed.

(** X14. The wire footprint of a subscribe call. A subscription that
    answers with a results list has made exactly one entity lookup per
    link and at most one join per link, and has run the 2 s pacing timer
    once per successful join and never after a failed attempt: the number
    of timers equals [joined]. It has done nothing else. *)
Theorem subscribe_wire_footprint (b : SubscribeBody) s s' results j f :
  api_subscribe b s = (s', inr (json (BSubscribed results j f))) ->
  exists evs,
    trace s' = trace s ++ evs
    /\ count is_getEntity evs = length results
    /\ count (is_pause 2000) evs = j
    /\ (j <= count is_join evs <= length results)%nat
    /\ Forall (fun e => subscribe_event e = true) evs.
Proof.
  intros Hrun.
  destruct (api_subscribe_cases b s) as (s1 & res & Hrun' & Hcases).
  rewrite Hrun in Hrun'. injection Hrun' as <- <-.
  destruct Hcases as [[Hres _]|[[Hres _]|Hok]]; try discriminate.
  destruct Hok as (client & links & results' & _ & Hs & Hc & Hl & _).
  destruct (join_links_trace client links [] s)
    as (s2 & rs & evs & Hfor & Htr & Hg & Hp & Hj & Hall).
  simpl in Hfor.
  rewrite (api_subscribe_run b s client links s2 rs Hs Hc Hl Hfor) in Hrun.
  injection Hrun as <- <- <- _.
  assert (Hlen : length rs = length links).
  { destruct (join_links_spec client links [] s) as (s3 & rs' & Hfor' & Hcs & _).
    simpl in Hfor'. rewrite Hfor in Hfor'. injection Hfor' as _ <-.
    by rewrite <- (length_map sr_channel rs), Hcs. }
  exists evs. rewrite Hlen. auto.
Qed.

End SubscriptionWire.

Lemma search_wire_footprint_witness :
  exists keywords evs,
    Some ["down"; "tech"; "news"] = Some keywords
    /\ trace (fst (demo_search ["down"; "tech"; "news"] 1000 5000))
       = trace Demo.registered ++ evs
    /\ count is_search evs = length keywords
    /\ count is_fullChannel evs = count (is_pause 100) evs
    /\ (count (is_pause 500) evs <= length keywords)%nat
    /\ Forall (fun e => search_event e = true) evs.
Proof.
  apply (@search_wire_footprint Demo.remote
           (Demo.search_body ["down"; "tech"; "news"] 1000 5000) Demo.registered
           (fst (demo_search ["down"; "tech"; "news"] 1000 5000))
           (demo_channels ["down"; "tech"; "news"] 1000 5000) 2%nat).
  vm_compute. reflexivity.
Defined.

(** Three searches, five metadata fetches each followed by its timer, and
    two keyword timers: the throttled keyword has none. *)
Example demo_search_counts :
  let evs := drop 3 (trace (fst (demo_search ["down"; "tech"; "news"] 1000 5000))) in
  (count is_search evs, count is_fullChannel evs, count (is_pause 100) evs,
   count (is_pause 500) evs)
  = (3, 5, 5, 2)%nat.
Proof. vm_compute. reflexivity. Qed.

Lemma subscribe_wire_footprint_witness :
  exists evs,
    trace (fst demo_subscribe) = trace Demo.registered ++ evs
    /\ count is_getEntity evs = length demo_results
    /\ count (is_pause 2000) evs = 1%nat
    /\ (1 <= count is_join evs <= length demo_results)%nat
    /\ Forall (fun e => subscribe_event e = true) evs.
Proof.
  apply (@subscribe_wire_footprint Demo.remote Demo.subscribe_body Demo.registered
           (fst demo_subscribe) demo_results 1%nat 1%nat).
  vm_compute. reflexivity.
Defined.

(** ** The process as a whole *)

Section Process.

Context {R : Remote}.

Implicit Types (s : State) (client : ClientRef) (l : Loop) (i : nat).

(** *** Who may touch the registry *)

(** [m] does not touch the session registry. *)
Definition keeps_sessions {A} (m : M A) : Prop :=
  forall s, sessions (fst (m s)) = sessions s.

Lemma keeps_sessions_ret {A} (a : A) : keeps_sessions (ret a).
Proof. by intros s. Qed.

Lemma keeps_sessions_throw {A} (e : Exn) : keeps_sessions (@throw R A e).
Proof. by intros s. Qed.

Lemma keeps_sessions_gets {A} (f : State -> A) : keeps_sessions (gets f).
Proof. by intros s. Qed.

Lemma keeps_sessions_invoke {A} (c : call A) : keeps_sessions (invoke c).
Proof. intros s. unfold invoke. by destruct (tg A c (world s)). Qed.

Lemma keeps_sessions_sleep ms : keeps_sessions (sleep ms).
Proof. by intros s. Qed.

Lemma keeps_sessions_modify_flag (flag : bool) :
  keeps_sessions (modify (set_commentingActive flag)).
Proof. by intros s. Qed.

Lemma keeps_sessions_modify_loops (f : State -> list Loop) :
  keeps_sessions (modify (fun s => set_loops (f s) s)).
Proof. by intros s. Qed.

Lemma keeps_sessions_bind {A B} (m : M A) (k : A -> M B) :
  keeps_sessions m -> (forall a, keeps_sessions (k a)) -> keeps_sessions (bind m k).
Proof.
  intros Hm Hk s. unfold bind. specialize (Hm s).
  destruct (m s) as [s1 [e|a]]; simpl in *; [exact Hm|].
  rewrite <- Hm. apply Hk.
Qed.

Lemma keeps_sessions_try_catch {A} (m : M A) (h : Exn -> M A) :
  keeps_sessions m -> (forall e, keeps_sessions (h e)) -> keeps_sessions (try_catch m h).
Proof.
  intros Hm Hh s. unfold try_catch. specialize (Hm s).
  destruct (m s) as [s1 [e|a]]; simpl in *; [|exact Hm].
  rewrite <- Hm. apply Hh.
Qed.

Lemma keeps_sessions_for_of {A B} (f : B -> A -> M B) (xs : list A) :
  (forall b x, keeps_sessions (f b x)) -> forall b, keeps_sessions (for_of f xs b).
Proof.
  intros Hf. induction xs as [|x xs IH]; intros b; simpl.
  - apply keeps_sessions_ret.
  - apply keeps_sessions_bind; [apply Hf | apply IH].
Qed.

Create HintDb registry.

Hint Resolve keeps_sessions_ret keeps_sessions_throw keeps_sessions_gets
  keeps_sessions_invoke keeps_sessions_sleep keeps_sessions_modify_flag
  keeps_sessions_modify_loops : registry.

Ltac registry_step :=
  match goal with
  | |- keeps_sessions (bind _ _) => apply keeps_sessions_bind
  | |- keeps_sessions (try_catch _ _) => apply keeps_sessions_try_catch
  | |- keeps_sessions (for_of _ _ _) => apply keeps_sessions_for_of
  | |- keeps_sessions (attempt _) => unfold attempt
  | |- keeps_sessions (sessions_get _) => unfold sessions_get
  | |- keeps_sessions (client_connected _) => unfold client_connected
  | |- keeps_sessions (if ?c then _ else _) => destruct c
  | |- keeps_sessions (match ?x with _ => _ end) => destruct x
  | |- forall _, _ => intro
  | |- keeps_sessions _ => solve [auto with registry]
  end.

Ltac registry_auto := repeat registry_step.

Lemma keeps_sessions_process_chat client lo hi keyword acc chat :
  keeps_sessions (process_chat client lo hi keyword acc chat).
Proof. unfold process_chat. registry_auto. Qed.

Lemma keeps_sessions_search_keyword client lo hi acc keyword :
  keeps_sessions (search_keyword client lo hi acc keyword).
Proof. unfold search_keyword. registry_auto. apply keeps_sessions_process_chat. Qed.

Lemma keeps_sessions_api_search_channels (b : SearchBody) :
  keeps_sessions (api_search_channels b).
Proof.
  unfold api_search_channels. registry_auto; apply keeps_sessions_search_keyword.
Qed.

Lemma keeps_sessions_join_link client results link :
  keeps_sessions (join_link client results link).
Proof. unfold join_link. registry_auto. Qed.

Lemma keeps_sessions_api_subscribe (b : SubscribeBody) : keeps_sessions (api_subscribe b).
Proof. unfold api_subscribe. registry_auto; apply keeps_sessions_join_link. Qed.

Lemma keeps_sessions_api_comment (b : CommentBody) : keeps_sessions (api_comment b).
Proof. unfold api_comment. registry_auto. Qed.

Lemma keeps_sessions_api_stop_commenting : keeps_sessions api_stop_commenting.
Proof. unfold api_stop_commenting. registry_auto. Qed.

Lemma keeps_sessions_resume l : keeps_sessions (resume l).
Proof. unfold resume. destruct (lp_pc l); registry_auto. Qed.

(** X15. Discovery and subscription are read-only on the server: whatever
    the request and whatever the protocol answers, a search or a subscribe
    call leaves the session registry, the commenting flag and the comment
    loops as they were. *)
Theorem workflows_leave_server_state (sb : SearchBody) (ub : SubscribeBody) s :
  (sessions (fst (api_search_channels sb s)) = sessions s
   /\ commentingActive (fst (api_search_channels sb s)) = commentingActive s
   /\ loops (fst (api_search_channels sb s)) = loops s)
  /\ (sessions (fst (api_subscribe ub s)) = sessions s
      /\ commentingActive (fst (api_subscribe ub s)) = commentingActive s
      /\ loops (fst (api_subscribe ub s)) = loops s).
Proof.
  destruct (keeps_api_search_channels sb s) as [H1 H2].
  destruct (keeps_api_subscribe ub s) as [H3 H4].
  pose proof (keeps_sessions_api_search_channels sb s).
  pose proof (keeps_sessions_api_subscribe ub s).
  auto 10.
Qed.

(** *** Who may touch the flag *)

Definition is_stop (lbl : label) : bool :=
  match lbl with
  | Request PostStopCommenting => true
  | _ => false
  end.

(** Requests that go to the connect or the disconnect handler. *)
Definition is_registry (lbl : label) : bool :=
  match lbl with
  | Request (PostConnect _) | Request (PostDisconnect _) => true
  | _ => false
  end.

Lemma step_flag (lbl : label) s s' :
  step lbl s = Some s' ->
  is_start lbl = false -> is_stop lbl = false ->
  commentingActive s' = commentingActive s.
Proof.
  unfold step. destruct (hung s); [discriminate|]. destruct lbl as [r|i].
  - intros [= <-] Hstart Hstop.
    assert (Hk : forall (m : M Response),
               keeps m ->
               commentingActive (fst (bind m (fun res => ret (Some res)) s))
               = commentingActive s).
    { intros m Hm.
      by destruct (keeps_bind m (fun res => ret (Some res)) Hm (fun a => keeps_ret _) s). }
    destruct r; simpl in *; try discriminate.
    + apply Hk, keeps_api_connect.
    + apply Hk, keeps_api_search_channels.
    + apply Hk, keeps_api_subscribe.
    + apply Hk, keeps_api_disconnect.
  - intros Hstep _ _.
    destruct (loops s !! i) as [l|]; [|discriminate].
    destruct (running l); [|discriminate].
    pose proof (keeps_resume l s) as [_ Hflag].
    destruct (resume l s) as [s1 [e|l']]; [discriminate|].
    injection Hstep as <-. exact Hflag.
Qed.

Lemma step_sessions (lbl : label) s s' :
  step lbl s = Some s' ->
  is_registry lbl = false ->
  sessions s' = sessions s.
Proof.
  unfold step. destruct (hung s); [discriminate|]. destruct lbl as [r|i].
  - intros [= <-] Hreg.
    assert (Hk : forall (m : M Response),
               keeps_sessions m ->
               sessions (fst (bind m (fun res => ret (Some res)) s)) = sessions s).
    { intros m Hm.
      apply (keeps_sessions_bind m (fun res => ret (Some res)) Hm
               (fun a => keeps_sessions_ret _) s). }
    destruct r; simpl in *; try discriminate.
    + apply Hk, keeps_sessions_api_search_channels.
    + apply Hk, keeps_sessions_api_subscribe.
    + apply keeps_sessions_api_comment.
    + reflexivity.
  - intros Hstep _.
    destruct (loops s !! i) as [l|]; [|discriminate].
    destruct (running l); [|discriminate].
    pose proof (keeps_sessions_resume l s) as Hs.
    destruct (resume l s) as [s1 [e|l']]; [discriminate|].
    injection Hstep as <-. exact Hs.
Qed.

(** X16. Separation of concerns along any run of the process. The
    commenting flag changes only at a start or a stop request: a run
    without either keeps it. The session registry changes only at a
    connect or a disconnect request: a run without either keeps it; in
    particular the comment loops never touch the registry or the flag. *)
Theorem flag_and_registry_owners (lbls : list label) s s' :
  run lbls s = Some s' ->
  (Forall (fun lbl => is_start lbl = false /\ is_stop lbl = false) lbls ->
   commentingActive s' = commentingActive s)
  /\ (Forall (fun lbl => is_registry lbl = false) lbls ->
      sessions s' = sessions s).
Proof.
  revert s. induction lbls as [|lbl lbls IH]; intros s Hrun; simpl in Hrun.
  - injection Hrun as <-. auto.
  - destruct (step lbl s) as [s1|] eqn:Hstep; [|discriminate].
    destruct (IH s1 Hrun) as [Hflag Hreg]. split; intros Hall;
      apply Forall_cons in Hall as [Hlbl Hall].
    + destruct Hlbl as [H1 H2]. rewrite (Hflag Hall). by eapply step_flag.
    + rewrite (Hreg Hall). by eapply step_sessions.
Qed.

End Process.

(** ** Starting, running and shutting down *)

Section Lifecycle.

Context {R : Remote}.

Implicit Types (s : State) (client : ClientRef) (l : Loop) (i : nat).

(** The loop a start request launches, as it is when the handler responds. *)
Definition launched (client : ClientRef) (b : CommentBody) : Loop :=
  {| lp_client := client;
     lp_channelLinks := mb_channelLinks b;
     lp_commentText := mb_commentText b;
     lp_interval := mb_interval b;
     lp_pc := while_head true (mb_channelLinks b) |}.

Lemma api_comment_connected (b : CommentBody) s client :
  sessions s !! sessionKey (mb_phoneNumber b) (mb_apiId b) = Some client ->
  connected (world s) client = true ->
  api_comment b s
  = (set_loops (loops s ++ [launched client b]) (set_commentingActive true s),
     inr (if is_spinning (launched client b) then None
          else Some (json (BCommenting "Commenting started" (mb_interval b)
                             (length (mb_channelLinks b)))))).
Proof.
  intros Hs Hc. unfold api_comment, try_catch.
  unfold bind at 1, sessions_get, gets. rewrite Hs.
  unfold bind at 1, client_connected, gets. rewrite Hc.
  unfold bind, modify, gets, launched. simpl.
  by destruct (is_spinning _).
Qed.

Lemma hung_app (ls : list Loop) l :
  existsb is_spinning (ls ++ [l]) = existsb is_spinning ls || is_spinning l.
Proof. rewrite existsb_app. simpl. by rewrite orb_false_r. Qed.

(** X17. An accepted start. On a process that is not hung, a comment
    request for a connected client with at least one channel answers
    [Commenting started] with the number of channels without waiting for
    the loop it launches: when the answer is written no protocol call has
    completed (the trace is unchanged) and the new loop is suspended on its
    first [await]. The request sets the flag and adds this one loop behind
    the loops already there, which it leaves alone. The first operation the
    new loop completes when it is resumed is the entity lookup of its first
    channel, normalized. *)
Theorem comment_start_accepted (b : CommentBody) s client link rest :
  hung s = false ->
  sessions s !! sessionKey (mb_phoneNumber b) (mb_apiId b) = Some client ->
  connected (world s) client = true ->
  mb_channelLinks b = link :: rest ->
  exists s1 s2,
    api_comment b s
    = (s1, inr (Some (json (BCommenting "Commenting started" (mb_interval b)
                              (S (length rest))))))
    /\ step (Request (PostComment b)) s = Some s1
    /\ trace s1 = trace s
    /\ commentingActive s1 = true
    /\ loops s1 = loops s ++ [launched client b]
    /\ step (Resume (length (loops s))) s1 = Some s2
    /\ trace s2 = trace s ++ [ECall (GetEntity client (normalize link))].
Proof.
  intros Hh Hs Hc Hl.
  pose proof (api_comment_connected b s client Hs Hc) as Hrun.
  assert (Hpc : lp_pc (launched client b) = AtGetEntity (normalize link) rest).
  { unfold launched. simpl. by rewrite Hl. }
  assert (Hsp : is_spinning (launched client b) = false).
  { unfold is_spinning. by rewrite Hpc. }
  rewrite Hsp, Hl in Hrun. simpl in Hrun.
  set (s1 := set_loops (loops s ++ [launched client b]) (set_commentingActive true s)) in *.
  assert (Hh1 : hung s1 = false).
  { unfold hung. simpl. rewrite hung_app, Hsp. unfold hung in Hh. by rewrite Hh. }
  assert (Hl1 : loops s1 !! length (loops s) = Some (launched client b)).
  { simpl. by rewrite lookup_app_r, Nat.sub_diag. }
  destruct (resume (launched client b) s1) as [s2' r] eqn:Hres.
  assert (Hres' : exists l', r = inr l' /\ trace s2' = trace s ++ [ECall (GetEntity client (normalize link))]).
  { unfold resume in Hres. rewrite Hpc in Hres.
    unfold bind, attempt, try_catch, bind, invoke, ret in Hres. simpl in Hres.
    destruct (tg Entity (GetEntity client (normalize link)) (world s)) as [w' [e|channel]];
      injection Hres as <- <-; eauto. }
  destruct Hres' as (l' & -> & Htr).
  exists s1, (set_loops (<[length (loops s) := l']> (loops s1)) s2').
  split; [exact Hrun|]. split.
  { unfold step. rewrite Hh. simpl. by rewrite Hrun. }
  repeat split; try done.
  apply (step_resume s1 (length (loops s)) (launched client b) s2' l' Hh1 Hl1);
    [|exact Hres].
  unfold running, is_finished. by rewrite Hpc.
Qed.

(** X18. A start with an empty channel list hangs the process. For a
    connected client and no channels, the loop never reaches an [await]:
    the handler never responds, and from then on nothing runs, neither a
    request (a stop included) nor a resumption. *)
Theorem comment_start_empty_hangs (b : CommentBody) s client :
  sessions s !! sessionKey (mb_phoneNumber b) (mb_apiId b) = Some client ->
  connected (world s) client = true ->
  mb_channelLinks b = [] ->
  exists s',
    api_comment b s = (s', inr None)
    /\ commentingActive s' = true
    /\ hung s' = true
    /\ (forall lbl, step lbl s' = None)
    /\ (forall lbl lbls, run (lbl :: lbls) s' = None).
Proof.
  intros Hs Hc Hl.
  pose proof (api_comment_connected b s client Hs Hc) as Hrun.
  assert (Hsp : is_spinning (launched client b) = true).
  { unfold is_spinning, launched. simpl. by rewrite Hl. }
  rewrite Hsp in Hrun.
  eexists. split; [exact Hrun|]. split; [reflexivity|].
  assert (Hh : hung (set_loops (loops s ++ [launched client b])
                       (set_commentingActive true s)) = true).
  { unfold hung. simpl. rewrite hung_app, Hsp. apply orb_true_r. }
  split; [exact Hh|].
  assert (Hstep : forall lbl, step lbl (set_loops (loops s ++ [launched client b])
                                          (set_commentingActive true s)) = None).
  { intros lbl. unfold step. by rewrite Hh. }
  split; [exact Hstep|]. intros lbl lbls. simpl. by rewrite Hstep.
Qed.

(** A resumption with the flag set never leaves the loop. *)
Lemma resume_active l s :
  commentingActive s = true -> running l = true -> is_spinning l = false ->
  exists s1 l', resume l s = (s1, inr l') /\ running l' = true.
Proof.
  intros Hflag Hrun Hsp. destruct (rest_of_running l Hrun Hsp) as [rest Hrest].
  destruct (decide (to_sleep (lp_pc l) = 0%nat)) as [Hz|Hnz].
  - assert (Hpc : lp_pc l = AtSleep rest).
    { destruct (lp_pc l); simpl in *; try lia; congruence. }
    eexists _, _. split; [by apply resume_timer|].
    rewrite Hflag. unfold running, is_finished, after_sleep, while_head. simpl.
    destruct rest as [|next rest']; simpl; [|reflexivity].
    by destruct (lp_channelLinks l).
  - destruct (resume_body l s rest Hrest) as (s1 & p' & ev & Hres & _ & _ & Hrest' & _);
      [lia|].
    exists s1, (set_pc l p'). split; [exact Hres|].
    by apply (running_of_rest (set_pc l p') rest).
Qed.


Lemma step_keeps_running (lbl : label) s s' i l :
  step lbl s = Some s' ->
  is_stop lbl = false ->
  commentingActive s = true ->
  loops s !! i = Some l ->
  running l = true ->
  exists l', loops s' !! i = Some l' /\ running l' = true /\ commentingActive s' = true.
Proof.
  intros Hstep Hstop Hflag Hl Hrun. pose proof Hstep as Hstep0.
  unfold step in Hstep. destruct (hung s) eqn:Hh; [discriminate|].
  destruct lbl as [r|j].
  - injection Hstep as <-. destruct (is_start (Request r)) eqn:Hstart.
    + destruct r; try discriminate. simpl.
      destruct (api_comment_loops b s) as (s1 & res & Heq & Hcases). rewrite Heq. simpl.
      destruct Hcases as [[-> ->]|(lnew & -> & -> & _)].
      * exists l. auto.
      * exists l. split; [|auto]. by apply lookup_app_l_Some.
    + destruct (handle_frame r s Hstart) as [Hloops _].
      exists l. rewrite Hloops. split; [exact Hl|]. split; [exact Hrun|].
      rewrite (step_flag (Request r) s _ Hstep0 Hstart Hstop). exact Hflag.
  - destruct (loops s !! j) as [lj|] eqn:Hlj; [|discriminate].
    destruct (running lj) eqn:Hrunj; [|discriminate].
    pose proof (keeps_resume lj s) as [Hloops Hkeep].
    destruct (resume lj s) as [s1' [e|lj']] eqn:Hres; [discriminate|].
    injection Hstep as <-. simpl in Hloops, Hkeep. simpl. rewrite Hloops, Hkeep.
    destruct (decide (i = j)) as [->|Hij].
    + assert (lj = l) by congruence. subst lj.
      destruct (resume_active l s Hflag Hrun (not_hung_lookup s j l Hh Hl))
        as (s1'' & l'' & Hres' & Hrun').
      rewrite Hres in Hres'. injection Hres' as <- <-.
      exists lj'. split; [|auto]. apply list_lookup_insert_eq. by eapply lookup_lt_Some.
    + exists l. split; [|auto]. by rewrite list_lookup_insert_ne.
Qed.

(** X20. No timeout: a loop runs until a stop is processed. Along any run
    of the process without a stop request, starting from a state where the
    flag is set, a loop that has not finished is never finished, and the
    flag stays set, however many passes, errors, requests and other loops
    come in between. *)
Theorem loop_runs_until_stopped (lbls : list label) s s' i l :
  run lbls s = Some s' ->
  Forall (fun lbl => is_stop lbl = false) lbls ->
  commentingActive s = true ->
  loops s !! i = Some l ->
  running l = true ->
  exists l', loops s' !! i = Some l' /\ running l' = true /\ commentingActive s' = true.
Proof.
  revert s l. induction lbls as [|lbl lbls IH]; intros s l Hrun Hall Hflag Hl Hrunning;
    simpl in Hrun.
  - injection Hrun as <-. eauto.
  - apply Forall_cons in Hall as [Hlbl Hall].
    destruct (step lbl s) as [s1|] eqn:Hstep; [|discriminate].
    destruct (step_keeps_running lbl s s1 i l Hstep Hlbl Hflag Hl Hrunning)
      as (l1 & Hl1 & Hrun1 & Hflag1).
    by apply (IH s1 l1).
Qed.

(** X21. A stop that is followed by a new start before the loop reaches
    its check is never seen by the loop. Take a loop waiting on its timer
    with channels left in its pass. After a stop request and then an
    accepted start request (for any connected client and a non-empty
    list), resuming the old loop moves it on to its next channel: it keeps
    running beside the newly started one. *)
Theorem stop_then_start_keeps_old_loop (b : CommentBody) s i l client next rest :
  hung s = false ->
  loops s !! i = Some l ->
  lp_pc l = AtSleep (next :: rest) ->
  sessions s !! sessionKey (mb_phoneNumber b) (mb_apiId b) = Some client ->
  connected (world s) client = true ->
  mb_channelLinks b <> [] ->
  exists s',
    run [Request PostStopCommenting; Request (PostComment b); Resume i] s = Some s'
    /\ loops s' !! i = Some (set_pc l (AtGetEntity (normalize next) rest))
    /\ loops s' !! length (loops s) = Some (launched client b)
    /\ commentingActive s' = true.
Proof.
  intros Hh Hl Hpc Hs Hc Hne.
  assert (Hi : (i < length (loops s))%nat) by (by eapply lookup_lt_Some).
  set (s1 := set_commentingActive false s).
  assert (Hstep1 : step (Request PostStopCommenting) s = Some s1).
  { unfold step. by rewrite Hh. }
  pose proof (api_comment_connected b s1 client Hs Hc) as Hrun2.
  assert (Hsp : is_spinning (launched client b) = false).
  { unfold is_spinning, launched. simpl. by destruct (mb_channelLinks b). }
  set (s2 := set_loops (loops s1 ++ [launched client b]) (set_commentingActive true s1)) in *.
  assert (Hstep2 : step (Request (PostComment b)) s1 = Some s2).
  { unfold step. change (hung s1) with (hung s). rewrite Hh. simpl. by rewrite Hrun2. }
  assert (Hh2 : hung s2 = false).
  { unfold hung. simpl. rewrite hung_app, Hsp. unfold hung in Hh. by rewrite Hh. }
  assert (Hl2 : loops s2 !! i = Some l).
  { simpl. by apply lookup_app_l_Some. }
  pose proof (resume_timer l s2 (next :: rest) Hpc) as Hres.
  assert (Hrunning : running l = true).
  { unfold running, is_finished. by rewrite Hpc. }
  pose proof (step_resume s2 i l _ _ Hh2 Hl2 Hrunning Hres) as Hstep3.
  eexists. split.
  { simpl. rewrite Hstep1, Hstep2, Hstep3. reflexivity. }
  simpl. split; [|split; [|reflexivity]].
  - rewrite list_lookup_insert_eq; [reflexivity|]. rewrite length_app. simpl. lia.
  - rewrite list_lookup_insert_ne by lia.
    by rewrite lookup_app_r, Nat.sub_diag.
Qed.

End Lifecycle.

(** The life of a loop on the scripted platform. *)

Definition demo_started : @State Demo.remote :=
  default demo_init
    (@run Demo.remote
       [Request (PostConnect Demo.connect_no_code); Request (PostComment Demo.comment_body)]
       demo_init).

(** The loop of [demo_started] after its first iteration body, waiting on
    its timer with [@bar] still to visit. *)
Definition demo_sleeping : @State Demo.remote :=
  default demo_init (@run Demo.remote (replicate 3 (Resume 0%nat)) demo_started).

Definition demo_comment_nothing : CommentBody :=
  {| mb_channelLinks := []; mb_commentText := "hello";
     mb_interval := 60; mb_apiId := Some "12345"; mb_phoneNumber := Some "+15550100" |}.

Definition demo_quiet_run : list label :=
  [Request (PostSearchChannels (Demo.search_body ["news"] 1000 5000));
   Resume 0%nat;
   Request (PostSubscribe Demo.subscribe_body);
   Resume 0%nat].

Definition demo_after_quiet_run : @State Demo.remote :=
  default demo_init (@run Demo.remote demo_quiet_run demo_started).

Example demo_sleeping_loop :
  map lp_pc (loops demo_sleeping) = [AtSleep ["@bar"]].
Proof. vm_compute. reflexivity. Qed.

Lemma flag_and_registry_owners_witness :
  commentingActive demo_after_quiet_run = commentingActive demo_started
  /\ sessions demo_after_quiet_run = sessions demo_started.
Proof.
  assert (Hrun : @run Demo.remote demo_quiet_run demo_started = Some demo_after_quiet_run)
    by (vm_compute; reflexivity).
  pose proof (@flag_and_registry_owners Demo.remote demo_quiet_run demo_started
                demo_after_quiet_run Hrun) as [Hflag Hreg].
  split.
  - apply Hflag. repeat constructor.
  - apply Hreg. repeat constructor.
Defined.

Lemma comment_start_accepted_witness :
  exists s1 s2,
    @api_comment Demo.remote Demo.comment_body Demo.registered
    = (s1, inr (Some (json (BCommenting "Commenting started" 60 2))))
    /\ step (Request (PostComment Demo.comment_body)) Demo.registered = Some s1
    /\ trace s1 = trace Demo.registered
    /\ commentingActive s1 = true
    /\ loops s1 = loops Demo.registered ++ [launched 0%nat Demo.comment_body]
    /\ step (Resume (length (loops Demo.registered))) s1 = Some s2
    /\ trace s2 = trace Demo.registered ++ [ECall (GetEntity 0%nat (normalize "https://t.me/foo"))].
Proof.
  apply (@comment_start_accepted Demo.remote Demo.comment_body Demo.registered 0%nat
           "https://t.me/foo" ["@bar"]).
  - reflexivity.
  - vm_compute. reflexivity.
  - reflexivity.
  - reflexivity.
Defined.

Lemma comment_start_empty_hangs_witness :
  exists s',
    @api_comment Demo.remote demo_comment_nothing Demo.registered = (s', inr None)
    /\ commentingActive s' = true
    /\ hung s' = true
    /\ (forall lbl, step lbl s' = None)
    /\ (forall lbl lbls, run (lbl :: lbls) s' = None).
Proof.
  apply (@comment_start_empty_hangs Demo.remote demo_comment_nothing Demo.registered 0%nat).
  - vm_compute. reflexivity.
  - reflexivity.
  - reflexivity.
Defined.


Definition demo_two_passes : @State Demo.remote :=
  default demo_init (@run Demo.remote (replicate 12 (Resume 0%nat)) demo_started).

(** Twelve resumptions: two full passes over the two channels, the
    second channel failing its lookup each time. *)
Example demo_two_passes_sends :
  (sends (trace demo_two_passes), sleeps (trace demo_two_passes),
   map lp_pc (loops demo_two_passes))
  = (2%nat, 4%nat, [AtGetEntity "foo" ["@bar"]]).
Proof. vm_compute. reflexivity. Qed.

Lemma loop_runs_until_stopped_witness :
  exists l', loops demo_two_passes !! 0%nat = Some l'
             /\ running l' = true
             /\ commentingActive demo_two_passes = true.
Proof.
  apply (@loop_runs_until_stopped Demo.remote (replicate 12 (Resume 0%nat)) demo_started
           demo_two_passes 0%nat demo_loop).
  - vm_compute. reflexivity.
  - repeat constructor.
  - reflexivity.
  - vm_compute. reflexivity.
  - reflexivity.
Defined.

Lemma stop_then_start_keeps_old_loop_witness :
  exists s',
    @run Demo.remote
      [Request PostStopCommenting; Request (PostComment Demo.comment_body); Resume 0%nat]
      demo_sleeping = Some s'
    /\ loops s' !! 0%nat = Some (set_pc demo_loop (AtGetEntity (normalize "@bar") []))
    /\ loops s' !! length (loops demo_sleeping) = Some (launched 0%nat Demo.comment_body)
    /\ commentingActive s' = true.
Proof.
  apply (@stop_then_start_keeps_old_loop Demo.remote Demo.comment_body demo_sleeping 0%nat
           (set_pc demo_loop (AtSleep ["@bar"])) 0%nat "@bar" []).
  - vm_compute. reflexivity.
  - vm_compute. reflexivity.
  - reflexivity.
  - vm_compute. reflexivity.
  - reflexivity.
  - discriminate.
Defined.

(** ** What ends up in the answers *)

Section Answers.

Context {R : Remote}.

Implicit Types (s : State) (client : ClientRef) (l : Loop) (i : nat).


(** X24. Which message a comment answers. For a loop that is waiting for
    the recent messages of a channel: if the protocol returns a non-empty
    list, the next two resumptions fetch the messages and then send the
    comment text as a reply to the first message of the list, and the loop
    goes to its timer whether the send returns or throws; if the list is
    empty or the fetch throws, the loop goes to its timer at once and sends
    nothing. *)
Theorem comment_replies_to_first_message s i l channel rest :
  hung s = false ->
  loops s !! i = Some l ->
  lp_pc l = AtGetMessages channel rest ->
  (forall w' newest older,
     tg _ (GetMessages (lp_client l) channel 5) (world s) = (w', inr (newest :: older)) ->
     exists s2,
       run [Resume i; Resume i] s = Some s2
       /\ trace s2
          = trace s ++ [ECall (GetMessages (lp_client l) channel 5);
                        ECall (SendMessage (lp_client l) channel (lp_commentText l)
                                 (msg_id newest))]
       /\ loops s2 !! i = Some (set_pc l (AtSleep rest)))
  /\ (forall w' r,
        tg _ (GetMessages (lp_client l) channel 5) (world s) = (w', r) ->
        r = inr [] \/ (exists err, r = inl err) ->
        exists s1,
          step (Resume i) s = Some s1
          /\ trace s1 = trace s ++ [ECall (GetMessages (lp_client l) channel 5)]
          /\ loops s1 !! i = Some (set_pc l (AtSleep rest))).
Proof.
  intros Hh Hl Hpc.
  assert (Hi : (i < length (loops s))%nat) by (by eapply lookup_lt_Some).
  assert (Hrun : running l = true) by (unfold running, is_finished; by rewrite Hpc).
  split.
  - intros w' newest older Htg.
    assert (Hres : resume l s
                   = (log_event (ECall (GetMessages (lp_client l) channel 5)) (set_world w' s),
                      inr (set_pc l (AtSendMessage channel (msg_id newest) rest)))).
    { unfold resume. rewrite Hpc. unfold bind, attempt, try_catch, bind, invoke, ret.
      by rewrite Htg. }
    pose proof (step_resume s i l _ _ Hh Hl Hrun Hres) as Hstep1.
    set (s1 := set_loops _ _) in Hstep1.
    assert (Hh1 : hung s1 = false).
    { unfold hung. simpl. by apply hung_insert. }
    assert (Hl1 : loops s1 !! i = Some (set_pc l (AtSendMessage channel (msg_id newest) rest))).
    { simpl. by apply list_lookup_insert_eq. }
    destruct (resume (set_pc l (AtSendMessage channel (msg_id newest) rest)) s1)
      as [s2' r2] eqn:Hres2.
    assert (Hr2 : r2 = inr (set_pc l (AtSleep rest))
                  /\ trace s2' = trace s1 ++ [ECall (SendMessage (lp_client l) channel
                                                      (lp_commentText l) (msg_id newest))]).
    { unfold resume in Hres2. simpl in Hres2.
      unfold bind, attempt, try_catch, bind, invoke, ret in Hres2. simpl in Hres2.
      destruct (tg unit (SendMessage (lp_client l) channel (lp_commentText l) (msg_id newest)) w')
        as [w2 [e|[]]]; injection Hres2 as <- <-; auto. }
    destruct Hr2 as [-> Htr2].
    pose proof (step_resume s1 i _ _ _ Hh1 Hl1 eq_refl Hres2) as Hstep2.
    eexists. split; [simpl; rewrite Hstep1, Hstep2; reflexivity|]. simpl. split.
    + rewrite Htr2. simpl. by rewrite <- app_assoc.
    + apply list_lookup_insert_eq. by rewrite length_insert.
  - intros w' r Htg Hr.
    assert (Hres : resume l s
                   = (log_event (ECall (GetMessages (lp_client l) channel 5)) (set_world w' s),
                      inr (set_pc l (AtSleep rest)))).
    { unfold resume. rewrite Hpc. unfold bind, attempt, try_catch, bind, invoke, ret.
      rewrite Htg. by destruct Hr as [->|[err ->]]. }
    pose proof (step_resume s i l _ _ Hh Hl Hrun Hres) as Hstep1.
    eexists. split; [exact Hstep1|]. simpl. split; [reflexivity|].
    by apply list_lookup_insert_eq.
Qed.

End Answers.

(** The loop of [demo_started] after its entity lookup. *)
Definition demo_fetching : @State Demo.remote :=
  default demo_init (@run Demo.remote [Resume 0%nat] demo_started).

Lemma comment_replies_to_first_message_witness :
  exists s2,
    @run Demo.remote [Resume 0%nat; Resume 0%nat] demo_fetching = Some s2
    /\ trace s2
       = trace demo_fetching
         ++ [ECall (GetMessages 0%nat {| entity_id := 3 |} 5);
             ECall (SendMessage 0%nat {| entity_id := 3 |} "hello" 7)]
    /\ loops s2 !! 0%nat
       = Some (set_pc (set_pc demo_loop (AtGetMessages {| entity_id := 3 |} ["@bar"]))
                 (AtSleep ["@bar"])).
Proof.
  assert (Hh : hung demo_fetching = false) by (vm_compute; reflexivity).
  assert (Hl : loops demo_fetching !! 0%nat
               = Some (set_pc demo_loop (AtGetMessages {| entity_id := 3 |} ["@bar"])))
    by (vm_compute; reflexivity).
  pose proof (@comment_replies_to_first_message Demo.remote demo_fetching 0%nat _
                {| entity_id := 3 |} ["@bar"] Hh Hl eq_refl) as [Hreply _].
  apply (Hreply (world demo_fetching) {| msg_id := 7 |} [ {| msg_id := 6 |} ]).
  reflexivity.
Defined.

(** * Cancellation and restarts *)

Section Cancellation.

Context {R : Remote}.

Implicit Types (s : State) (client : ClientRef) (l : Loop) (i : nat).






End Cancellation.

(** A stop on the scripted platform, then a search and a subscription
    while the loop winds down. *)




(** A stop, then a new start before the old loop has reached its check.
    The old loop goes on: twelve resumptions later it has made two full
    passes and is still running. *)

Definition demo_restart_run : list label :=
  Request (PostComment Demo.comment_body) :: replicate 12 (Resume 0%nat).

Example demo_restart_old_loop :
  (fun s => (lp_pc <$> loops s !! 0%nat, sends (drop 3 (trace s)), commentingActive s))
    <$> @run Demo.remote demo_restart_run demo_stopped
  = Some (Some (AtGetEntity "foo" ["@bar"]), 2%nat, true).
Proof. vm_compute. reflexivity. Qed.


(** * Discovery for any [keywords] value *)

(** What the [keywords] field of a JSON body can be, as far as the handler
    can tell values apart. A non-empty string is iterated character by
    character and so behaves as the array of its characters. *)
Inductive JsKeywords :=
| KwFalsy
    (* undefined, null, false, 0 or the empty string *)
| KwArray (keywords : list string)
| KwNotIterable (length_zero : bool).
    (* a number, true or an object; [length_zero]: it is an object with a
       [length] property equal to 0 *)

Record RawSearchBody := {
  rb_keywords : JsKeywords;
  rb_minSubscribers : Z;
  rb_maxSubscribers : Z;
  rb_apiId : option string;
  rb_phoneNumber : option string
}.

(** [!keywords || keywords.length === 0] *)
Definition keywords_rejected (k : JsKeywords) : bool :=
  match k with
  | KwFalsy => true
  | KwArray keywords => bool_decide (length keywords = 0%nat)
  | KwNotIterable length_zero => length_zero
  end.

(** What [for (const keyword of keywords)] iterates over, or the
    [TypeError] it throws. *)
Definition keywords_iterate (k : JsKeywords) : Exn + list string :=
  match k with
  | KwArray keywords => inr keywords
  | KwFalsy | KwNotIterable _ => inl "keywords is not iterable"
  end.

(** The body as the typed handler sees it, when [keywords] is missing or an
    array. *)
Definition typed_body (b : RawSearchBody) (keywords : option (list string)) : SearchBody :=
  {| sb_keywords := keywords;
     sb_minSubscribers := rb_minSubscribers b;
     sb_maxSubscribers := rb_maxSubscribers b;
     sb_apiId := rb_apiId b;
     sb_phoneNumber := rb_phoneNumber b |}.

Section RawDiscovery.

Context {R : Remote}.

Implicit Types (s : State) (client : ClientRef).

Local Notation "x <- m ;; k" := (bind m (fun x => k))
  (at level 100, m at next level, right associativity).

(** POST /api/search-channels, for any [keywords] value. *)
Definition api_search_channels_raw (b : RawSearchBody) : M Response :=
  try_catch
    (if keywords_rejected (rb_keywords b)
     then ret (status_json 400 (BError "Keywords are required" None))
     else
       found <- sessions_get (sessionKey (rb_phoneNumber b) (rb_apiId b)) ;;
       conn <- match found with
               | Some client => client_connected client
               | None => ret false
               end ;;
       match found, conn with
       | Some client, true =>
           match keywords_iterate (rb_keywords b) with
           | inl error => throw error
           | inr keywords =>
               acc <- for_of (search_keyword client (rb_minSubscribers b)
                                (rb_maxSubscribers b))
                        keywords ([], ∅) ;;
               let allChannels := fst acc in
               ret (json (BChannels allChannels (length allChannels)))
           end
       | _, _ =>
           ret (status_json 401
                  (BError "Not connected to Telegram. Please connect first." None))
       end)
    (fun error =>
       ret (status_json 500 (BError error (Some "Error searching for channels")))).

(** On a missing field and on an array this is the handler of the typed
    body. *)
Lemma api_search_channels_raw_typed (b : RawSearchBody) :
  (rb_keywords b = KwFalsy ->
   api_search_channels_raw b = api_search_channels (typed_body b None))
  /\ (forall keywords, rb_keywords b = KwArray keywords ->
      api_search_channels_raw b = api_search_channels (typed_body b (Some keywords))).
Proof.
  split.
  - intros Hk. unfold api_search_channels_raw, api_search_channels. by rewrite Hk.
  - intros keywords Hk. unfold api_search_channels_raw, api_search_channels. rewrite Hk.
    by destruct keywords.
Qed.

(** *** The loops only add, and never throw *)

Definition extends (acc0 acc : SearchAcc) : Prop :=
  exists more, fst acc = fst acc0 ++ more.

Lemma extends_refl (acc : SearchAcc) : extends acc acc.
Proof. exists []. by rewrite app_nil_r. Qed.

Lemma extends_trans (a b c : SearchAcc) : extends a b -> extends b c -> extends a c.
Proof. intros [m1 H1] [m2 H2]. exists (m1 ++ m2). by rewrite H2, H1, app_assoc. Qed.

Lemma process_chat_extends lo hi client keyword acc chat s :
  exists s' acc', process_chat client lo hi keyword acc chat s = (s', inr acc')
                  /\ extends acc acc'.
Proof.
  destruct acc as [allChannels seenIds]. unfold process_chat.
  destruct (is_candidate seenIds chat); [|eexists _, _; split; [done|apply extends_refl]].
  unfold bind, try_catch, invoke, sleep, modify, ret.
  destruct (tg ChatFull (GetFullChannel client chat) (world s)) as [w' [e|fullChat]];
    [eexists _, _; split; [done|apply extends_refl]|].
  destruct (meetsCriteria _ lo hi); [|eexists _, _; split; [done|apply extends_refl]].
  destruct (hasDiscussion fullChat); [|eexists _, _; split; [done|apply extends_refl]].
  eexists _, _. split; [reflexivity|]. by eexists.
Qed.

Lemma process_chats_extends lo hi client keyword chats acc s :
  exists s' acc', for_of (process_chat client lo hi keyword) chats acc s = (s', inr acc')
                  /\ extends acc acc'.
Proof.
  apply (for_of_invariant (process_chat client lo hi keyword) (extends acc));
    [|apply extends_refl].
  intros b x s0 Hb. destruct (process_chat_extends lo hi client keyword b x s0)
    as (s1 & b1 & Hrun & Hext).
  exists s1, b1. split; [exact Hrun|]. by eapply extends_trans.
Qed.

Lemma search_keyword_extends lo hi client acc keyword s :
  exists s' acc', search_keyword client lo hi acc keyword s = (s', inr acc')
                  /\ extends acc acc'.
Proof.
  unfold search_keyword, try_catch, bind at 1, invoke.
  destruct (tg (list Chat) (ContactsSearch client keyword 50) (world s)) as [w' [e|chats]].
  { eexists _, _. split; [done|apply extends_refl]. }
  unfold bind at 1.
  destruct (process_chats_extends lo hi client keyword chats acc
              (log_event (ECall (ContactsSearch client keyword 50)) (set_world w' s)))
    as (s1 & acc1 & -> & Hext).
  by eexists _, _.
Qed.

Lemma search_keywords_extends lo hi client keywords acc s :
  exists s' acc', for_of (search_keyword client lo hi) keywords acc s = (s', inr acc')
                  /\ extends acc acc'.
Proof.
  apply (for_of_invariant (search_keyword client lo hi) (extends acc));
    [|apply extends_refl].
  intros b x s0 Hb. destruct (search_keyword_extends lo hi client b x s0)
    as (s1 & b1 & Hrun & Hext).
  exists s1, b1. split; [exact Hrun|]. by eapply extends_trans.
Qed.

(** A [for ... of] over a list in two parts. *)
Lemma for_of_app {A B} (f : B -> A -> M B) (l1 l2 : list A) (b b1 : B) s s1 :
  for_of f l1 b s = (s1, inr b1) ->
  for_of f (l1 ++ l2) b s = for_of f l2 b1 s1.
Proof.
  revert b s. induction l1 as [|x l1 IH]; intros b s Hrun; simpl in *.
  - by injection Hrun as <- <-.
  - unfold bind in *. destruct (f b x s) as [s0 [e|b0]]; [discriminate|]. by apply IH.
Qed.

(** The handler on a connected client and a non-empty array is its keyword
    loop over the whole array. *)
Lemma api_search_channels_raw_run (b : RawSearchBody) s client keywords s' acc :
  rb_keywords b = KwArray keywords ->
  keywords <> [] ->
  sessions s !! sessionKey (rb_phoneNumber b) (rb_apiId b) = Some client ->
  connected (world s) client = true ->
  for_of (search_keyword client (rb_minSubscribers b) (rb_maxSubscribers b)) keywords
    ([], ∅) s = (s', inr acc) ->
  api_search_channels_raw b s = (s', inr (json (BChannels (fst acc) (length (fst acc))))).
Proof.
  intros Hk Hne Hs Hc Hrun. unfold api_search_channels_raw, try_catch. rewrite Hk. simpl.
  rewrite bool_decide_eq_false_2 by (by destruct keywords).
  unfold bind at 1, sessions_get, gets. rewrite Hs.
  unfold bind at 1, client_connected, gets. rewrite Hc.
  unfold bind at 1. rewrite Hrun. reflexivity.
Qed.

(** The four ways the handler ends. *)
Lemma api_search_channels_raw_cases (b : RawSearchBody) s :
  exists s' res, api_search_channels_raw b s = (s', inr res) /\
    ((status res = 400 /\ success res = false
      /\ keywords_rejected (rb_keywords b) = true)
     \/ (status res = 401 /\ success res = false
         /\ keywords_rejected (rb_keywords b) = false
         /\ has_connected s (sessionKey (rb_phoneNumber b) (rb_apiId b)) = false)
     \/ (status res = 500 /\ success res = false
         /\ rb_keywords b = KwNotIterable false
         /\ has_connected s (sessionKey (rb_phoneNumber b) (rb_apiId b)) = true)
     \/ (status res = 200 /\ success res = true
         /\ has_connected s (sessionKey (rb_phoneNumber b) (rb_apiId b)) = true
         /\ exists client k ks acc,
              rb_keywords b = KwArray (k :: ks)
              /\ sessions s !! sessionKey (rb_phoneNumber b) (rb_apiId b) = Some client
              /\ for_of (search_keyword client (rb_minSubscribers b) (rb_maxSubscribers b))
                   (k :: ks) ([], ∅) s = (s', inr acc)
              /\ body res = BChannels (fst acc) (length (fst acc)))).
Proof.
  unfold has_connected.
  destruct (keywords_rejected (rb_keywords b)) eqn:Hrej.
  { unfold api_search_channels_raw, try_catch. rewrite Hrej.
    eexists _, _. split; [reflexivity|]. left. auto. }
  destruct (sessions s !! sessionKey (rb_phoneNumber b) (rb_apiId b)) as [client|] eqn:Hs.
  - destruct (connected (world s) client) eqn:Hc.
    + destruct (rb_keywords b) as [|[|k ks]|[|]] eqn:Hk; try discriminate.
      * destruct (search_keywords_extends (rb_minSubscribers b) (rb_maxSubscribers b)
                    client (k :: ks) ([], ∅) s) as (s' & acc & Hrun & _).
        exists s', (json (BChannels (fst acc) (length (fst acc)))).
        split; [by eapply api_search_channels_raw_run|].
        right. right. right. repeat split. exists client, k, ks, acc. auto.
      * unfold api_search_channels_raw, try_catch. rewrite Hk. simpl.
        unfold bind at 1, sessions_get, gets. rewrite Hs.
        unfold bind, client_connected, gets, throw, ret. rewrite Hc.
        eexists _, _. split; [reflexivity|]. right. right. left. auto.
    + unfold api_search_channels_raw, try_catch. rewrite Hrej.
      unfold bind at 1, sessions_get, gets. rewrite Hs.
      unfold bind, client_connected, gets, ret. rewrite Hc.
      eexists _, _. split; [reflexivity|]. right. left. auto.
  - unfold api_search_channels_raw, try_catch. rewrite Hrej.
    unfold bind at 1, sessions_get, gets. rewrite Hs. unfold bind, ret.
    eexists _, _. split; [reflexivity|]. right. left. auto.
Qed.

End RawDiscovery.

Section Tolerance.

Context {R : Remote}.

Implicit Types (s : State) (client : ClientRef).

(** One keyword whose search returns: the chat loop, then the 500 ms
    timer. *)
Lemma search_keyword_returned lo hi client acc keyword s w1 chats s3 acc3 :
  tg _ (ContactsSearch client keyword 50) (world s) = (w1, inr chats) ->
  for_of (process_chat client lo hi keyword) chats acc
    (log_event (ECall (ContactsSearch client keyword 50)) (set_world w1 s)) = (s3, inr acc3) ->
  search_keyword client lo hi acc keyword s = (log_event (ESleep 500) s3, inr acc3).
Proof.
  intros Htg Hrun. unfold search_keyword, try_catch, bind at 1, invoke. rewrite Htg.
  unfold bind at 1. rewrite Hrun. reflexivity.
Qed.

(** C7, as the code has it. POST /api/search-channels always answers:
    - 400 exactly when [keywords] is missing, falsy or of length 0;
    - otherwise 401 exactly when no connected client is registered under
      the session key;
    - otherwise 500 exactly when [keywords] is a value that cannot be
      iterated (a number, [true], an object), through the catch-all of the
      handler;
    - otherwise 200, and the channels list is what the keyword loop has
      gathered over all the keywords of the request.
    On a connected client and an array of keywords, failures inside the
    loops are skipped:
    - if the search of a keyword throws, at whatever position, the handler
      goes on with the keywords after it and answers 200 with everything
      the keywords before it had gathered plus what the later ones add;
    - if the metadata fetch of a candidate throws, at whatever position in
      the chats of whatever keyword, the handler runs the 100 ms timer,
      goes on with the chats after it and then with the keywords after
      that keyword, and answers 200 with everything gathered before plus
      what the later chats and keywords add. *)
Theorem search_tolerates_partial_failures (b : RawSearchBody) s :
  let key := sessionKey (rb_phoneNumber b) (rb_apiId b) in
  let lo := rb_minSubscribers b in
  let hi := rb_maxSubscribers b in
  (exists s' res, api_search_channels_raw b s = (s', inr res) /\
     ((status res = 400 /\ success res = false
       /\ keywords_rejected (rb_keywords b) = true)
      \/ (status res = 401 /\ success res = false
          /\ keywords_rejected (rb_keywords b) = false
          /\ has_connected s key = false)
      \/ (status res = 500 /\ success res = false
          /\ rb_keywords b = KwNotIterable false
          /\ has_connected s key = true)
      \/ (status res = 200 /\ success res = true
          /\ has_connected s key = true
          /\ exists client k ks acc,
               rb_keywords b = KwArray (k :: ks)
               /\ sessions s !! key = Some client
               /\ for_of (search_keyword client lo hi) (k :: ks) ([], ∅) s = (s', inr acc)
               /\ body res = BChannels (fst acc) (length (fst acc)))))
  /\ (forall client pre keyword post s1 acc1 w' err,
        rb_keywords b = KwArray (pre ++ keyword :: post) ->
        sessions s !! key = Some client ->
        connected (world s) client = true ->
        for_of (search_keyword client lo hi) pre ([], ∅) s = (s1, inr acc1) ->
        tg _ (ContactsSearch client keyword 50) (world s1) = (w', inl err) ->
        exists s2 acc2,
          for_of (search_keyword client lo hi) post acc1
            (log_event (ECall (ContactsSearch client keyword 50)) (set_world w' s1))
          = (s2, inr acc2)
          /\ api_search_channels_raw b s
             = (s2, inr (json (BChannels (fst acc2) (length (fst acc2)))))
          /\ extends acc1 acc2)
  /\ (forall client pre keyword post s1 acc1 w1 before chat after s2 allChannels
             (seenIds : gset string) w2 err,
        rb_keywords b = KwArray (pre ++ keyword :: post) ->
        sessions s !! key = Some client ->
        connected (world s) client = true ->
        for_of (search_keyword client lo hi) pre ([], ∅) s = (s1, inr acc1) ->
        tg _ (ContactsSearch client keyword 50) (world s1)
        = (w1, inr (before ++ chat :: after)) ->
        for_of (process_chat client lo hi keyword) before acc1
          (log_event (ECall (ContactsSearch client keyword 50)) (set_world w1 s1))
        = (s2, inr (allChannels, seenIds)) ->
        is_candidate seenIds chat = true ->
        tg _ (GetFullChannel client chat) (world s2) = (w2, inl err) ->
        exists s3 acc3 s4 acc4,
          for_of (process_chat client lo hi keyword) after (allChannels, seenIds)
            (log_event (ESleep 100)
               (log_event (ECall (GetFullChannel client chat)) (set_world w2 s2)))
          = (s3, inr acc3)
          /\ for_of (search_keyword client lo hi) post acc3 (log_event (ESleep 500) s3)
             = (s4, inr acc4)
          /\ api_search_channels_raw b s
             = (s4, inr (json (BChannels (fst acc4) (length (fst acc4)))))
          /\ extends (allChannels, seenIds) acc4).
Proof.
  intros key lo hi. subst key lo hi.
  split; [apply api_search_channels_raw_cases|]. split.
  - intros client pre keyword post s1 acc1 w' err Hk Hs Hc Hpre Htg.
    destruct (search_keywords_extends (rb_minSubscribers b) (rb_maxSubscribers b) client post acc1
                (log_event (ECall (ContactsSearch client keyword 50)) (set_world w' s1)))
      as (s2 & acc2 & Hpost & Hext).
    exists s2, acc2. split; [exact Hpost|]. split; [|exact Hext].
    apply (api_search_channels_raw_run b s client (pre ++ keyword :: post));
      try assumption; [by destruct pre|].
    rewrite (for_of_app _ pre (keyword :: post) _ acc1 s s1 Hpre).
    by rewrite (search_keywords_skip_failure (rb_minSubscribers b) (rb_maxSubscribers b) client acc1 keyword post s1 w' err Htg).
  - intros client pre keyword post s1 acc1 w1 before chat after s2 allChannels seenIds
           w2 err Hk Hs Hc Hpre Hsearch Hbefore Hcand Hfetch.
    destruct (process_chats_extends (rb_minSubscribers b) (rb_maxSubscribers b) client keyword after (allChannels, seenIds)
                (log_event (ESleep 100)
                   (log_event (ECall (GetFullChannel client chat)) (set_world w2 s2))))
      as (s3 & acc3 & Hafter & Hext3).
    destruct (search_keywords_extends (rb_minSubscribers b) (rb_maxSubscribers b) client post acc3 (log_event (ESleep 500) s3))
      as (s4 & acc4 & Hpost & Hext4).
    exists s3, acc3, s4, acc4. split; [exact Hafter|]. split; [exact Hpost|].
    split; [|by eapply extends_trans].
    apply (api_search_channels_raw_run b s client (pre ++ keyword :: post));
      try assumption; [by destruct pre|].
    rewrite (for_of_app _ pre (keyword :: post) _ acc1 s s1 Hpre).
    simpl. unfold bind at 1.
    rewrite (search_keyword_returned (rb_minSubscribers b) (rb_maxSubscribers b) client acc1 keyword s1 w1
               (before ++ chat :: after) s3 acc3 Hsearch); [exact Hpost|].
    etrans; [apply (for_of_app _ before (chat :: after) _ _ _ _ Hbefore)|].
    etrans; [by eapply process_chats_skip_failure|]. exact Hafter.
Qed.

End Tolerance.

(** Discovery on the scripted platform with a throttled first keyword and a
    private channel under the second. *)

Definition demo_raw_body (k : JsKeywords) : RawSearchBody :=
  {| rb_keywords := k; rb_minSubscribers := 1000; rb_maxSubscribers := 5000;
     rb_apiId := Some "12345"; rb_phoneNumber := Some "+15550100" |}.

Definition demo_after_down : @State Demo.remote :=
  log_event (ECall (ContactsSearch 0%nat "down" 50)) Demo.registered.

Definition demo_after_wire : @State Demo.remote * (Exn + SearchAcc) :=
  @for_of Demo.remote _ _ (process_chat 0%nat 1000 5000 "tech") [Demo.chat 2 "wire" false]
    ([], ∅) (log_event (ECall (ContactsSearch 0%nat "tech" 50)) demo_after_down).

Definition demo_acc_wire : SearchAcc :=
  match snd demo_after_wire with
  | inr acc => acc
  | inl _ => ([], ∅)
  end.

Example demo_raw_answer :
  match snd (@api_search_channels_raw Demo.remote
               (demo_raw_body (KwArray ["down"; "tech"; "news"])) Demo.registered) with
  | inr {| status := code; body := BChannels channels total |} =>
      (code, map ci_name channels, total)
  | _ => (0, [], 0%nat)
  end
  = (200, ["wire"; "daily"], 2%nat).
Proof. vm_compute. reflexivity. Qed.

Lemma search_tolerates_partial_failures_witness :
  (exists s2 acc2,
     @for_of Demo.remote _ _ (search_keyword 0%nat 1000 5000) ["tech"; "news"] ([], ∅)
       demo_after_down = (s2, inr acc2)
     /\ @api_search_channels_raw Demo.remote
          (demo_raw_body (KwArray ["down"; "tech"; "news"])) Demo.registered
        = (s2, inr (json (BChannels (fst acc2) (length (fst acc2)))))
     /\ extends ([], ∅) acc2)
  /\ (exists s3 acc3 s4 acc4,
        @for_of Demo.remote _ _ (process_chat 0%nat 1000 5000 "tech")
          [Demo.chat 4 "huge" false; Demo.chat 5 "mute" false] demo_acc_wire
          (log_event (ESleep 100)
             (log_event (ECall (GetFullChannel 0%nat (Demo.chat 3 "bits" false)))
                (fst demo_after_wire)))
        = (s3, inr acc3)
        /\ @for_of Demo.remote _ _ (search_keyword 0%nat 1000 5000) ["news"] acc3
             (log_event (ESleep 500) s3) = (s4, inr acc4)
        /\ @api_search_channels_raw Demo.remote
             (demo_raw_body (KwArray ["down"; "tech"; "news"])) Demo.registered
           = (s4, inr (json (BChannels (fst acc4) (length (fst acc4)))))
        /\ extends demo_acc_wire acc4).
Proof.
  pose proof (@search_tolerates_partial_failures Demo.remote
                (demo_raw_body (KwArray ["down"; "tech"; "news"])) Demo.registered)
    as (_ & Hkeyword & Hchat).
  split.
  - apply (Hkeyword 0%nat [] "down" ["tech"; "news"] Demo.registered ([], ∅)
             (world Demo.registered) "FLOOD_WAIT_30").
    + reflexivity.
    + vm_compute. reflexivity.
    + reflexivity.
    + reflexivity.
    + reflexivity.
  - apply (Hchat 0%nat ["down"] "tech" ["news"] demo_after_down ([], ∅)
             (world demo_after_down)
             [Demo.chat 2 "wire" false] (Demo.chat 3 "bits" false)
             [Demo.chat 4 "huge" false; Demo.chat 5 "mute" false]
             (fst demo_after_wire) (fst demo_acc_wire) (snd demo_acc_wire)
             (world (fst demo_after_wire)) "CHANNEL_PRIVATE").
    + reflexivity.
    + vm_compute. reflexivity.
    + reflexivity.
    + vm_compute. reflexivity.
    + reflexivity.
    + vm_compute. reflexivity.
    + vm_compute. reflexivity.
    + reflexivity.
Defined.

(** C7 as stated fails: on a connected session, a [keywords] value that
    is truthy but not iterable (the number 5, say) is answered 500. *)
Lemma search_fails_on_uniterable_keywords :
  ~ (forall (R : Remote) (b : RawSearchBody) (s s' : State) (res : Response),
       api_search_channels_raw b s = (s', inr res) ->
       success res = false ->
       (status res = 401
        /\ has_connected s (sessionKey (rb_phoneNumber b) (rb_apiId b)) = false)
       \/ (status res = 400 /\ keywords_rejected (rb_keywords b) = true)).
Proof.
  intros H.
  destruct (H Demo.remote (demo_raw_body (KwNotIterable false)) Demo.registered
              Demo.registered
              (status_json 500 (BError "keywords is not iterable"
                                  (Some "Error searching for channels"))))
    as [[Hst _]|[Hst _]].
  - vm_compute. reflexivity.
  - reflexivity.
  - discriminate Hst.
  - discriminate Hst.
Qed.

(** * The order of events in discovery *)



Section WireOrder.

Context {R : Remote}.

Implicit Types (s : State) (client : ClientRef).






End WireOrder.


Example demo_search_trace :
  drop 3 (trace (fst (demo_search ["down"; "tech"] 1000 5000)))
  = [ECall (ContactsSearch 0%nat "down" 50);
     ECall (ContactsSearch 0%nat "tech" 50);
     ECall (GetFullChannel 0%nat (Demo.chat 2 "wire" false)); ESleep 100;
     ECall (GetFullChannel 0%nat (Demo.chat 3 "bits" false)); ESleep 100;
     ECall (GetFullChannel 0%nat (Demo.chat 4 "huge" false)); ESleep 100;
     ECall (GetFullChannel 0%nat (Demo.chat 5 "mute" false)); ESleep 100;
     ESleep 500].
Proof. vm_compute. reflexivity. Qed.

(** * Where the listed channels come from *)

Section Provenance.

Context {R : Remote}.

Implicit Types (s : State) (client : ClientRef).






End Provenance.


(** * Shutdown *)

Section Shutdown.

Context {R : Remote}.

Implicit Types (s : State) (client : ClientRef).

(** The body of the SIGTERM loop for one entry: a throwing disconnect is
    logged and the loop goes on. *)
Definition disconnect_entry (_ : unit) (entry : string * ClientRef) : M unit :=
  bind (attempt (invoke (Disconnect (snd entry)))) (fun _ => ret tt).

(** The SIGTERM handler: [for (const [key, client] of sessions.entries())].
    The registry is a finite map that does not keep the order of
    insertion; the entries are visited in the order [map_to_list] gives
    them, and the property below does not depend on that order. The
    [process.exit(0)] that follows ends the process. *)
Definition sigterm : M unit :=
  bind (gets (fun s => map_to_list (sessions s)))
    (fun entries => for_of disconnect_entry entries tt).



End Shutdown.

(** Shutdown on the scripted platform with one registered client. *)
Example demo_sigterm :
  drop 3 (trace (fst (@sigterm Demo.remote Demo.registered))) = [ECall (Disconnect 0%nat)].
Proof. vm_compute. reflexivity. Qed.
